(** * Chunk-addressable memory-mapped corpus store

    A shallow embedding of
    [nemo/collections/nlp/data/language_modeling/megatron/indexed_retrieval_dataset.py]:
    the index writer ([Index.writer] / [_Writer]), the index reader
    ([Index.__init__] and its lookups), the dataset accessors
    ([MMapRetrievalIndexedDataset]) and the builder
    ([MMapRetrievalIndexedDatasetBuilder]).

    Files are sequences of bytes, a byte being an integer in [0, 256).
    Python integers are [Z]; fixed-width numpy integers are [Z] with the
    wrap-around written out where the code converts.  Exceptions are the
    constructors of [exn], and a call that may raise returns a [result].
    Documents are token ids: the model follows the program on the integer
    element types, and [OutsideModel] marks where it stops, at an index of
    floating-point elements. *)

From Stdlib Require Import ZArith Lia Bool String List.
Import ListNotations.
Open Scope Z_scope.

(** ** Exceptions and results *)

Inductive exn : Type :=
| ValueError
| IndexError
| NameError
| AssertionError
| ZeroDivisionError
| StructError
| OverflowError
| KeyError
| TypeError
| AttributeError
| OutsideModel.

Inductive result (A : Type) : Type :=
| Ok (a : A)
| Raise (e : exn).

Arguments Ok {A} a.
Arguments Raise {A} e.

Definition bind {A B : Type} (r : result A) (k : A -> result B) : result B :=
  match r with
  | Ok a => k a
  | Raise e => Raise e
  end.

Declare Scope py_scope.
Delimit Scope py_scope with py.
Notation "x <- c ;; k" := (bind c (fun x => k))
  (at level 61, c at next level, right associativity) : py_scope.
Notation "' p <- c ;; k" := (bind c (fun x => let p := x in k))
  (at level 61, p pattern, c at next level, right associativity) : py_scope.
Open Scope py_scope.

Definition assert (b : bool) : result unit :=
  if b then Ok tt else Raise AssertionError.

Definition len {A : Type} (l : list A) : Z := Z.of_nat (length l).

(** ** Bytes and little-endian integers *)

Definition bytes := list Z.

(** The [n] low-order bytes of [x], least significant first.  For a negative
    [x] this is the two's complement representation. *)
Fixpoint le_bytes (n : nat) (x : Z) : bytes :=
  match n with
  | O => []
  | S k => x mod 256 :: le_bytes k (x / 256)
  end.

Fixpoint le_value (bs : bytes) : Z :=
  match bs with
  | [] => 0
  | b :: rest => b + 256 * le_value rest
  end.

(** [x] reduced into the signed range of a [w]-bit integer. *)
Definition wrap_signed (w : Z) (x : Z) : Z :=
  (x + 2 ^ (w - 1)) mod 2 ^ w - 2 ^ (w - 1).

Definition wrap_unsigned (w : Z) (x : Z) : Z := x mod 2 ^ w.

(** ** [struct.pack] / [struct.unpack] for the two formats the module uses *)

(** [struct.pack('<Q', v)]: an unsigned 64-bit field; a value out of range
    is a [struct.error]. *)
Definition pack_Q (v : Z) : result bytes :=
  if (0 <=? v) && (v <? 2 ^ 64) then Ok (le_bytes 8 v) else Raise StructError.

(** [struct.pack('<B', v)]. *)
Definition pack_B (v : Z) : result bytes :=
  if (0 <=? v) && (v <? 256) then Ok (le_bytes 1 v) else Raise StructError.

(** [struct.unpack('<Q', b)[0]]: the buffer must hold exactly 8 bytes. *)
Definition unpack_Q (b : bytes) : result Z :=
  if (length b =? 8)%nat then Ok (le_value b) else Raise StructError.

Definition unpack_B (b : bytes) : result Z :=
  if (length b =? 1)%nat then Ok (le_value b) else Raise StructError.

(** ** Element types

    The integer types of the module's [dtypes] table: the types builders,
    writers and datasets are modelled for. *)

Inductive dtype : Type :=
| np_uint8
| np_int8
| np_int16
| np_int32
| np_int64
| np_uint16.

Definition dtype_eqb (a b : dtype) : bool :=
  match a, b with
  | np_uint8, np_uint8 | np_int8, np_int8 | np_int16, np_int16
  | np_int32, np_int32 | np_int64, np_int64 | np_uint16, np_uint16 => true
  | _, _ => false
  end.

(** The values of the [dtypes] table: the integer types, [np.float] (in
    the numpy versions that have the name, Python's [float]) and
    [np.double]. *)
Inductive table_type : Type :=
| Integer (d : dtype)
| np_float
| np_double.

(** [dtypes[k]]; a missing key is a [KeyError]. *)
Definition dtypes (k : Z) : result table_type :=
  match k with
  | 1 => Ok (Integer np_uint8)
  | 2 => Ok (Integer np_int8)
  | 3 => Ok (Integer np_int16)
  | 4 => Ok (Integer np_int32)
  | 5 => Ok (Integer np_int64)
  | 6 => Ok np_float
  | 7 => Ok np_double
  | 8 => Ok (Integer np_uint16)
  | _ => Raise KeyError
  end.

(** What the index reader makes of the table's value: it calls
    [self._dtype().itemsize], and Python's [float] has no [itemsize], an
    [AttributeError].  With [np.double] the program goes on, with
    floating-point elements; the model stops there. *)
Definition element_type (t : table_type) : result dtype :=
  match t with
  | Integer d => Ok d
  | np_float => Raise AttributeError
  | np_double => Raise OutsideModel
  end.

(** [code(dtype)] for an integer type: the program searches the keys of
    the table in order for the one whose value is [dtype]; every integer
    type is the value of exactly one key, the one given here. *)
Definition code (d : dtype) : Z :=
  match d with
  | np_uint8 => 1
  | np_int8 => 2
  | np_int16 => 3
  | np_int32 => 4
  | np_int64 => 5
  | np_uint16 => 8
  end.

(** [dtype().itemsize], in bytes. *)
Definition itemsize_nat (d : dtype) : nat :=
  match d with
  | np_uint8 | np_int8 => 1
  | np_int16 | np_uint16 => 2
  | np_int32 => 4
  | np_int64 => 8
  end%nat.

Definition itemsize (d : dtype) : Z := Z.of_nat (itemsize_nat d).

Definition signed (d : dtype) : bool :=
  match d with
  | np_uint8 | np_uint16 => false
  | _ => true
  end.

Definition bits (d : dtype) : Z := 8 * itemsize d.

(** Conversion of an integer to the element type (a C cast: wrap-around). *)
Definition astype (d : dtype) (x : Z) : Z :=
  if signed d then wrap_signed (bits d) x else wrap_unsigned (bits d) x.

(** The values an element of type [d] can take. *)
Definition in_range (d : dtype) (x : Z) : Prop :=
  if signed d then - 2 ^ (bits d - 1) <= x < 2 ^ (bits d - 1)
  else 0 <= x < 2 ^ bits d.

Definition in_rangeb (d : dtype) (x : Z) : bool :=
  if signed d then (- 2 ^ (bits d - 1) <=? x) && (x <? 2 ^ (bits d - 1))
  else (0 <=? x) && (x <? 2 ^ bits d).

(** ** numpy arrays as lists of element values *)

(** [arr.tobytes(order='C')] of a one-dimensional array of type [d]. *)
Definition tobytes (d : dtype) (arr : list Z) : bytes :=
  flat_map (le_bytes (itemsize_nat d)) arr.

(** The first [count] elements of type [d] stored in [buf]. *)
Fixpoint decode_elems (d : dtype) (count : nat) (buf : bytes) : list Z :=
  match count with
  | O => []
  | S k =>
      astype d (le_value (firstn (itemsize_nat d) buf))
        :: decode_elems d k (skipn (itemsize_nat d) buf)
  end.

(** A Python integer passed where numpy wants a C [long] / [ssize_t]. *)
Definition fits_long (x : Z) : bool := (- 2 ^ 63 <=? x) && (x <? 2 ^ 63).

(** [np.frombuffer(buf, dtype=d, count=count, offset=offset)]: [offset] is
    in bytes; a negative [count] takes every element left in the buffer.
    A buffer that is too small, or an offset outside it, is a
    [ValueError]; a [count] or [offset] that is no [ssize_t] is an
    [OverflowError]. *)
Definition frombuffer (buf : bytes) (d : dtype) (count offset : Z)
  : result (list Z) :=
  if negb (fits_long count && fits_long offset) then Raise OverflowError
  else if (offset <? 0) || (len buf <? offset) then Raise ValueError
  else
    let s := len buf - offset in
    if count <? 0 then
      if negb (s mod itemsize d =? 0) then Raise ValueError
      else Ok (decode_elems d (Z.to_nat (s / itemsize d))
                 (skipn (Z.to_nat offset) buf))
    else if s <? count * itemsize d then Raise ValueError
    else Ok (decode_elems d (Z.to_nat count) (skipn (Z.to_nat offset) buf)).

(** [np.array(l, dtype=d)] for a list [l] of Python integers: an integer
    that does not fit a C long is an [OverflowError]; one that does is
    converted with wrap-around. *)
Definition np_array (d : dtype) (l : list Z) : result (list Z) :=
  if forallb fits_long l then Ok (map (astype d) l) else Raise OverflowError.

(** Indexing a list or array with an integer: a negative index counts from
    the end; an index outside [-n, n) is an [IndexError]. *)
Definition getitem {A : Type} (l : list A) (i : Z) : result A :=
  let j := if i <? 0 then i + len l else i in
  if j <? 0 then Raise IndexError
  else match nth_error l (Z.to_nat j) with
       | Some x => Ok x
       | None => Raise IndexError
       end.

(** [np.memmap(path, mode='r', order='C')] on the contents of the file at
    [path]: the bytes of the file; an empty file cannot be mapped, which is
    a [ValueError]. *)
Definition np_memmap (file : bytes) : result bytes :=
  match file with
  | [] => Raise ValueError
  | _ => Ok file
  end.

(** ** Slices *)

Record slice : Type := Slice {
  slice_start : option Z;
  slice_stop : option Z;
  slice_step : option Z
}.

(** [s.indices(length)]: the normalised [(start, stop, step)]. *)
Definition slice_indices (s : slice) (length : Z) : result (Z * Z * Z) :=
  let step := match slice_step s with None => 1 | Some k => k end in
  if step =? 0 then Raise ValueError
  else
    let lower := if step <? 0 then -1 else 0 in
    let upper := if step <? 0 then length - 1 else length in
    let clamp (x : Z) :=
      if x <? 0 then Z.max (x + length) lower else Z.min x upper in
    let start := match slice_start s with
                 | None => if step <? 0 then upper else lower
                 | Some x => clamp x
                 end in
    let stop := match slice_stop s with
                | None => if step <? 0 then lower else upper
                | Some x => clamp x
                end in
    Ok (start, stop, step).

(** [l[lo:hi]] for integers [lo], [hi] (unit step). *)
Definition getslice {A : Type} (l : list A) (lo hi : Z) : list A :=
  let clamp (x : Z) :=
    if x <? 0 then Z.max (x + len l) 0 else Z.min x (len l) in
  let a := clamp lo in
  let b := clamp hi in
  firstn (Z.to_nat (b - a)) (skipn (Z.to_nat a) l).

(** [a + b] for a 64-bit numpy integer [a] and a Python integer [b]: a
    64-bit numpy integer, with wrap-around.  A [b] that does not fit a C
    long takes numpy out of the 64-bit integers; the model stops there with
    an [OverflowError]. *)
Definition np_int64_add (a b : Z) : result Z :=
  if fits_long b then Ok (astype np_int64 (a + b)) else Raise OverflowError.

(** The number of positions [start, start + step, ...] before [stop]. *)
Definition slice_count (start stop step : Z) : nat :=
  if 0 <? step then Z.to_nat ((stop - start + step - 1) / step)
  else Z.to_nat ((start - stop - step - 1) / (- step)).

(** [l[s]] for an array [l] and a slice [s]: the elements at the positions
    [start, start + step, ...] before [stop], for the normalised
    [(start, stop, step)] of [s.indices(len(l))]. *)
Definition array_slice {A : Type} (l : list A) (s : slice) : result (list A) :=
  ' (start, stop, step) <- slice_indices s (len l) ;;
  Ok (flat_map
        (fun k => match nth_error l (Z.to_nat (start + Z.of_nat k * step)) with
                  | Some x => [x]
                  | None => []
                  end)
        (seq 0 (slice_count start stop step))).

(** [list(accumulate(arr))] for an array of type [d]: the running sums,
    each one again of type [d] (numpy scalars add with wrap-around). *)
Fixpoint accumulate_from (d : dtype) (acc : Z) (arr : list Z) : list Z :=
  match arr with
  | [] => []
  | x :: rest =>
      let acc := astype d (acc + x) in
      acc :: accumulate_from d acc rest
  end.

Definition accumulate (d : dtype) (arr : list Z) : list Z :=
  match arr with
  | [] => []
  | x :: rest => x :: accumulate_from d x rest
  end.

(** [sum(arr)] for an array of numpy integers: the start value 0 is a
    Python integer, which makes every partial sum a 64-bit numpy
    integer. *)
Definition py_sum (arr : list Z) : Z :=
  fold_left (fun acc x => astype np_int64 (acc + x)) arr 0.

(** [np.split(ary, indices)] for a list of indices: the pieces
    [ary[st:end]] between consecutive division points
    [[0] + indices + [len(ary)]]. *)
Fixpoint split_at {A : Type} (ary : list A) (st : Z) (div_points : list Z)
  : list (list A) :=
  match div_points with
  | [] => []
  | en :: rest => getslice ary st en :: split_at ary en rest
  end.

Definition np_split {A : Type} (ary : list A) (indices : list Z)
  : list (list A) :=
  split_at ary 0 (indices ++ [len ary]).

(** ** Writing to a file

    A computation that appends to an open file and may raise: it maps the
    bytes written so far to the bytes written afterwards and a result.  When
    it raises, the file keeps what was written before the exception. *)

Definition io (A : Type) : Type := bytes -> bytes * result A.

Definition io_lift {A : Type} (r : result A) : io A := fun f => (f, r).

Definition io_bind {A B : Type} (c : io A) (k : A -> io B) : io B :=
  fun f =>
    match c f with
    | (f', Ok a) => k a f'
    | (f', Raise e) => (f', Raise e)
    end.

(** [file.write(b)] *)
Definition file_write (b : bytes) : io unit := fun f => (f ++ b, Ok tt).

Notation "x <~ c ;; k" := (io_bind c (fun x => k))
  (at level 61, c at next level, right associativity) : py_scope.
Notation "' p <~ c ;; k" := (io_bind c (fun x => let p := x in k))
  (at level 61, p pattern, c at next level, right associativity) : py_scope.

(** A corpus on disk: the pair of files at one path prefix. *)
Record corpus : Type := Corpus {
  idx_file : bytes;   (* prefix + '.idx' *)
  bin_file : bytes    (* prefix + '.bin' *)
}.

Definition _HDR_MAGIC : bytes := [77; 77; 73; 68; 82; 69; 84; 0; 0].

(** ** The index writer: [Index.writer(path, dtype, retrieval_db)] *)

Module Writer.
Section Closure.

(** The variables [_Writer] closes over. *)
Variable dtype_ : dtype.
Variable retrieval_db : bool.

(** [__enter__]: the file is opened for writing (empty) and the fixed part
    of the header goes out. *)
Definition __enter__ : io unit :=
  _ <~ file_write _HDR_MAGIC ;;
  b <~ io_lift (pack_Q 1) ;;
  _ <~ file_write b ;;
  b <~ io_lift (pack_B (code dtype_)) ;;
  file_write b.

(** The loop of [_get_pointers], from the state [(address, pointers)]. *)
Fixpoint _get_pointers_loop (dtype_size chunk_size : Z) (sizes : list Z)
    (address : Z) (pointers : list Z) : list Z :=
  match sizes with
  | [] => pointers
  | size :: rest =>
      let pointers := pointers ++ [address] in
      let address := address + size * dtype_size in
      let address :=
        if retrieval_db then address + chunk_size * dtype_size
        else address in
      _get_pointers_loop dtype_size chunk_size rest address pointers
  end.

Definition _get_pointers (sizes : list Z) (chunk_size : Z) : list Z :=
  let dtype_size := itemsize dtype_ in
  _get_pointers_loop dtype_size chunk_size sizes 0 [].

(** [for _ in range(num_of_chunks)]: the inner loop, from
    [(address, pointers)]. *)
Fixpoint chunk_loop (dtype_size chunk_size : Z) (num_of_chunks : nat)
    (address : Z) (pointers : list Z) : Z * list Z :=
  match num_of_chunks with
  | O => (address, pointers)
  | S k =>
      chunk_loop dtype_size chunk_size k
        (address + chunk_size * dtype_size) (pointers ++ [address])
  end.

(** The outer loop of [_get_chunk_id_and_address], from the state
    [(chunk_ids, last_id, address, pointers)]. *)
Fixpoint _get_chunk_id_and_address_loop (dtype_size chunk_size : Z)
    (sizes : list Z) (chunk_ids : list Z) (last_id address : Z)
    (pointers : list Z) : result (list Z * list Z) :=
  match sizes with
  | [] => Ok (chunk_ids, pointers)
  | size :: rest =>
      let chunk_ids := chunk_ids ++ [last_id] in
      if chunk_size =? 0 then Raise ZeroDivisionError
      else
        let num_of_chunks := size / chunk_size in
        if negb (size mod chunk_size =? 0) then Raise ValueError
        else
          let '(address, pointers) :=
            chunk_loop dtype_size chunk_size (Z.to_nat num_of_chunks)
              address pointers in
          let address :=
            if retrieval_db then address + chunk_size * dtype_size
            else address in
          let last_id := last_id + num_of_chunks in
          _get_chunk_id_and_address_loop dtype_size chunk_size rest
            chunk_ids last_id address pointers
  end.

Definition _get_chunk_id_and_address (sizes : list Z) (chunk_size : Z)
  : result (list Z * list Z) :=
  let dtype_size := itemsize dtype_ in
  _get_chunk_id_and_address_loop dtype_size chunk_size sizes [] 0 0 [].

(** [write(sizes, chunk_size)] *)
Definition write (sizes : list Z) (chunk_size : Z) : io unit :=
  let pointers := _get_pointers sizes chunk_size in
  ' (chunk_ids, chunk_address) <~
    io_lift (_get_chunk_id_and_address sizes chunk_size) ;;
  b <~ io_lift (pack_Q (len sizes)) ;;
  _ <~ file_write b ;;
  b <~ io_lift (pack_Q chunk_size) ;;
  _ <~ file_write b ;;
  b <~ io_lift (pack_Q (len chunk_address)) ;;
  _ <~ file_write b ;;
  b <~ io_lift (pack_B (Z.b2z retrieval_db)) ;;
  _ <~ file_write b ;;
  sizes <~ io_lift (np_array np_int32 sizes) ;;
  _ <~ file_write (tobytes np_int32 sizes) ;;
  pointers <~ io_lift (np_array np_int64 pointers) ;;
  _ <~ file_write (tobytes np_int64 pointers) ;;
  chunk_ids <~ io_lift (np_array np_int64 chunk_ids) ;;
  _ <~ file_write (tobytes np_int64 chunk_ids) ;;
  chunk_address <~ io_lift (np_array np_int64 chunk_address) ;;
  file_write (tobytes np_int64 chunk_address).

End Closure.
End Writer.

(** ** The index reader: [MMapRetrievalIndexedDataset.Index] *)

Module Index.

Record t : Type := mk {
  _dtype : dtype;
  _dtype_size : Z;
  _len : Z;
  chunk_size : Z;
  num_chunks : Z;
  retrieval_db : bool;
  _sizes : list Z;
  _pointers : list Z;
  _chunk_id_start : list Z;
  _chunk_address : list Z
}.

(** [stream.read(n)] at position [pos] of a file: the bytes read (fewer
    than [n] at the end of the file) and the next position. *)
Definition stream_read (file : bytes) (pos n : nat) : bytes * nat :=
  let b := firstn n (skipn pos file) in
  (b, (pos + length b)%nat).

Definition bytes_eqb (a b : bytes) : bool :=
  (length a =? length b)%nat
  && forallb (fun p => fst p =? snd p) (combine a b).

(** [Index.__init__(path)], on the contents of the file at [path]. *)
Definition __init__ (file : bytes) : result t :=
  let '(magic_test, pos) := stream_read file 0 9 in
  _ <- assert (bytes_eqb _HDR_MAGIC magic_test) ;;
  let '(b, pos) := stream_read file pos 8 in
  version <- unpack_Q b ;;
  _ <- assert (1 =? version) ;;
  let '(b, pos) := stream_read file pos 1 in
  dtype_code <- unpack_B b ;;
  _dtype <- dtypes dtype_code ;;
  d <- element_type _dtype ;;
  let dtype_size := itemsize d in
  let '(b, pos) := stream_read file pos 8 in
  n <- unpack_Q b ;;
  let '(b, pos) := stream_read file pos 8 in
  cs <- unpack_Q b ;;
  let '(b, pos) := stream_read file pos 8 in
  nc <- unpack_Q b ;;
  let '(b, pos) := stream_read file pos 1 in
  rdb <- unpack_B b ;;
  let offset := Z.of_nat pos in
  _bin_buffer <- np_memmap file ;;
  sizes <- frombuffer _bin_buffer np_int32 n offset ;;
  let sizes_nbytes := len sizes * itemsize np_int32 in
  pointers <- frombuffer _bin_buffer np_int64 n (offset + sizes_nbytes) ;;
  let pointers_nbytes := len pointers * itemsize np_int64 in
  chunk_id_start <-
    frombuffer _bin_buffer np_int64 n
      (offset + sizes_nbytes + pointers_nbytes) ;;
  let chunk_id_start_nbytes := len chunk_id_start * itemsize np_int64 in
  chunk_address <-
    frombuffer _bin_buffer np_int64 nc
      (offset + sizes_nbytes + pointers_nbytes + chunk_id_start_nbytes) ;;
  Ok (mk d dtype_size n cs nc (negb (rdb =? 0))
        sizes pointers chunk_id_start chunk_address).

(** [get_chunk_address(chunk_id)] *)
Definition get_chunk_address (self : t) (chunk_id : Z) : result Z :=
  getitem (_chunk_address self) chunk_id.

(** [get_chunk_id(sentence_id, position)] *)
Definition get_chunk_id (self : t) (sentence_id position : Z) : result Z :=
  start <- getitem (_chunk_id_start self) sentence_id ;;
  if chunk_size self =? 0 then Raise ZeroDivisionError
  else np_int64_add start (position / chunk_size self).

(** The names a method body can resolve without a binding of its own:
    the module's globals. *)
Definition module_globals : list string :=
  ["os"; "shutil"; "struct"; "lru_cache"; "accumulate"; "np"; "torch";
   "logging"; "dtypes"; "code"; "index_file_path"; "data_file_path";
   "_warmup_mmap_file"; "MMapRetrievalIndexedDataset";
   "MMapRetrievalIndexedDatasetBuilder"]%string.

(** Where a name read in a method body is found: among the body's own
    (integer) locals, among the module's globals, or nowhere (the
    builtins have no one-letter names). *)
Inductive binding : Type :=
| Local (v : Z)
| Global
| Unbound.

Definition resolve (locals : list (string * Z)) (name : string) : binding :=
  match find (fun p => String.eqb (fst p) name) locals with
  | Some p => Local (snd p)
  | None =>
      if existsb (String.eqb name) module_globals then Global else Unbound
  end.

(** Reading [name] to index an array with it: a name bound nowhere is a
    [NameError]; a module-level object is no valid index, which numpy
    reports as an [IndexError]. *)
Definition load_index (locals : list (string * Z)) (name : string)
  : result Z :=
  match resolve locals name with
  | Local v => Ok v
  | Global => Raise IndexError
  | Unbound => Raise NameError
  end.

(** [get_chunk(chunk_id)]: the body indexes with [i], and the only
    parameter is [chunk_id].  ([lru_cache] keeps results only, so a call
    that raises is computed again each time.) *)
Definition get_chunk (self : t) (chunk_id : Z) : result (Z * Z) :=
  let locals := [("chunk_id"%string, chunk_id)] in
  i <- load_index locals "i" ;;
  p <- getitem (_pointers self) i ;;
  i <- load_index locals "i" ;;
  s <- getitem (_sizes self) i ;;
  Ok (p, s).

(** [__getitem__(i)] *)
Definition __getitem__ (self : t) (i : Z) : result (Z * Z) :=
  p <- getitem (_pointers self) i ;;
  s <- getitem (_sizes self) i ;;
  Ok (p, s).

(** [__len__()] *)
Definition __len__ (self : t) : Z := _len self.

End Index.

(** ** Ids and what the accessors return

    What a caller passes as a document or chunk id: a Python [int], a
    numpy integer of some integer type, or a slice.  The accessors test the
    type of the id with [isinstance]; an id that passes none of their
    tests reaches the end of the method, which returns [None]. *)

Inductive key : Type :=
| PyInt (i : Z)
| NumpyInt (d : dtype) (i : Z)
| PySlice (s : slice).

Inductive value : Type :=
| Array (a : list Z)
| Arrays (l : list (list Z))
| PyNone.

(** ** The dataset: [MMapRetrievalIndexedDataset] *)

Module Dataset.

Record t : Type := mk {
  _index : Index.t;
  _bin_buffer : bytes
}.

(** [__init__(path)] / [_do_init]: the index is read from the [.idx] file
    and the [.bin] file is mapped. *)
Definition __init__ (c : corpus) : result t :=
  index <- Index.__init__ (idx_file c) ;;
  _bin_buffer <- np_memmap (bin_file c) ;;
  Ok (mk index _bin_buffer).

(** [__len__()] *)
Definition __len__ (self : t) : Z := Index.__len__ (_index self).

(** [chunks] *)
Definition chunks (self : t) : Z := Index.num_chunks (_index self).

(** [__getitem__(idx)] for a Python [int] [idx]: the branch of
    [isinstance(idx, int)]. *)
Definition __getitem__ (self : t) (idx : Z) : result (list Z) :=
  ' (ptr, size) <- Index.__getitem__ (_index self) idx ;;
  frombuffer (_bin_buffer self) (Index._dtype (_index self)) size ptr.

(** [__getitem__(idx)] for a slice [idx].  In retrieval-db mode the sizes
    are an int32 array plus the Python integer [chunk_size]: numpy keeps
    32 bits when [chunk_size] fits them and widens to 64 bits when it fits
    those; a larger [chunk_size] makes the sums floating-point numbers,
    which [np.frombuffer] rejects as a count with a [TypeError]. *)
Definition getitem_slice (self : t) (idx : slice) : result (list (list Z)) :=
  let index := _index self in
  ' (start, stop, step) <- slice_indices idx (__len__ self) ;;
  if negb (step =? 1) then Raise ValueError
  else
    ptr <- getitem (Index._pointers index) start ;;
    sizes <- array_slice (Index._sizes index) idx ;;
    let w :=
      if Index.retrieval_db index
         && negb (in_rangeb np_int32 (Index.chunk_size index))
      then np_int64 else np_int32 in
    let sizes :=
      if Index.retrieval_db index
      then map (fun size => astype w (size + Index.chunk_size index)) sizes
      else sizes in
    let offsets := accumulate w sizes in
    let total_size := py_sum sizes in
    if Index.retrieval_db index && negb (fits_long (Index.chunk_size index))
    then Raise TypeError
    else
      np_array <-
        frombuffer (_bin_buffer self) (Index._dtype index) total_size ptr ;;
      let sents := np_split np_array (removelast offsets) in
      if Index.retrieval_db index
      then Ok (map (fun sent => getslice sent 0 (- Index.chunk_size index))
                 sents)
      else Ok sents.

(** [get(idx, offset, length)]; [length = None] is the rest of the
    document. *)
Definition get (self : t) (idx : Z) (offset : Z) (length : option Z)
  : result (list Z) :=
  ' (ptr, size) <- Index.__getitem__ (_index self) idx ;;
  let length := match length with
                | None => size - offset
                | Some n => n
                end in
  ptr <- np_int64_add ptr (offset * itemsize (Index._dtype (_index self))) ;;
  frombuffer (_bin_buffer self) (Index._dtype (_index self)) length ptr.

(** [get_chunk_id(idx, offset)] *)
Definition get_chunk_id (self : t) (idx : Z) (offset : Z) : result Z :=
  if Index.chunk_size (_index self) =? 0 then Raise ZeroDivisionError
  else
    _ <- assert (offset mod Index.chunk_size (_index self) =? 0) ;;
    Index.get_chunk_id (_index self) idx offset.

(** [get_chunk(chunk_id)] for an integer [chunk_id]: the branch of
    [isinstance(chunk_id, (int, np.int64, np.int32))]. *)
Definition get_chunk (self : t) (chunk_id : Z) : result (list Z) :=
  ptr <- Index.get_chunk_address (_index self) chunk_id ;;
  let size :=
    if Index.retrieval_db (_index self)
    then Index.chunk_size (_index self) * 2
    else Index.chunk_size (_index self) in
  frombuffer (_bin_buffer self) (Index._dtype (_index self)) size ptr.

(** The comprehension
    [[np_array[pos : pos + chunk_size]
      for pos in starting_pos - starting_pos[0]]], with [first] for
    [starting_pos[0]]; the positions are 64-bit numpy integers. *)
Fixpoint chunk_views (np_array : list Z) (chunk_size first : Z)
    (starting_pos : list Z) : result (list (list Z)) :=
  match starting_pos with
  | [] => Ok []
  | p :: rest =>
      let pos := astype np_int64 (p - first) in
      hi <- np_int64_add pos chunk_size ;;
      sents <- chunk_views np_array chunk_size first rest ;;
      Ok (getslice np_array pos hi :: sents)
  end.

(** [get_chunk(chunk_id, force_no_padding)] for a slice [chunk_id]. *)
Definition get_chunk_slice (self : t) (chunk_id : slice)
    (force_no_padding : bool) : result (list (list Z)) :=
  let index := _index self in
  ' (start, stop, step) <- slice_indices chunk_id (chunks self) ;;
  if negb (step =? 1) then Raise ValueError
  else
    let chunk_size :=
      if Index.retrieval_db index && negb force_no_padding
      then Index.chunk_size index * 2
      else Index.chunk_size index in
    ptr <- Index.get_chunk_address index start ;;
    last <- Index.get_chunk_address index (stop - 1) ;;
    end_address <- np_int64_add last (chunk_size * Index._dtype_size index) ;;
    address <- array_slice (Index._chunk_address index) chunk_id ;;
    let starting_pos :=
      map (fun a => a / Index._dtype_size index) address in
    let total_size :=
      astype np_int64 (end_address - ptr) / Index._dtype_size index in
    np_array <-
      frombuffer (_bin_buffer self) (Index._dtype index) total_size ptr ;;
    first <- getitem starting_pos 0 ;;
    chunk_views np_array chunk_size first starting_pos.

(** [__getitem__(idx)] for any id.  [isinstance(idx, int)] holds for a
    Python [int] and for no numpy integer, so a numpy integer id passes
    neither test and the method returns [None], without a lookup. *)
Definition getitem_any (self : t) (idx : key) : result value :=
  match idx with
  | PyInt i => a <- __getitem__ self i ;; Ok (Array a)
  | PySlice s => l <- getitem_slice self s ;; Ok (Arrays l)
  | NumpyInt _ _ => Ok PyNone
  end.


End Dataset.

(** ** The builder: [MMapRetrievalIndexedDatasetBuilder] *)

Module Builder.

Record t : Type := mk {
  _data_file : bytes;
  _dtype : dtype;
  chunk_size : Z;
  _sizes : list Z;
  retrieval_db : bool;
  pad_id : Z
}.

(** [__init__(out_file, chunk_size, pad_id, retrieval_db, dtype)] *)
Definition __init__ (chunk_size pad_id : Z) (retrieval_db : bool)
    (d : dtype)
  : t :=
  mk [] d chunk_size [] retrieval_db pad_id.

(** [np.pad(arr, (0, n), 'constant', constant_values=v)] on an array of
    type [d]. *)
Definition np_pad (d : dtype) (arr : list Z) (n v : Z) : result (list Z) :=
  if n <? 0 then Raise ValueError
  else if negb (fits_long v) then Raise OverflowError
  else Ok (arr ++ repeat (astype d v) (Z.to_nat n)).

(** [add_item(tensor)]: the builder afterwards.  Every exception comes
    before the first write, so a call that raises leaves the builder as it
    was. *)
Definition add_item (self : t) (tensor : list Z) : result t :=
  let np_array := map (astype (_dtype self)) tensor in
  if chunk_size self =? 0 then Raise ZeroDivisionError
  else
    let padded_size := chunk_size self - len np_array mod chunk_size self in
    let data_size := len np_array + padded_size in
    let padded_size :=
      if retrieval_db self then padded_size + chunk_size self
      else padded_size in
    np_array <- np_pad (_dtype self) np_array padded_size (pad_id self) ;;
    Ok (mk (_data_file self ++ tobytes (_dtype self) np_array)
          (_dtype self) (chunk_size self) (_sizes self ++ [data_size])
          (retrieval_db self) (pad_id self)).

(** [merge_file_(another_file)].  The sizes read from the other index are
    32-bit numpy integers; they join the list as the integers they denote.
    (The writer then computes on them in 64-bit numpy arithmetic, which is
    the integer arithmetic of [Writer] as long as the chunk size is not
    zero and no offset reaches 2^63.) *)
Definition merge_file_ (self : t) (another_file : corpus) : result t :=
  index <- Index.__init__ (idx_file another_file) ;;
  _ <- assert (dtype_eqb (Index._dtype index) (_dtype self)) ;;
  Ok (mk (_data_file self ++ bin_file another_file)
        (_dtype self) (chunk_size self)
        (_sizes self ++ Index._sizes index)
        (retrieval_db self) (pad_id self)).

(** [finalize(index_file)]: the data file is closed and the index file is
    written; the corpus on disk afterwards, and whether the call raised. *)
Definition finalize (self : t) : corpus * result unit :=
  let '(idx, r) :=
    (_ <~ Writer.__enter__ (_dtype self) ;;
     Writer.write (_dtype self) (retrieval_db self)
       (_sizes self) (chunk_size self)) [] in
  (Corpus idx (_data_file self), r).

(** [add_item] for each document of a list, in order. *)
Fixpoint add_items (self : t) (items : list (list Z)) : result t :=
  match items with
  | [] => Ok self
  | tensor :: rest =>
      self <- add_item self tensor ;;
      add_items self rest
  end.

End Builder.

(** ** Layout functions used to state the properties *)

(** The start of each of a list of consecutive spans, the first one
    starting at [a]. *)
Fixpoint starts (a : Z) (spans : list Z) : list Z :=
  match spans with
  | [] => []
  | s :: rest => a :: starts (a + s) rest
  end.

Definition total (spans : list Z) : Z := fold_right Z.add 0 spans.

(** The bytes the data file holds for a document of [size] elements. *)
Definition doc_span (d : dtype) (rdb : bool) (cs size : Z) : Z :=
  size * itemsize d + (if rdb then cs * itemsize d else 0).

(** The addresses of [n] consecutive chunks, the first one at [a]. *)
Definition chunk_run (d : dtype) (cs a : Z) (n : nat) : list Z :=
  map (fun k => a + Z.of_nat k * (cs * itemsize d)) (seq 0 n).

(** The chunk addresses of documents laid out from address [a]. *)
Fixpoint chunk_addresses (d : dtype) (rdb : bool) (cs a : Z) (sizes : list Z)
  : list Z :=
  match sizes with
  | [] => []
  | size :: rest =>
      chunk_run d cs a (Z.to_nat (size / cs))
        ++ chunk_addresses d rdb cs (a + doc_span d rdb cs size) rest
  end.

(** The header of an index file. *)
Definition index_header (d : dtype) (n cs nc : Z) (rdb : bool) : bytes :=
  _HDR_MAGIC ++ le_bytes 8 1 ++ le_bytes 1 (code d) ++ le_bytes 8 n
    ++ le_bytes 8 cs ++ le_bytes 8 nc ++ le_bytes 1 (Z.b2z rdb).

(** An index file that holds the given arrays. *)
Definition index_image (d : dtype) (cs : Z) (rdb : bool)
    (sizes pointers chunk_ids chunk_address : list Z) : bytes :=
  index_header d (len sizes) cs (len chunk_address) rdb
    ++ tobytes np_int32 sizes ++ tobytes np_int64 pointers
    ++ tobytes np_int64 chunk_ids ++ tobytes np_int64 chunk_address.

(** Sizes the index format can hold: every size is a non-negative multiple
    of the chunk size and a 32-bit integer, and the counts and byte offsets
    stay far below 64 bits. *)
Definition index_fits (d : dtype) (rdb : bool) (cs : Z) (sizes : list Z)
  : Prop :=
  0 < cs /\
  Forall (fun size => 0 <= size < 2 ^ 31 /\ size mod cs = 0) sizes /\
  len sizes + cs + total (map (doc_span d rdb cs) sizes) < 2 ^ 58.

(** The index a reader holds after opening the index file written for
    [sizes]. *)
Definition index_of (d : dtype) (rdb : bool) (cs : Z) (sizes : list Z)
  : Index.t :=
  Index.mk d (itemsize d) (len sizes) cs
    (len (chunk_addresses d rdb cs 0 sizes)) rdb
    sizes
    (starts 0 (map (doc_span d rdb cs) sizes))
    (starts 0 (map (fun size => size / cs) sizes))
    (chunk_addresses d rdb cs 0 sizes).


(** The size [add_item] records for a document. *)
Definition padded_size (cs : Z) (tokens : list Z) : Z :=
  len tokens + (cs - len tokens mod cs).

(** The chunk-alignment padding [add_item] adds after a document. *)
Definition alignment_padding (d : dtype) (cs pad : Z) (tokens : list Z)
  : list Z :=
  repeat (astype d pad) (Z.to_nat (cs - len tokens mod cs)).

(** The elements the data file holds for a document: the tokens, the
    alignment padding and, in retrieval-db mode, the reserved block. *)
Definition region (d : dtype) (rdb : bool) (cs pad : Z) (tokens : list Z)
  : list Z :=
  (map (astype d) tokens ++ alignment_padding d cs pad tokens)
    ++ repeat (astype d pad) (Z.to_nat (if rdb then cs else 0)).

(** Documents a builder with chunk size [cs] and pad value [pad] can store
    in the format: the pad value is a C long, every document with its
    padding and reserved block has fewer than 2^31 elements, and the corpus
    is far below 2^63 bytes. *)
Definition corpus_fits (cs pad : Z) (items : list (list Z)) : Prop :=
  0 < cs /\
  fits_long pad = true /\
  Forall (fun tokens => len tokens + 2 * cs < 2 ^ 31) items /\
  cs + len (concat items) + 2 * cs * len items < 2 ^ 54.

(** The running sums of a list, from [a]. *)
Fixpoint running (a : Z) (l : list Z) : list Z :=
  match l with
  | [] => []
  | x :: rest => (a + x) :: running (a + x) rest
  end.

(** What the accessors show of a document: the tokens and the alignment
    padding. *)
Definition stored_document (d : dtype) (cs pad : Z) (tokens : list Z)
  : list Z :=
  tokens ++ alignment_padding d cs pad tokens.

(** A list whose entries do not decrease with the position. *)
Definition nondecreasing (l : list Z) : Prop :=
  forall (i j : nat) (x y : Z),
    (i <= j)%nat -> nth_error l i = Some x -> nth_error l j = Some y -> x <= y.

(** The corpus of the concrete scenario: chunk size 4, 32-bit signed
    elements, documents [1,2,3,4,5] and [9,9] padded with 0. *)
Definition scenario_index_file : bytes :=
  index_image np_int32 4 false [8; 4] [0; 32] [0; 2] [0; 16; 32].

Definition scenario_index : Index.t := index_of np_int32 false 4 [8; 4].

Definition scenario_data_file : bytes :=
  tobytes np_int32 [1; 2; 3; 4; 5; 0; 0; 0; 9; 9; 0; 0].
(** ** Windows of an array *)

(** The window [offset, offset + count) of a list of elements; the parts
    outside the list are left out. *)
Definition window (l : list Z) (offset count : Z) : list Z :=
  firstn (Z.to_nat count) (skipn (Z.to_nat offset) l).

(** * Properties *)

(** ** Results *)

Lemma bind_Ok {A B : Type} (r : result A) (k : A -> result B) (b : B) :
  bind r k = Ok b -> exists a, r = Ok a /\ k a = Ok b.
Proof.
  destruct r as [a | e]; simpl; intros H; [eauto | discriminate].
Qed.

Lemma len_app {A : Type} (l1 l2 : list A) : len (l1 ++ l2) = len l1 + len l2.
Proof. unfold len. rewrite length_app. lia. Qed.

Lemma len_nonneg {A : Type} (l : list A) : 0 <= len l.
Proof. unfold len. lia. Qed.

Lemma len_map {A B : Type} (f : A -> B) (l : list A) : len (map f l) = len l.
Proof. unfold len. now rewrite length_map. Qed.

Lemma len_repeat {A : Type} (x : A) (n : nat) : len (repeat x n) = Z.of_nat n.
Proof. unfold len. now rewrite repeat_length. Qed.

(** ** Little-endian encoding *)

Lemma le_bytes_length (n : nat) (x : Z) : length (le_bytes n x) = n.
Proof.
  revert x. induction n as [| n IH]; intros x; simpl; [reflexivity |].
  now rewrite IH.
Qed.

Lemma le_value_le_bytes (n : nat) (x : Z) :
  le_value (le_bytes n x) = x mod 256 ^ Z.of_nat n.
Proof.
  revert x. induction n as [| n IH]; intros x.
  - simpl. now rewrite Z.mod_1_r.
  - cbn [le_bytes le_value]. rewrite IH.
    replace (Z.of_nat (S n)) with (Z.succ (Z.of_nat n)) by lia.
    rewrite Z.pow_succ_r by lia.
    assert (Hp : 0 < 256 ^ Z.of_nat n) by (apply Z.pow_pos_nonneg; lia).
    rewrite Z.rem_mul_r by lia. lia.
Qed.

Lemma le_bytes_valid (n : nat) (x : Z) :
  Forall (fun b => 0 <= b < 256) (le_bytes n x).
Proof.
  revert x. induction n as [| n IH]; intros x; simpl; constructor.
  - apply Z.mod_pos_bound. lia.
  - apply IH.
Qed.

(** ** Element types *)

Lemma itemsize_pos (d : dtype) : 0 < itemsize d.
Proof. destruct d; reflexivity. Qed.

Lemma itemsize_le_8 (d : dtype) : itemsize d <= 8.
Proof. destruct d; unfold itemsize; simpl; lia. Qed.

Lemma itemsize_nat_pos (d : dtype) : (0 < itemsize_nat d)%nat.
Proof. destruct d; simpl; lia. Qed.

Lemma pow_bits (d : dtype) : 256 ^ Z.of_nat (itemsize_nat d) = 2 ^ bits d.
Proof. destruct d; reflexivity. Qed.

Lemma in_rangeb_spec (d : dtype) (x : Z) :
  in_rangeb d x = true <-> in_range d x.
Proof.
  unfold in_rangeb, in_range. destruct (signed d);
    rewrite andb_true_iff, Z.leb_le, Z.ltb_lt; tauto.
Qed.

Lemma wrap_signed_id (w x : Z) :
  0 < w -> - 2 ^ (w - 1) <= x < 2 ^ (w - 1) -> wrap_signed w x = x.
Proof.
  intros Hw Hx. unfold wrap_signed.
  assert (H2 : 2 ^ w = 2 * 2 ^ (w - 1)).
  { replace w with (Z.succ (w - 1)) at 1 by lia. apply Z.pow_succ_r. lia. }
  rewrite Z.mod_small by lia. lia.
Qed.

Lemma wrap_signed_mod (w x : Z) :
  0 < w -> wrap_signed w (x mod 2 ^ w) = wrap_signed w x.
Proof.
  intros Hw. unfold wrap_signed.
  assert (Hp : 0 < 2 ^ w) by (apply Z.pow_pos_nonneg; lia).
  rewrite Z.add_mod_idemp_l by lia. reflexivity.
Qed.

Lemma wrap_signed_range (w x : Z) :
  0 < w -> - 2 ^ (w - 1) <= wrap_signed w x < 2 ^ (w - 1).
Proof.
  intros Hw. unfold wrap_signed.
  assert (H2 : 2 ^ w = 2 * 2 ^ (w - 1)).
  { replace w with (Z.succ (w - 1)) at 1 by lia. apply Z.pow_succ_r. lia. }
  assert (Hp : 0 < 2 ^ (w - 1)) by (apply Z.pow_pos_nonneg; lia).
  pose proof (Z.mod_pos_bound (x + 2 ^ (w - 1)) (2 ^ w)). lia.
Qed.

Lemma bits_pos (d : dtype) : 0 < bits d.
Proof. destruct d; reflexivity. Qed.

Lemma astype_in_range (d : dtype) (x : Z) : in_range d (astype d x).
Proof.
  unfold in_range, astype. destruct (signed d).
  - apply wrap_signed_range, bits_pos.
  - unfold wrap_unsigned. apply Z.mod_pos_bound.
    apply Z.pow_pos_nonneg; [lia | pose proof (bits_pos d); lia].
Qed.

Lemma astype_id (d : dtype) (x : Z) : in_range d x -> astype d x = x.
Proof.
  unfold in_range, astype. destruct (signed d); intros H.
  - apply wrap_signed_id; [apply bits_pos | exact H].
  - unfold wrap_unsigned. apply Z.mod_small. exact H.
Qed.

Lemma astype_idem (d : dtype) (x : Z) : astype d (astype d x) = astype d x.
Proof. apply astype_id, astype_in_range. Qed.

Lemma astype_mod (d : dtype) (x : Z) :
  astype d (x mod 2 ^ bits d) = astype d x.
Proof.
  unfold astype. destruct (signed d).
  - apply wrap_signed_mod, bits_pos.
  - unfold wrap_unsigned. apply Z.mod_mod.
    apply Z.pow_nonzero; [lia | pose proof (bits_pos d); lia].
Qed.

(** An element written and read back is the element converted to the
    type. *)
Lemma astype_le_bytes (d : dtype) (x : Z) :
  astype d (le_value (le_bytes (itemsize_nat d) x)) = astype d x.
Proof. rewrite le_value_le_bytes, pow_bits. apply astype_mod. Qed.

Lemma map_astype_id (d : dtype) (l : list Z) :
  Forall (in_range d) l -> map (astype d) l = l.
Proof.
  induction 1 as [| x l Hx _ IH]; simpl; [reflexivity |].
  now rewrite astype_id, IH.
Qed.

(** ** Arrays and buffers *)

Lemma tobytes_app (d : dtype) (a b : list Z) :
  tobytes d (a ++ b) = tobytes d a ++ tobytes d b.
Proof. unfold tobytes. apply flat_map_app. Qed.

Lemma tobytes_length (d : dtype) (a : list Z) :
  length (tobytes d a) = (itemsize_nat d * length a)%nat.
Proof.
  unfold tobytes. induction a as [| x a IH]; simpl; [lia |].
  rewrite length_app, le_bytes_length, IH. lia.
Qed.

Lemma len_tobytes (d : dtype) (a : list Z) :
  len (tobytes d a) = itemsize d * len a.
Proof. unfold len, itemsize. rewrite tobytes_length. lia. Qed.

Lemma tobytes_valid (d : dtype) (a : list Z) :
  Forall (fun b => 0 <= b < 256) (tobytes d a).
Proof.
  unfold tobytes. induction a as [| x a IH]; simpl; [constructor |].
  apply Forall_app. split; [apply le_bytes_valid | exact IH].
Qed.

Lemma tobytes_map_astype (d : dtype) (a : list Z) :
  tobytes d (map (astype d) a) = tobytes d a.
Proof.
  unfold tobytes. induction a as [| x a IH]; simpl; [reflexivity |].
  rewrite IH. f_equal.
  (* the bytes of a value only depend on it modulo 2 ^ bits *)
  assert (H : forall n y z, y mod 256 ^ Z.of_nat n = z mod 256 ^ Z.of_nat n ->
                            le_bytes n y = le_bytes n z).
  { clear. induction n as [| n IH]; intros y z Hyz; [reflexivity |].
    replace (Z.of_nat (S n)) with (Z.succ (Z.of_nat n)) in Hyz by lia.
    rewrite Z.pow_succ_r in Hyz by lia.
    assert (Hp : 0 < 256 ^ Z.of_nat n) by (apply Z.pow_pos_nonneg; lia).
    rewrite 2 Z.rem_mul_r in Hyz by lia.
    pose proof (Z.mod_pos_bound y 256). pose proof (Z.mod_pos_bound z 256).
    pose proof (Z.mod_pos_bound (y / 256) (256 ^ Z.of_nat n)).
    pose proof (Z.mod_pos_bound (z / 256) (256 ^ Z.of_nat n)).
    assert (y mod 256 = z mod 256 /\
            (y / 256) mod 256 ^ Z.of_nat n = (z / 256) mod 256 ^ Z.of_nat n)
      as [H3 H4] by lia.
    simpl. rewrite H3. f_equal. now apply IH. }
  apply H. rewrite pow_bits.
  unfold astype. destruct (signed d).
  - unfold wrap_signed.
    assert (Hp : 0 < 2 ^ bits d)
      by (apply Z.pow_pos_nonneg; [lia | pose proof (bits_pos d); lia]).
    assert (H2 : 2 ^ bits d = 2 * 2 ^ (bits d - 1)).
    { replace (bits d) with (Z.succ (bits d - 1)) at 1 by lia.
      apply Z.pow_succ_r. pose proof (bits_pos d). lia. }
    rewrite <- Zminus_mod_idemp_l, Z.mod_mod by lia.
    rewrite Zminus_mod_idemp_l. f_equal. lia.
  - unfold wrap_unsigned. apply Z.mod_mod.
    apply Z.pow_nonzero; [lia | pose proof (bits_pos d); lia].
Qed.


Lemma decode_tobytes (d : dtype) (a : list Z) (rest : bytes) :
  decode_elems d (length a) (tobytes d a ++ rest) = map (astype d) a.
Proof.
  unfold tobytes. induction a as [| x a IH]; simpl; [reflexivity |].
  rewrite <- app_assoc.
  rewrite firstn_app, le_bytes_length, Nat.sub_diag, firstn_O, app_nil_r.
  rewrite firstn_all2 by (rewrite le_bytes_length; lia).
  rewrite skipn_app, le_bytes_length, Nat.sub_diag, skipn_O.
  rewrite skipn_all2 by (rewrite le_bytes_length; lia).
  simpl. rewrite astype_le_bytes. f_equal. exact IH.
Qed.

(** ** The index writer *)

Lemma starts_length (a : Z) (spans : list Z) :
  length (starts a spans) = length spans.
Proof.
  revert a. induction spans as [| s spans IH]; intros a; simpl; [reflexivity |].
  now rewrite IH.
Qed.

Lemma starts_app (a : Z) (l1 l2 : list Z) :
  starts a (l1 ++ l2) = starts a l1 ++ starts (a + total l1) l2.
Proof.
  revert a. induction l1 as [| s l1 IH]; intros a; simpl.
  - now rewrite Z.add_0_r.
  - rewrite IH. do 3 f_equal. lia.
Qed.

Lemma total_app (l1 l2 : list Z) : total (l1 ++ l2) = total l1 + total l2.
Proof.
  induction l1 as [| s l1 IH]; simpl; [reflexivity |].
  rewrite IH. lia.
Qed.

Lemma starts_nth_succ (a : Z) (spans : list Z) (i : nat) (s : Z) :
  nth_error spans i = Some s ->
  (S i < length spans)%nat ->
  exists p, nth_error (starts a spans) i = Some p /\
            nth_error (starts a spans) (S i) = Some (p + s).
Proof.
  revert a i. induction spans as [| s0 spans IH]; intros a i Hi Hlt.
  - destruct i; discriminate.
  - destruct i as [| i].
    + injection Hi as ->. destruct spans as [| s1 spans]; simpl in *; [lia |].
      eauto.
    + simpl in Hi, Hlt. destruct (IH (a + s0) i Hi ltac:(lia)) as (p & H1 & H2).
      exists p. simpl. auto.
Qed.

Lemma get_pointers_loop_spec (rdb : bool) (ds cs : Z) (sizes : list Z)
    (a : Z) (acc : list Z) :
  Writer._get_pointers_loop rdb ds cs sizes a acc
  = acc ++ starts a
             (map (fun size => size * ds + (if rdb then cs * ds else 0)) sizes).
Proof.
  revert a acc. induction sizes as [| size sizes IH]; intros a acc; simpl.
  - now rewrite app_nil_r.
  - rewrite IH, <- app_assoc. simpl. do 3 f_equal.
    destruct rdb; lia.
Qed.

Lemma get_pointers_spec (d : dtype) (rdb : bool) (sizes : list Z) (cs : Z) :
  Writer._get_pointers d rdb sizes cs
  = starts 0 (map (doc_span d rdb cs) sizes).
Proof.
  unfold Writer._get_pointers. now rewrite get_pointers_loop_spec.
Qed.

(** C3: the first pointer is 0, and each next pointer is the previous one
    plus the byte span of the previous document: [sizes[i] * dtype_size],
    and in retrieval-db mode [chunk_size * dtype_size] more. *)
Theorem pointer_layout (d : dtype) (rdb : bool) (sizes : list Z) (cs : Z) :
  length (Writer._get_pointers d rdb sizes cs) = length sizes /\
  (sizes <> [] -> nth_error (Writer._get_pointers d rdb sizes cs) 0 = Some 0) /\
  (forall (i : nat) (size : Z),
      nth_error sizes i = Some size ->
      (S i < length sizes)%nat ->
      exists p p',
        nth_error (Writer._get_pointers d rdb sizes cs) i = Some p /\
        nth_error (Writer._get_pointers d rdb sizes cs) (S i) = Some p' /\
        p' - p = if rdb
                 then size * itemsize d + cs * itemsize d
                 else size * itemsize d).
Proof.
  rewrite get_pointers_spec. split; [| split].
  - now rewrite starts_length, length_map.
  - destruct sizes; [congruence | reflexivity].
  - intros i size Hi Hlt.
    destruct (starts_nth_succ 0 (map (doc_span d rdb cs) sizes) i
                (doc_span d rdb cs size)) as (p & H1 & H2).
    + now rewrite nth_error_map, Hi.
    + now rewrite length_map.
    + exists p, (p + doc_span d rdb cs size). repeat split; trivial.
      unfold doc_span. destruct rdb; lia.
Qed.

Lemma pointer_layout_witness :
  nth_error (Writer._get_pointers np_int32 true [8; 4; 12] 4) 0 = Some 0 /\
  exists p p',
    nth_error (Writer._get_pointers np_int32 true [8; 4; 12] 4) 1 = Some p /\
    nth_error (Writer._get_pointers np_int32 true [8; 4; 12] 4) 2 = Some p' /\
    p' - p = 4 * 4 + 4 * 4.
Proof.
  destruct (pointer_layout np_int32 true [8; 4; 12] 4) as (_ & H0 & Hs).
  split.
  - apply H0. discriminate.
  - apply (Hs 1%nat 4); [reflexivity | simpl; lia].
Defined.

(** *** Chunk ids and addresses *)

Lemma chunk_loop_spec (ds cs : Z) (n : nat) (a : Z) (acc : list Z) :
  Writer.chunk_loop ds cs n a acc
  = (a + Z.of_nat n * (cs * ds),
     acc ++ map (fun k => a + Z.of_nat k * (cs * ds)) (seq 0 n)).
Proof.
  revert a acc. induction n as [| n IH]; intros a acc.
  - simpl. now rewrite Z.add_0_r, app_nil_r.
  - cbn [Writer.chunk_loop]. rewrite IH, <- app_assoc.
    f_equal; [lia |]. f_equal. cbn [seq map app]. f_equal; [lia |].
    rewrite <- seq_shift, map_map. apply map_ext. intros k. lia.
Qed.

(** A size that is no multiple of the chunk size stops the loop with a
    [ValueError], whatever was accumulated. *)
Lemma chunk_id_loop_misaligned (rdb : bool) (ds cs : Z) (sizes : list Z) :
  cs <> 0 ->
  Exists (fun size => size mod cs <> 0) sizes ->
  forall ids last a acc,
    Writer._get_chunk_id_and_address_loop rdb ds cs sizes ids last a acc
    = Raise ValueError.
Proof.
  intros Hcs Hex. induction sizes as [| size sizes IH]; intros ids last a acc.
  - inversion Hex.
  - cbn [Writer._get_chunk_id_and_address_loop].
    destruct (Z.eqb_spec cs 0) as [-> | _]; [congruence |].
    destruct (Z.eqb_spec (size mod cs) 0) as [Hm | Hm]; simpl; [| reflexivity].
    rewrite chunk_loop_spec. apply IH.
    inversion Hex; subst; [contradiction | assumption].
Qed.

Lemma chunk_id_loop_aligned (d : dtype) (rdb : bool) (cs : Z)
    (sizes : list Z) :
  0 < cs ->
  Forall (fun size => 0 <= size /\ size mod cs = 0) sizes ->
  forall ids last a acc,
    Writer._get_chunk_id_and_address_loop rdb (itemsize d) cs sizes
      ids last a acc
    = Ok (ids ++ starts last (map (fun size => size / cs) sizes),
          acc ++ chunk_addresses d rdb cs a sizes).
Proof.
  intros Hcs Hall. induction Hall as [| size sizes [Hge Hm] _ IH];
    intros ids last a acc.
  - simpl. now rewrite !app_nil_r.
  - cbn [Writer._get_chunk_id_and_address_loop].
    destruct (Z.eqb_spec cs 0) as [-> | _]; [lia |].
    rewrite Hm. simpl negb. cbv iota.
    rewrite chunk_loop_spec, IH, <- !app_assoc. simpl.
    do 2 f_equal. f_equal. unfold chunk_run. f_equal.
    f_equal. unfold doc_span.
    rewrite Z2Nat.id by (apply Z.div_pos; lia).
    assert (Hs : size = cs * (size / cs)) by (apply Z.div_exact; lia).
    destruct rdb; nia.
Qed.

(** With a non-zero chunk size the loop succeeds on sizes that are all
    multiples of it, without any assumption on their sign. *)
Lemma chunk_id_loop_succeeds (rdb : bool) (ds cs : Z) (sizes : list Z) :
  cs <> 0 ->
  Forall (fun size => size mod cs = 0) sizes ->
  forall ids last a acc,
    exists ids' acc',
      Writer._get_chunk_id_and_address_loop rdb ds cs sizes ids last a acc
      = Ok (ids', acc') /\
      length ids' = (length ids + length sizes)%nat.
Proof.
  intros Hcs Hall. induction Hall as [| size sizes Hm _ IH];
    intros ids last a acc.
  - simpl. exists ids, acc. split; [reflexivity | lia].
  - cbn [Writer._get_chunk_id_and_address_loop].
    destruct (Z.eqb_spec cs 0) as [-> | _]; [congruence |].
    rewrite Hm. simpl negb. cbv iota. rewrite chunk_loop_spec.
    destruct (IH (ids ++ [last]) (last + size / cs)
                (if rdb
                 then a + Z.of_nat (Z.to_nat (size / cs)) * (cs * ds) + cs * ds
                 else a + Z.of_nat (Z.to_nat (size / cs)) * (cs * ds))
                (acc ++ map (fun k => a + Z.of_nat k * (cs * ds))
                        (seq 0 (Z.to_nat (size / cs)))))
      as (ids' & acc' & Heq & Hlen).
    exists ids', acc'. split; [exact Heq |].
    rewrite Hlen, length_app. simpl. lia.
Qed.





(** ** The index file *)

Lemma frombuffer_at (buf pre post : bytes) (d : dtype) (xs : list Z)
    (count offset : Z) :
  buf = pre ++ tobytes d xs ++ post ->
  offset = len pre ->
  count = len xs ->
  len buf < 2 ^ 63 ->
  frombuffer buf d count offset = Ok (map (astype d) xs).
Proof.
  intros -> -> -> Hbuf. unfold frombuffer.
  rewrite !len_app, len_tobytes in *.
  pose proof (len_nonneg pre). pose proof (len_nonneg xs).
  pose proof (len_nonneg post). pose proof (itemsize_pos d).
  assert (Hx : len xs <= itemsize d * len xs) by nia.
  unfold fits_long.
  replace (- 2 ^ 63 <=? len xs) with true by (symmetry; apply Z.leb_le; lia).
  replace (len xs <? 2 ^ 63) with true by (symmetry; apply Z.ltb_lt; lia).
  replace (- 2 ^ 63 <=? len pre) with true by (symmetry; apply Z.leb_le; lia).
  replace (len pre <? 2 ^ 63) with true by (symmetry; apply Z.ltb_lt; lia).
  simpl.
  replace (len pre <? 0) with false by (symmetry; apply Z.ltb_ge; lia).
  replace (len pre + (itemsize d * len xs + len post) <? len pre) with false
    by (symmetry; apply Z.ltb_ge; lia).
  simpl.
  replace (len xs <? 0) with false by (symmetry; apply Z.ltb_ge; lia).
  replace (len pre + (itemsize d * len xs + len post) - len pre
           <? len xs * itemsize d) with false
    by (symmetry; apply Z.ltb_ge; lia).
  f_equal. unfold len. rewrite !Nat2Z.id.
  rewrite skipn_app, Nat.sub_diag, skipn_O, skipn_all2 by lia.
  simpl. apply decode_tobytes.
Qed.

Lemma pack_Q_ok (v : Z) : 0 <= v < 2 ^ 64 -> pack_Q v = Ok (le_bytes 8 v).
Proof.
  intros H. unfold pack_Q.
  replace (0 <=? v) with true by (symmetry; apply Z.leb_le; lia).
  replace (v <? 2 ^ 64) with true by (symmetry; apply Z.ltb_lt; lia).
  reflexivity.
Qed.

Lemma unpack_Q_le_bytes (v : Z) :
  0 <= v < 2 ^ 64 -> unpack_Q (le_bytes 8 v) = Ok v.
Proof.
  intros H. unfold unpack_Q. rewrite le_bytes_length. simpl Nat.eqb. cbv iota.
  rewrite le_value_le_bytes. f_equal. apply Z.mod_small.
  change (256 ^ Z.of_nat 8) with (2 ^ 64). lia.
Qed.

Lemma unpack_B_le_bytes (v : Z) :
  0 <= v < 256 -> unpack_B (le_bytes 1 v) = Ok v.
Proof.
  intros H. unfold unpack_B. rewrite le_bytes_length. simpl Nat.eqb. cbv iota.
  rewrite le_value_le_bytes. f_equal. apply Z.mod_small.
  change (256 ^ Z.of_nat 1) with 256. lia.
Qed.

Lemma code_range (d : dtype) : 0 <= code d < 256.
Proof. destruct d; simpl; lia. Qed.

Lemma dtypes_code (d : dtype) : dtypes (code d) = Ok (Integer d).
Proof. destruct d; reflexivity. Qed.

(** No other key of the table holds the type: the search of [code] can
    only stop at [code d]. *)
Lemma dtypes_key (k : Z) (d : dtype) :
  dtypes k = Ok (Integer d) -> k = code d.
Proof.
  intros Hk. unfold dtypes in Hk.
  repeat match type of Hk with
         | context [match ?x with _ => _ end] => destruct x; try discriminate
         end;
    injection Hk as <-; reflexivity.
Qed.

Lemma np_array_ok (d : dtype) (l : list Z) :
  Forall (in_range d) l -> np_array d l = Ok l.
Proof.
  intros H. unfold np_array.
  assert (Hf : forallb fits_long l = true).
  { apply forallb_forall. intros x Hx.
    rewrite Forall_forall in H. specialize (H x Hx).
    unfold fits_long. apply andb_true_iff. rewrite Z.leb_le, Z.ltb_lt.
    destruct d; unfold in_range in H; simpl in H; lia. }
  rewrite Hf. f_equal. now apply map_astype_id.
Qed.

Lemma index_header_length (d : dtype) (n cs nc : Z) (rdb : bool) :
  length (index_header d n cs nc rdb) = 43%nat.
Proof. reflexivity. Qed.

(** What [write] leaves in the file when nothing overflows. *)
Lemma write_image (d : dtype) (rdb : bool) (sizes : list Z) (cs : Z)
    (chunk_ids chunk_address : list Z) :
  Writer._get_chunk_id_and_address d rdb sizes cs
    = Ok (chunk_ids, chunk_address) ->
  len sizes < 2 ^ 64 -> 0 <= cs < 2 ^ 64 -> len chunk_address < 2 ^ 64 ->
  Forall (in_range np_int32) sizes ->
  Forall (in_range np_int64) (Writer._get_pointers d rdb sizes cs) ->
  Forall (in_range np_int64) chunk_ids ->
  Forall (in_range np_int64) chunk_address ->
  (_ <~ Writer.__enter__ d ;; Writer.write d rdb sizes cs) []
  = (index_image d cs rdb sizes (Writer._get_pointers d rdb sizes cs)
       chunk_ids chunk_address, Ok tt).
Proof.
  intros Hc Hn Hcs Hnc Hs Hp Hi Ha.
  unfold Writer.__enter__, Writer.write, io_bind, io_lift, file_write.
  rewrite Hc.
  rewrite (pack_Q_ok 1) by lia.
  assert (Hcode : pack_B (code d) = Ok (le_bytes 1 (code d)))
    by (destruct d; reflexivity).
  rewrite Hcode.
  rewrite (pack_Q_ok (len sizes)) by (pose proof (len_nonneg sizes); lia).
  rewrite (pack_Q_ok cs) by lia.
  rewrite (pack_Q_ok (len chunk_address))
    by (pose proof (len_nonneg chunk_address); lia).
  assert (Hb : pack_B (Z.b2z rdb) = Ok (le_bytes 1 (Z.b2z rdb)))
    by (destruct rdb; reflexivity).
  rewrite Hb.
  rewrite !np_array_ok by assumption.
  unfold index_image, index_header. rewrite <- !app_assoc. reflexivity.
Qed.

(** Opening an index file that holds arrays of matching lengths gives these
    arrays back. *)
Lemma init_image (d : dtype) (cs : Z) (rdb : bool)
    (sizes pointers chunk_ids chunk_address : list Z) :
  0 <= cs < 2 ^ 64 ->
  length pointers = length sizes ->
  length chunk_ids = length sizes ->
  len (index_image d cs rdb sizes pointers chunk_ids chunk_address) < 2 ^ 63 ->
  Index.__init__ (index_image d cs rdb sizes pointers chunk_ids chunk_address)
  = Ok (Index.mk d (itemsize d) (len sizes) cs (len chunk_address) rdb
          (map (astype np_int32) sizes) (map (astype np_int64) pointers)
          (map (astype np_int64) chunk_ids)
          (map (astype np_int64) chunk_address)).
Proof.
  intros Hcs Hlp Hli Hlen.
  set (file := index_image d cs rdb sizes pointers chunk_ids chunk_address)
    in *.
  assert (Hn : 0 <= len sizes < 2 ^ 64).
  { pose proof (len_nonneg sizes). split; [lia |].
    unfold file, index_image in Hlen. rewrite !len_app, len_tobytes in Hlen.
    pose proof (len_nonneg (index_header d (len sizes) cs
                              (len chunk_address) rdb)).
    pose proof (len_nonneg (tobytes np_int64 pointers)).
    pose proof (len_nonneg (tobytes np_int64 chunk_ids)).
    pose proof (len_nonneg (tobytes np_int64 chunk_address)).
    change (itemsize np_int32) with 4 in Hlen. lia. }
  assert (Hnc : 0 <= len chunk_address < 2 ^ 64).
  { pose proof (len_nonneg chunk_address). split; [lia |].
    unfold file, index_image in Hlen. rewrite !len_app, !len_tobytes in Hlen.
    pose proof (len_nonneg (index_header d (len sizes) cs
                              (len chunk_address) rdb)).
    pose proof (len_nonneg sizes). pose proof (len_nonneg pointers).
    pose proof (len_nonneg chunk_ids).
    change (itemsize np_int32) with 4 in Hlen.
    change (itemsize np_int64) with 8 in Hlen. lia. }
  unfold Index.__init__.
  (* the header fields, one read after the other *)
  change (Index.stream_read file 0 9) with (_HDR_MAGIC, 9%nat).
  cbv beta iota.
  change (Index.bytes_eqb _HDR_MAGIC _HDR_MAGIC) with true.
  cbn [assert bind].
  change (Index.stream_read file 9 8) with (le_bytes 8 1, 17%nat).
  cbv beta iota.
  rewrite (unpack_Q_le_bytes 1) by lia. cbn [bind].
  change (1 =? 1) with true. cbn [assert bind].
  change (Index.stream_read file 17 1) with (le_bytes 1 (code d), 18%nat).
  cbv beta iota.
  rewrite unpack_B_le_bytes by apply code_range. cbn [bind].
  rewrite dtypes_code. cbn [bind element_type].
  change (Index.stream_read file 18 8) with (le_bytes 8 (len sizes), 26%nat).
  cbv beta iota.
  rewrite unpack_Q_le_bytes by exact Hn. cbn [bind].
  change (Index.stream_read file 26 8) with (le_bytes 8 cs, 34%nat).
  cbv beta iota.
  rewrite unpack_Q_le_bytes by exact Hcs. cbn [bind].
  change (Index.stream_read file 34 8)
    with (le_bytes 8 (len chunk_address), 42%nat).
  cbv beta iota.
  rewrite unpack_Q_le_bytes by exact Hnc. cbn [bind].
  change (Index.stream_read file 42 1) with (le_bytes 1 (Z.b2z rdb), 43%nat).
  cbv beta iota.
  rewrite unpack_B_le_bytes by (destruct rdb; simpl; lia). cbn [bind].
  change (np_memmap file) with (Ok file). cbn [bind].
  (* the four arrays *)
  set (hdr := index_header d (len sizes) cs (len chunk_address) rdb).
  assert (Hhdr : len hdr = 43) by reflexivity.
  rewrite (frombuffer_at file hdr
             (tobytes np_int64 pointers ++ tobytes np_int64 chunk_ids
                ++ tobytes np_int64 chunk_address) np_int32 sizes);
    [| reflexivity | now rewrite Hhdr | reflexivity | exact Hlen].
  cbn [bind]. rewrite len_map.
  rewrite (frombuffer_at file (hdr ++ tobytes np_int32 sizes)
             (tobytes np_int64 chunk_ids ++ tobytes np_int64 chunk_address)
             np_int64 pointers);
    [| unfold file, index_image; fold hdr; now rewrite <- !app_assoc
     | rewrite len_app, len_tobytes, Hhdr; lia
     | unfold len; now rewrite Hlp
     | exact Hlen].
  cbn [bind]. rewrite len_map.
  rewrite (frombuffer_at file
             (hdr ++ tobytes np_int32 sizes ++ tobytes np_int64 pointers)
             (tobytes np_int64 chunk_address) np_int64 chunk_ids);
    [| unfold file, index_image; fold hdr; now rewrite <- !app_assoc
     | rewrite !len_app, !len_tobytes, Hhdr; unfold len; rewrite Hlp; lia
     | unfold len; now rewrite Hli
     | exact Hlen].
  cbn [bind]. rewrite len_map.
  rewrite (frombuffer_at file
             (hdr ++ tobytes np_int32 sizes ++ tobytes np_int64 pointers
                ++ tobytes np_int64 chunk_ids)
             [] np_int64 chunk_address);
    [| unfold file, index_image; fold hdr; now rewrite <- !app_assoc, app_nil_r
     | rewrite !len_app, !len_tobytes, Hhdr; unfold len; rewrite Hlp, Hli; lia
     | reflexivity
     | exact Hlen].
  cbn [bind]. do 2 f_equal. destruct rdb; reflexivity.
Qed.

(** *** Bounds on the arrays *)

Lemma total_nonneg (spans : list Z) :
  Forall (fun s => 0 <= s) spans -> 0 <= total spans.
Proof. induction 1; simpl; lia. Qed.

Lemma starts_bounds (a : Z) (spans : list Z) :
  Forall (fun s => 0 <= s) spans ->
  Forall (fun p => a <= p <= a + total spans) (starts a spans).
Proof.
  intros H. revert a. induction H as [| s spans Hs Hall IH]; intros a; simpl.
  - constructor.
  - pose proof (total_nonneg spans Hall). constructor; [lia |].
    eapply Forall_impl; [| apply IH]. simpl. intros p Hp. lia.
Qed.

Lemma doc_span_nonneg (d : dtype) (rdb : bool) (cs size : Z) :
  0 < cs -> 0 <= size -> 0 <= doc_span d rdb cs size.
Proof.
  intros Hcs Hs. unfold doc_span. pose proof (itemsize_pos d).
  destruct rdb; nia.
Qed.

Lemma spans_nonneg (d : dtype) (rdb : bool) (cs : Z) (sizes : list Z) :
  0 < cs ->
  Forall (fun size => 0 <= size < 2 ^ 31 /\ size mod cs = 0) sizes ->
  Forall (fun s => 0 <= s) (map (doc_span d rdb cs) sizes).
Proof.
  intros Hcs H. apply Forall_map. eapply Forall_impl; [| exact H].
  simpl. intros size [Hs _]. apply doc_span_nonneg; lia.
Qed.

Lemma quotients_nonneg (cs : Z) (sizes : list Z) :
  0 < cs ->
  Forall (fun size => 0 <= size < 2 ^ 31 /\ size mod cs = 0) sizes ->
  Forall (fun s => 0 <= s) (map (fun size => size / cs) sizes).
Proof.
  intros Hcs H. apply Forall_map. eapply Forall_impl; [| exact H].
  simpl. intros size [Hs _]. apply Z.div_pos; lia.
Qed.

Lemma chunk_run_length (d : dtype) (cs a : Z) (n : nat) :
  length (chunk_run d cs a n) = n.
Proof. unfold chunk_run. now rewrite length_map, length_seq. Qed.

Lemma chunk_addresses_length (d : dtype) (rdb : bool) (cs a : Z)
    (sizes : list Z) :
  0 < cs ->
  Forall (fun size => 0 <= size < 2 ^ 31 /\ size mod cs = 0) sizes ->
  len (chunk_addresses d rdb cs a sizes)
  = total (map (fun size => size / cs) sizes).
Proof.
  intros Hcs H. revert a. induction H as [| size sizes [Hs _] _ IH];
    intros a; simpl; [reflexivity |].
  rewrite len_app, IH. unfold len. rewrite chunk_run_length.
  rewrite Z2Nat.id by (apply Z.div_pos; lia). reflexivity.
Qed.

(** Every chunk lies inside the span of the documents: it starts at or
    after [a] and its [cs] elements end before the end of the last
    document's data. *)
Lemma chunk_addresses_bounds (d : dtype) (rdb : bool) (cs a : Z)
    (sizes : list Z) :
  0 < cs ->
  Forall (fun size => 0 <= size < 2 ^ 31 /\ size mod cs = 0) sizes ->
  Forall (fun x => a <= x /\
                   x + cs * itemsize d + (if rdb then cs * itemsize d else 0)
                   <= a + total (map (doc_span d rdb cs) sizes))
         (chunk_addresses d rdb cs a sizes).
Proof.
  intros Hcs H. revert a.
  induction H as [| size sizes [Hs Hm] Hall IH]; intros a; simpl.
  - constructor.
  - pose proof (itemsize_pos d) as Hd.
    pose proof (total_nonneg _ (spans_nonneg d rdb cs sizes Hcs Hall)) as Ht.
    pose proof (doc_span_nonneg d rdb cs size Hcs ltac:(lia)) as Hsp.
    apply Forall_app. split.
    + unfold chunk_run. apply Forall_map, Forall_forall. intros k Hk.
      apply in_seq in Hk.
      assert (Hq : 0 <= size / cs) by (apply Z.div_pos; lia).
      assert (Hsz : size = cs * (size / cs)) by (apply Z.div_exact; lia).
      assert (Hk' : Z.of_nat k + 1 <= size / cs) by lia.
      unfold doc_span in *. split; [nia |].
      destruct rdb; nia.
    + eapply Forall_impl; [| apply IH]. simpl. intros x [Hx1 Hx2].
      split; lia.
Qed.

Lemma total_quotients_le (d : dtype) (rdb : bool) (cs : Z) (sizes : list Z) :
  0 < cs ->
  Forall (fun size => 0 <= size < 2 ^ 31 /\ size mod cs = 0) sizes ->
  total (map (fun size => size / cs) sizes)
  <= total (map (doc_span d rdb cs) sizes).
Proof.
  intros Hcs H. induction H as [| size sizes [Hs Hm] _ IH]; simpl; [lia |].
  pose proof (itemsize_pos d) as Hd.
  assert (Hq : 0 <= size / cs) by (apply Z.div_pos; lia).
  assert (Hsz : size = cs * (size / cs)) by (apply Z.div_exact; lia).
  assert (size / cs <= doc_span d rdb cs size).
  { unfold doc_span. destruct rdb; nia. }
  lia.
Qed.

Lemma in_range_int64 (x : Z) : 0 <= x < 2 ^ 63 -> in_range np_int64 x.
Proof. unfold in_range. simpl. lia. Qed.

Lemma in_range_int32 (x : Z) : 0 <= x < 2 ^ 31 -> in_range np_int32 x.
Proof. unfold in_range. simpl. lia. Qed.

(** The writer succeeds on sizes that fit the format, and a reader that
    opens the file it wrote holds the arrays as they were computed. *)
Lemma index_written (d : dtype) (rdb : bool) (cs : Z) (sizes : list Z) :
  index_fits d rdb cs sizes ->
  exists file,
    (_ <~ Writer.__enter__ d ;; Writer.write d rdb sizes cs) [] = (file, Ok tt) /\
    Index.__init__ file = Ok (index_of d rdb cs sizes).
Proof.
  intros (Hcs & Hall & Hb).
  pose proof (len_nonneg sizes) as Hn.
  pose proof (total_nonneg _ (spans_nonneg d rdb cs sizes Hcs Hall)) as Ht.
  pose proof (total_quotients_le d rdb cs sizes Hcs Hall) as Hq.
  pose proof (total_nonneg _ (quotients_nonneg cs sizes Hcs Hall)) as Hq0.
  pose proof (chunk_addresses_length d rdb cs 0 sizes Hcs Hall) as Hlen.
  assert (Hc : Writer._get_chunk_id_and_address d rdb sizes cs
               = Ok (starts 0 (map (fun size => size / cs) sizes),
                     chunk_addresses d rdb cs 0 sizes)).
  { unfold Writer._get_chunk_id_and_address.
    rewrite (chunk_id_loop_aligned d rdb cs sizes Hcs); [reflexivity |].
    eapply Forall_impl; [| exact Hall]. simpl. intros s Hs. lia. }
  assert (Hs32 : Forall (in_range np_int32) sizes).
  { eapply Forall_impl; [| exact Hall]. simpl. intros s Hs.
    apply in_range_int32. lia. }
  assert (Hp64 : Forall (in_range np_int64)
                   (starts 0 (map (doc_span d rdb cs) sizes))).
  { eapply Forall_impl;
      [| apply starts_bounds, (spans_nonneg d rdb cs sizes Hcs Hall)].
    simpl. intros p Hp. apply in_range_int64. lia. }
  assert (Hi64 : Forall (in_range np_int64)
                   (starts 0 (map (fun size => size / cs) sizes))).
  { eapply Forall_impl;
      [| apply starts_bounds, (quotients_nonneg cs sizes Hcs Hall)].
    simpl. intros p Hp. apply in_range_int64. lia. }
  assert (Ha64 : Forall (in_range np_int64) (chunk_addresses d rdb cs 0 sizes)).
  { eapply Forall_impl;
      [| apply (chunk_addresses_bounds d rdb cs 0 sizes Hcs Hall)].
    simpl. intros x [Hx1 Hx2]. apply in_range_int64.
    pose proof (itemsize_pos d). destruct rdb; nia. }
  eexists. split.
  - apply write_image with (1 := Hc); try assumption; try lia.
    now rewrite get_pointers_spec.
  - rewrite get_pointers_spec, init_image.
    + unfold index_of. rewrite !map_astype_id by assumption. reflexivity.
    + lia.
    + now rewrite starts_length, length_map.
    + now rewrite starts_length, length_map.
    + unfold index_image. rewrite !len_app, !len_tobytes.
      change (len (index_header d (len sizes) cs
                     (len (chunk_addresses d rdb cs 0 sizes)) rdb)) with 43.
      unfold len at 2 3. rewrite !starts_length, !length_map.
      fold (len sizes). change (itemsize np_int32) with 4.
      change (itemsize np_int64) with 8. lia.
Qed.

(** ** Lookups in an opened index *)

Lemma getitem_nonneg {A : Type} (l : list A) (i : Z) (x : A) :
  0 <= i -> nth_error l (Z.to_nat i) = Some x -> getitem l i = Ok x.
Proof.
  intros Hi Hx. unfold getitem. cbv zeta.
  destruct (Z.ltb_spec i 0) as [Hneg | _]; [lia |].
  destruct (Z.ltb_spec i 0) as [Hneg | _]; [lia |].
  now rewrite Hx.
Qed.


Lemma getitem_out_of_range {A : Type} (l : list A) (i : Z) :
  i < - len l \/ len l <= i -> getitem l i = Raise IndexError.
Proof.
  intros Hi. unfold getitem. cbv zeta. pose proof (len_nonneg l) as Hl.
  destruct (Z.ltb_spec i 0) as [Hneg | Hpos].
  - destruct (Z.ltb_spec (i + len l) 0) as [_ | Hge]; [reflexivity | lia].
  - destruct (Z.ltb_spec i 0) as [Hneg | _]; [lia |].
    assert (Hn : nth_error l (Z.to_nat i) = None).
    { apply nth_error_None. unfold len in Hi. lia. }
    now rewrite Hn.
Qed.

Lemma starts_nth (a : Z) (spans : list Z) (i : nat) :
  (i < length spans)%nat ->
  nth_error (starts a spans) i = Some (a + total (firstn i spans)).
Proof.
  revert a i. induction spans as [| s spans IH]; intros a i Hi; simpl in Hi.
  - lia.
  - destruct i as [| i]; simpl.
    + f_equal. lia.
    + rewrite IH by lia. f_equal. lia.
Qed.

Lemma total_firstn_le (spans : list Z) (i : nat) :
  Forall (fun s => 0 <= s) spans ->
  0 <= total (firstn i spans) <= total spans.
Proof.
  intros H. revert i. induction H as [| s spans Hs Hall IH]; intros i.
  - destruct i; simpl; lia.
  - destruct i as [| i]; simpl.
    + pose proof (total_nonneg spans Hall). lia.
    + specialize (IH i). lia.
Qed.

(** The number of chunks of the documents before document [i]. *)
Lemma chunks_before_firstn (cs : Z) (sizes : list Z) (i : nat) :
  total (firstn i (map (fun size => size / cs) sizes))
  = total (map (fun size => size / cs) (firstn i sizes)).
Proof. now rewrite firstn_map. Qed.

(** C7: in an index written for [sizes], [get_chunk_id(document_id, offset)]
    for a document in range and an offset [k * chunk_size] returns the
    number of chunks of the documents before [document_id] (which is
    [chunk_id_start[document_id]]) plus [k]; an offset that is no multiple
    of the chunk size fails the assertion of the dataset's
    [get_chunk_id]. *)
Theorem chunk_id_resolution (d : dtype) (rdb : bool) (cs : Z)
    (sizes : list Z) (data : bytes) :
  index_fits d rdb cs sizes ->
  exists file index,
    (_ <~ Writer.__enter__ d ;; Writer.write d rdb sizes cs) [] = (file, Ok tt) /\
    Index.__init__ file = Ok index /\
    (forall document_id k : Z,
        0 <= document_id < Index.__len__ index ->
        0 <= k < 2 ^ 62 ->
        let chunks_before :=
          total (map (fun size => size / cs)
                   (firstn (Z.to_nat document_id) sizes)) in
        getitem (Index._chunk_id_start index) document_id = Ok chunks_before /\
        Dataset.get_chunk_id (Dataset.mk index data) document_id (k * cs)
        = Ok (chunks_before + k)) /\
    (forall document_id offset : Z,
        offset mod cs <> 0 ->
        Dataset.get_chunk_id (Dataset.mk index data) document_id offset
        = Raise AssertionError).
Proof.
  intros Hfits. destruct (index_written d rdb cs sizes Hfits)
    as (file & Hw & Hinit).
  destruct Hfits as (Hcs & Hall & Hb).
  exists file, (index_of d rdb cs sizes). split; [exact Hw |].
  split; [exact Hinit |]. split.
  - intros i k Hi Hk chunks_before. unfold Index.__len__ in Hi. simpl in Hi.
    assert (Hstart : getitem (Index._chunk_id_start (index_of d rdb cs sizes)) i
                     = Ok chunks_before).
    { simpl. apply getitem_nonneg; [lia |].
      rewrite starts_nth by (rewrite length_map; unfold len in Hi; lia).
      now rewrite chunks_before_firstn. }
    split; [exact Hstart |].
    unfold Dataset.get_chunk_id, Index.get_chunk_id. simpl Dataset._index.
    rewrite Hstart. simpl.
    destruct (Z.eqb_spec cs 0) as [-> | _]; [lia |].
    rewrite Z.mod_mul by lia. simpl.
    rewrite Z.div_mul by lia.
    unfold np_int64_add, fits_long.
    replace (- 2 ^ 63 <=? k) with true by (symmetry; apply Z.leb_le; lia).
    replace (k <? 2 ^ 63) with true by (symmetry; apply Z.ltb_lt; lia).
    simpl. f_equal. apply astype_id, in_range_int64.
    pose proof (total_firstn_le (map (fun size => size / cs) sizes)
                  (Z.to_nat i) (quotients_nonneg cs sizes Hcs Hall)) as Hle.
    rewrite chunks_before_firstn in Hle. fold chunks_before in Hle.
    pose proof (total_quotients_le d rdb cs sizes Hcs Hall).
    pose proof (len_nonneg sizes). lia.
  - intros i offset Hoff. unfold Dataset.get_chunk_id. simpl.
    destruct (Z.eqb_spec cs 0) as [-> | _]; [lia |].
    destruct (Z.eqb_spec (offset mod cs) 0) as [H0 | _]; [contradiction |].
    reflexivity.
Qed.

Lemma chunk_id_resolution_witness :
  exists file index,
    (_ <~ Writer.__enter__ np_int32 ;; Writer.write np_int32 false [8; 4] 4) []
    = (file, Ok tt) /\
    Index.__init__ file = Ok index /\
    (forall document_id k : Z,
        0 <= document_id < Index.__len__ index ->
        0 <= k < 2 ^ 62 ->
        let chunks_before :=
          total (map (fun size => size / 4)
                   (firstn (Z.to_nat document_id) [8; 4])) in
        getitem (Index._chunk_id_start index) document_id = Ok chunks_before /\
        Dataset.get_chunk_id (Dataset.mk index []) document_id (k * 4)
        = Ok (chunks_before + k)) /\
    (forall document_id offset : Z,
        offset mod 4 <> 0 ->
        Dataset.get_chunk_id (Dataset.mk index []) document_id offset
        = Raise AssertionError).
Proof.
  apply (chunk_id_resolution np_int32 false 4 [8; 4] []).
  unfold index_fits. split; [lia |]. split.
  - repeat constructor; try lia; reflexivity.
  - vm_compute. reflexivity.
Defined.

(** ** Slices of lists *)

Lemma slice_indices_unit (start stop n : Z) :
  0 <= start <= n -> 0 <= stop <= n ->
  slice_indices (Slice (Some start) (Some stop) None) n = Ok (start, stop, 1).
Proof.
  intros Hs Ht. unfold slice_indices. simpl.
  destruct (Z.ltb_spec start 0) as [Hneg | _]; [lia |].
  destruct (Z.ltb_spec stop 0) as [Hneg | _]; [lia |].
  now rewrite !Z.min_l by lia.
Qed.

Lemma skipn_nth_cons {A : Type} (l : list A) (s : nat) (x : A) :
  nth_error l s = Some x -> skipn s l = x :: skipn (S s) l.
Proof.
  revert s. induction l as [| y l IH]; intros s Hs.
  - destruct s; discriminate.
  - destruct s as [| s]; simpl in *.
    + now injection Hs as ->.
    + now apply IH.
Qed.

Lemma flat_map_nth_range {A : Type} (l : list A) (m s : nat) :
  (s + m <= length l)%nat ->
  flat_map (fun k => match nth_error l (s + k) with
                     | Some x => [x]
                     | None => []
                     end) (seq 0 m)
  = firstn m (skipn s l).
Proof.
  revert s. induction m as [| m IH]; intros s Hs; [reflexivity |].
  cbn [seq flat_map]. rewrite Nat.add_0_r.
  destruct (nth_error l s) as [x |] eqn:Hx;
    [| apply nth_error_None in Hx; lia].
  rewrite (skipn_nth_cons l s x Hx). cbn [firstn app]. f_equal.
  rewrite <- seq_shift, flat_map_concat_map, map_map, <- flat_map_concat_map.
  rewrite <- (IH (S s)) by lia.
  apply flat_map_ext. intros k. now rewrite Nat.add_succ_r.
Qed.

Lemma array_slice_unit {A : Type} (l : list A) (start stop : Z) :
  0 <= start <= stop -> stop <= len l ->
  array_slice l (Slice (Some start) (Some stop) None)
  = Ok (firstn (Z.to_nat (stop - start)) (skipn (Z.to_nat start) l)).
Proof.
  intros Hs Ht. unfold array_slice.
  rewrite slice_indices_unit by lia. cbn [bind]. f_equal.
  unfold slice_count. simpl (0 <? 1). cbv iota.
  replace ((stop - start + 1 - 1) / 1) with (stop - start)
    by (rewrite Z.div_1_r; lia).
  rewrite <- (flat_map_nth_range l (Z.to_nat (stop - start)) (Z.to_nat start))
    by (unfold len in Ht; lia).
  apply flat_map_ext. intros k.
  replace (Z.to_nat (start + Z.of_nat k * 1)) with (Z.to_nat start + k)%nat
    by lia.
  reflexivity.
Qed.

Lemma getslice_inside {A : Type} (l : list A) (lo hi : Z) :
  0 <= lo <= hi -> hi <= len l ->
  getslice l lo hi = firstn (Z.to_nat (hi - lo)) (skipn (Z.to_nat lo) l).
Proof.
  intros Hlo Hhi. unfold getslice. cbv zeta.
  destruct (Z.ltb_spec lo 0) as [Hneg | _]; [lia |].
  destruct (Z.ltb_spec hi 0) as [Hneg | _]; [lia |].
  now rewrite !Z.min_l by lia.
Qed.

Lemma np_int64_add_small (a b : Z) :
  0 <= a < 2 ^ 62 -> 0 <= b < 2 ^ 62 -> np_int64_add a b = Ok (a + b).
Proof.
  intros Ha Hb. unfold np_int64_add, fits_long.
  destruct (Z.leb_spec (- 2 ^ 63) b) as [_ | H]; [| lia].
  destruct (Z.ltb_spec b (2 ^ 63)) as [_ | H]; [| lia].
  simpl. f_equal. apply astype_id, in_range_int64. lia.
Qed.

Lemma firstn_skipn_comm' {A : Type} (l : list A) (n k m : nat) :
  (k + m <= n)%nat ->
  firstn m (skipn k (firstn n l)) = firstn m (skipn k l).
Proof.
  intros H. rewrite skipn_firstn_comm, firstn_firstn.
  f_equal. lia.
Qed.

Lemma In_firstn_skipn {A : Type} (l : list A) (m s : nat) (x : A) :
  In x (firstn m (skipn s l)) ->
  exists j, (j < m)%nat /\ nth_error l (s + j) = Some x.
Proof.
  intros Hin. apply In_nth_error in Hin. destruct Hin as (j & Hj).
  assert (Hlt : (j < m)%nat).
  { assert (H : (j < length (firstn m (skipn s l)))%nat)
      by (apply nth_error_Some; congruence).
    rewrite length_firstn in H. lia. }
  exists j. split; [exact Hlt |].
  rewrite nth_error_firstn in Hj.
  destruct (Nat.ltb_spec j m) as [_ | Hge]; [| lia].
  now rewrite nth_error_skipn in Hj.
Qed.

(** ** The concrete scenario *)

(** C1: chunk size 4, 32-bit signed elements, pad value 0, no retrieval
    database; after [add_item([1,2,3,4,5])], [add_item([9,9])] and
    [finalize], the stored index has 2 documents, 3 chunks, sizes [8, 4],
    chunk id starts [0, 2] and chunk addresses [0, 16, 32]; [get(0)] is
    [1,2,3,4,5,0,0,0] and [get_chunk(2)] is [9,9,0,0]. *)
Theorem concrete_scenario :
  exists (b1 b2 : Builder.t) (c : corpus) (ds : Dataset.t),
    Builder.add_item (Builder.__init__ 4 0 false np_int32) [1; 2; 3; 4; 5] = Ok b1 /\
    Builder.add_item b1 [9; 9] = Ok b2 /\
    Builder.finalize b2 = (c, Ok tt) /\
    Dataset.__init__ c = Ok ds /\
    Index.__len__ (Dataset._index ds) = 2 /\
    Index.num_chunks (Dataset._index ds) = 3 /\
    Index._sizes (Dataset._index ds) = [8; 4] /\
    Index._chunk_id_start (Dataset._index ds) = [0; 2] /\
    Index._chunk_address (Dataset._index ds) = [0; 16; 32] /\
    Dataset.get ds 0 0 None = Ok [1; 2; 3; 4; 5; 0; 0; 0] /\
    Dataset.get_chunk ds 2 = Ok [9; 9; 0; 0].
Proof.
  do 4 eexists.
  split; [vm_compute; reflexivity |].
  split; [vm_compute; reflexivity |].
  split; [vm_compute; reflexivity |].
  split; [vm_compute; reflexivity |].
  repeat (split; [vm_compute; reflexivity |]).
  vm_compute; reflexivity.
Qed.

(** ** [Index.get_chunk] *)

(** C10: [Index.get_chunk(chunk_id)] raises a [NameError] for every chunk
    id, on every index: its body reads [i], which no parameter, local or
    module-level name binds.  It returns no pointer/size pair; the dataset's
    [get_chunk] finds chunks through [Index.get_chunk_address]. *)
Theorem index_get_chunk_raises_name_error :
  (forall (index : Index.t) (chunk_id : Z),
      Index.get_chunk index chunk_id = Raise NameError) /\
  (forall (ds : Dataset.t) (chunk_id : Z) (v : list Z),
      Dataset.get_chunk ds chunk_id = Ok v ->
      exists ptr,
        Index.get_chunk_address (Dataset._index ds) chunk_id = Ok ptr).
Proof.
  split.
  - intros index chunk_id. reflexivity.
  - intros ds chunk_id v H. unfold Dataset.get_chunk in H.
    apply bind_Ok in H. destruct H as (ptr & Hptr & _). now exists ptr.
Qed.

Lemma index_get_chunk_raises_name_error_witness :
  Index.get_chunk scenario_index 2 = Raise NameError /\
  exists ptr, Index.get_chunk_address scenario_index 2 = Ok ptr.
Proof.
  destruct index_get_chunk_raises_name_error as [H1 H2]. split.
  - apply H1.
  - apply (H2 (Dataset.mk scenario_index scenario_data_file) 2 [9; 9; 0; 0]).
    vm_compute. reflexivity.
Defined.

(** ** [add_item] *)

Lemma np_pad_ok (d : dtype) (arr : list Z) (n v : Z) :
  0 <= n -> fits_long v = true ->
  Builder.np_pad d arr n v = Ok (arr ++ repeat (astype d v) (Z.to_nat n)).
Proof.
  intros Hn Hv. unfold Builder.np_pad.
  destruct (Z.ltb_spec n 0) as [Hneg | _]; [lia |].
  now rewrite Hv.
Qed.

(** The padded array [add_item] writes for a document. *)
Lemma add_item_spec (self : Builder.t) (tensor : list Z) :
  0 < Builder.chunk_size self ->
  fits_long (Builder.pad_id self) = true ->
  let d := Builder._dtype self in
  let cs := Builder.chunk_size self in
  let data_size := len tensor + (cs - len tensor mod cs) in
  let reserved := if Builder.retrieval_db self then cs else 0 in
  Builder.add_item self tensor
  = Ok (Builder.mk
          (Builder._data_file self
             ++ tobytes d
                  (map (astype d) tensor
                     ++ repeat (astype d (Builder.pad_id self))
                          (Z.to_nat (cs - len tensor mod cs + reserved))))
          d cs (Builder._sizes self ++ [data_size])
          (Builder.retrieval_db self) (Builder.pad_id self)).
Proof.
  intros Hcs Hpad d cs data_size reserved. unfold Builder.add_item.
  fold d cs. destruct (Z.eqb_spec cs 0) as [H0 | _]; [lia |].
  rewrite len_map.
  pose proof (Z.mod_pos_bound (len tensor) cs Hcs) as Hm.
  rewrite np_pad_ok; [| destruct (Builder.retrieval_db self); lia | exact Hpad].
  simpl. unfold reserved. destruct (Builder.retrieval_db self);
    rewrite ?Z.add_0_r; reflexivity.
Qed.

(** C4 (what the code does on an aligned input): for a document whose
    length is already a multiple of the chunk size, the recorded size is
    the length plus one whole chunk, and that many elements are written: the
    document followed by [chunk_size] pad values. *)
Theorem add_item_aligned_input (self : Builder.t) (tensor : list Z) :
  0 < Builder.chunk_size self ->
  fits_long (Builder.pad_id self) = true ->
  Builder.retrieval_db self = false ->
  len tensor mod Builder.chunk_size self = 0 ->
  exists self',
    Builder.add_item self tensor = Ok self' /\
    Builder._sizes self'
    = Builder._sizes self ++ [len tensor + Builder.chunk_size self] /\
    Builder._data_file self'
    = Builder._data_file self
        ++ tobytes (Builder._dtype self)
             (map (astype (Builder._dtype self)) tensor
                ++ repeat (astype (Builder._dtype self) (Builder.pad_id self))
                     (Z.to_nat (Builder.chunk_size self))).
Proof.
  intros Hcs Hpad Hrdb Hm. eexists. split.
  - apply add_item_spec; assumption.
  - simpl. rewrite Hm, Hrdb, Z.sub_0_r, Z.add_0_r. split; reflexivity.
Qed.

Lemma add_item_aligned_input_witness :
  exists self',
    Builder.add_item (Builder.__init__ 4 0 false np_int32) [1; 2; 3; 4] = Ok self' /\
    Builder._sizes self' = [8] /\
    Builder._data_file self'
    = tobytes np_int32 [1; 2; 3; 4; 0; 0; 0; 0].
Proof.
  apply (add_item_aligned_input (Builder.__init__ 4 0 false np_int32) [1; 2; 3; 4]);
    [simpl; lia | reflexivity | reflexivity | reflexivity].
Defined.

(** ** Bounds of lookups *)



Lemma Forall_firstn {A : Type} (P : A -> Prop) (n : nat) (l : list A) :
  Forall P l -> Forall P (firstn n l).
Proof.
  intros H. revert n. induction H; intros [| n]; simpl; constructor; auto.
Qed.

Lemma Forall_skipn {A : Type} (P : A -> Prop) (n : nat) (l : list A) :
  Forall P l -> Forall P (skipn n l).
Proof.
  intros H. revert n. induction H; intros [| n]; simpl; auto.
Qed.







(** ** The builder *)

Lemma add_item_region (self : Builder.t) (tokens : list Z) :
  0 < Builder.chunk_size self ->
  fits_long (Builder.pad_id self) = true ->
  Builder.add_item self tokens
  = Ok (Builder.mk
          (Builder._data_file self
             ++ tobytes (Builder._dtype self)
                  (region (Builder._dtype self) (Builder.retrieval_db self)
                     (Builder.chunk_size self) (Builder.pad_id self) tokens))
          (Builder._dtype self) (Builder.chunk_size self)
          (Builder._sizes self ++ [padded_size (Builder.chunk_size self) tokens])
          (Builder.retrieval_db self) (Builder.pad_id self)).
Proof.
  intros Hcs Hpad. rewrite add_item_spec by assumption. cbv zeta.
  unfold region, alignment_padding, padded_size.
  pose proof (Z.mod_pos_bound (len tokens) (Builder.chunk_size self) Hcs).
  do 4 f_equal. rewrite <- app_assoc. f_equal.
  rewrite <- repeat_app. f_equal.
  destruct (Builder.retrieval_db self); lia.
Qed.

Lemma add_items_spec (d : dtype) (rdb : bool) (cs pad : Z)
    (items : list (list Z)) :
  0 < cs -> fits_long pad = true ->
  forall (data : bytes) (sizes : list Z),
    Builder.add_items (Builder.mk data d cs sizes rdb pad) items
    = Ok (Builder.mk
            (data ++ tobytes d (concat (map (region d rdb cs pad) items)))
            d cs (sizes ++ map (padded_size cs) items) rdb pad).
Proof.
  intros Hcs Hpad. induction items as [| tokens items IH]; intros data sizes.
  - simpl. now rewrite !app_nil_r.
  - cbn [Builder.add_items]. rewrite add_item_region by assumption.
    cbn [bind Builder._data_file Builder._dtype Builder.chunk_size
           Builder._sizes Builder.retrieval_db Builder.pad_id].
    rewrite IH. cbn [map concat]. rewrite tobytes_app, <- !app_assoc.
    reflexivity.
Qed.

Lemma padded_size_bounds (cs : Z) (tokens : list Z) :
  0 < cs ->
  len tokens < padded_size cs tokens <= len tokens + cs /\
  padded_size cs tokens mod cs = 0.
Proof.
  intros Hcs. unfold padded_size.
  pose proof (Z.mod_pos_bound (len tokens) cs Hcs) as Hm.
  split; [lia |].
  rewrite (Z.div_mod (len tokens) cs) at 1 by lia.
  replace (cs * (len tokens / cs) + len tokens mod cs
           + (cs - len tokens mod cs))
    with ((len tokens / cs + 1) * cs) by ring.
  apply Z.mod_mul. lia.
Qed.

Lemma region_length (d : dtype) (rdb : bool) (cs pad : Z) (tokens : list Z) :
  0 < cs ->
  len (region d rdb cs pad tokens)
  = padded_size cs tokens + (if rdb then cs else 0).
Proof.
  intros Hcs. unfold region, alignment_padding, padded_size.
  pose proof (Z.mod_pos_bound (len tokens) cs Hcs).
  rewrite !len_app, len_map, !len_repeat. destruct rdb; lia.
Qed.

Lemma doc_span_region (d : dtype) (rdb : bool) (cs pad : Z)
    (tokens : list Z) :
  0 < cs ->
  doc_span d rdb cs (padded_size cs tokens)
  = itemsize d * len (region d rdb cs pad tokens).
Proof.
  intros Hcs. rewrite region_length by assumption. unfold doc_span.
  destruct rdb; ring.
Qed.

Lemma len_concat_regions (d : dtype) (rdb : bool) (cs pad : Z)
    (items : list (list Z)) :
  0 < cs ->
  itemsize d * len (concat (map (region d rdb cs pad) items))
  = total (map (doc_span d rdb cs) (map (padded_size cs) items)).
Proof.
  intros Hcs. induction items as [| tokens items IH]; simpl.
  - unfold len. simpl. lia.
  - rewrite len_app, <- IH, (doc_span_region d rdb cs pad) by assumption.
    ring.
Qed.

Lemma len_concat_cons {A : Type} (x : list A) (l : list (list A)) :
  len (concat (x :: l)) = len x + len (concat l).
Proof. simpl. apply len_app. Qed.

Lemma total_spans_le (d : dtype) (rdb : bool) (cs : Z)
    (items : list (list Z)) :
  0 < cs ->
  total (map (doc_span d rdb cs) (map (padded_size cs) items))
  <= 8 * (len (concat items) + 2 * cs * len items).
Proof.
  intros Hcs. induction items as [| tokens items IH].
  - unfold len. cbn [map total fold_right concat length Z.of_nat]. lia.
  - cbn [map total fold_right]. fold (total (map (doc_span d rdb cs)
                                              (map (padded_size cs) items))).
    rewrite len_concat_cons.
    replace (len (tokens :: items)) with (1 + len items)
      by (unfold len; simpl length; lia).
    pose proof (padded_size_bounds cs tokens Hcs) as [Hp _].
    pose proof (itemsize_pos d). pose proof (itemsize_le_8 d).
    pose proof (len_nonneg tokens).
    assert (doc_span d rdb cs (padded_size cs tokens)
            <= 8 * (len tokens + 2 * cs)).
    { unfold doc_span. destruct rdb; nia. }
    lia.
Qed.

(** The sizes a builder records for documents that fit are sizes the index
    format can hold. *)
Lemma corpus_fits_index (d : dtype) (rdb : bool) (cs pad : Z)
    (items : list (list Z)) :
  corpus_fits cs pad items ->
  index_fits d rdb cs (map (padded_size cs) items).
Proof.
  intros (Hcs & Hpad & Hlen & Htot). unfold index_fits.
  split; [exact Hcs |]. split.
  - apply Forall_map. eapply Forall_impl; [| exact Hlen].
    cbv beta. intros tokens Ht.
    pose proof (padded_size_bounds cs tokens Hcs) as [Hp Hm].
    pose proof (len_nonneg tokens). split; [lia | exact Hm].
  - pose proof (total_spans_le d rdb cs items Hcs).
    rewrite len_map. pose proof (len_nonneg items).
    pose proof (len_nonneg (concat items)).
    assert (len items <= 2 * cs * len items) by nia.
    lia.
Qed.

Lemma corpus_fits_app_l (cs pad : Z) (a b : list (list Z)) :
  corpus_fits cs pad (a ++ b) -> corpus_fits cs pad a.
Proof.
  intros (Hcs & Hpad & Hlen & Htot). repeat split; try assumption; try lia.
  - apply Forall_app in Hlen. tauto.
  - rewrite concat_app, !len_app in Htot.
    pose proof (len_nonneg (concat b)). pose proof (len_nonneg b).
    nia.
Qed.

Lemma corpus_fits_app_r (cs pad : Z) (a b : list (list Z)) :
  corpus_fits cs pad (a ++ b) -> corpus_fits cs pad b.
Proof.
  intros (Hcs & Hpad & Hlen & Htot). repeat split; try assumption; try lia.
  - apply Forall_app in Hlen. tauto.
  - rewrite concat_app, !len_app in Htot.
    pose proof (len_nonneg (concat a)). pose proof (len_nonneg a).
    nia.
Qed.

Lemma np_memmap_nonempty (file : bytes) :
  0 < len file -> np_memmap file = Ok file.
Proof.
  destruct file; [unfold len; simpl; lia | reflexivity].
Qed.

(** Building a corpus from documents that fit succeeds, and the dataset
    opened on it (there must be a document: an empty data file cannot be
    mapped) holds the index of the recorded sizes over the data file of
    the documents' regions. *)
Lemma build_and_open (d : dtype) (rdb : bool) (cs pad : Z)
    (items : list (list Z)) :
  corpus_fits cs pad items ->
  exists (b : Builder.t) (c : corpus),
    Builder.add_items (Builder.__init__ cs pad rdb d) items = Ok b /\
    Builder.finalize b = (c, Ok tt) /\
    bin_file c = tobytes d (concat (map (region d rdb cs pad) items)) /\
    Index.__init__ (idx_file c)
    = Ok (index_of d rdb cs (map (padded_size cs) items)) /\
    (items <> [] ->
     Dataset.__init__ c
     = Ok (Dataset.mk (index_of d rdb cs (map (padded_size cs) items))
             (tobytes d (concat (map (region d rdb cs pad) items))))).
Proof.
  intros Hfits.
  destruct (index_written d rdb cs _ (corpus_fits_index d rdb cs pad items Hfits))
    as (file & Hw & Hinit).
  destruct Hfits as (Hcs & Hpad & Hlen & Htot).
  unfold Builder.__init__. rewrite add_items_spec by assumption.
  do 2 eexists. split; [reflexivity |].
  unfold Builder.finalize.
  cbn [Builder._data_file Builder._dtype Builder.chunk_size
         Builder._sizes Builder.retrieval_db Builder.pad_id app].
  rewrite Hw. split; [reflexivity |]. split; [reflexivity |].
  split; [exact Hinit |].
  intros Hne. unfold Dataset.__init__. cbn [idx_file bin_file bind].
  rewrite Hinit. cbn [bind].
  rewrite np_memmap_nonempty; [reflexivity |].
  destruct items as [| tokens items]; [congruence |].
  cbn [map concat]. rewrite tobytes_app, len_app, len_tobytes.
  rewrite region_length by assumption.
  pose proof (padded_size_bounds cs tokens Hcs) as [Hp _].
  pose proof (len_nonneg tokens). pose proof (itemsize_pos d).
  pose proof (len_nonneg (tobytes d (concat (map (region d rdb cs pad) items)))).
  destruct rdb; nia.
Qed.

(** ** Reading documents back *)

(** Reading [n] elements at element offset [k] of a file of elements. *)
Lemma frombuffer_elems (d : dtype) (elems : list Z) (k n : nat) :
  (k + n <= length elems)%nat ->
  len (tobytes d elems) < 2 ^ 63 ->
  frombuffer (tobytes d elems) d (Z.of_nat n) (itemsize d * Z.of_nat k)
  = Ok (map (astype d) (firstn n (skipn k elems))).
Proof.
  intros Hkn Hlen.
  apply frombuffer_at with (pre := tobytes d (firstn k elems))
                           (post := tobytes d (skipn n (skipn k elems))).
  - rewrite <- !tobytes_app, !firstn_skipn. reflexivity.
  - rewrite len_tobytes. unfold len. rewrite length_firstn.
    rewrite Nat.min_l by lia. reflexivity.
  - unfold len. rewrite length_firstn, length_skipn. lia.
  - exact Hlen.
Qed.

Lemma nth_error_split_concat {A : Type} (l : list (list A)) (i : nat)
    (x : list A) :
  nth_error l i = Some x ->
  concat l = concat (firstn i l) ++ x ++ concat (skipn (S i) l).
Proof.
  revert i. induction l as [| y l IH]; intros i Hi.
  - destruct i; discriminate.
  - destruct i as [| i]; simpl in *.
    + now injection Hi as ->.
    + rewrite (IH i Hi) at 1. now rewrite app_assoc.
Qed.

Lemma region_astype (d : dtype) (cs pad : Z) (tokens : list Z) :
  map (astype d) (map (astype d) tokens ++ alignment_padding d cs pad tokens)
  = map (astype d) tokens ++ alignment_padding d cs pad tokens.
Proof.
  apply map_astype_id, Forall_app. split.
  - apply Forall_map, Forall_forall. intros x _. apply astype_in_range.
  - unfold alignment_padding. apply Forall_forall. intros x Hx.
    apply repeat_spec in Hx. subst x. apply astype_in_range.
Qed.

Lemma alignment_padding_length (d : dtype) (cs pad : Z) (tokens : list Z) :
  0 < cs ->
  len (map (astype d) tokens ++ alignment_padding d cs pad tokens)
  = padded_size cs tokens.
Proof.
  intros Hcs. unfold alignment_padding, padded_size.
  pose proof (Z.mod_pos_bound (len tokens) cs Hcs).
  rewrite len_app, len_map, len_repeat. lia.
Qed.

(** The pointer of document [i] is the byte offset of its region. *)
Lemma pointer_of_document (d : dtype) (rdb : bool) (cs pad : Z)
    (items : list (list Z)) (i : nat) :
  0 < cs ->
  (i < length items)%nat ->
  nth_error (starts 0 (map (doc_span d rdb cs) (map (padded_size cs) items))) i
  = Some (itemsize d
          * len (concat (firstn i (map (region d rdb cs pad) items)))).
Proof.
  intros Hcs Hi. rewrite starts_nth by (now rewrite !length_map).
  rewrite !firstn_map, (len_concat_regions d rdb cs pad) by assumption.
  reflexivity.
Qed.

Lemma data_length (d : dtype) (rdb : bool) (cs pad : Z)
    (items : list (list Z)) :
  corpus_fits cs pad items ->
  len (tobytes d (concat (map (region d rdb cs pad) items))) < 2 ^ 63.
Proof.
  intros (Hcs & Hpad & Hlen & Htot).
  rewrite len_tobytes, (len_concat_regions d rdb cs pad) by assumption.
  pose proof (total_spans_le d rdb cs items Hcs). lia.
Qed.

(** What the item accessor returns for document [i] of a built corpus: the
    document as stored, followed by the alignment padding, without the
    reserved block. *)
Lemma read_document (d : dtype) (rdb : bool) (cs pad : Z)
    (items : list (list Z)) (i : nat) (tokens : list Z) :
  corpus_fits cs pad items ->
  nth_error items i = Some tokens ->
  Dataset.__getitem__
    (Dataset.mk (index_of d rdb cs (map (padded_size cs) items))
       (tobytes d (concat (map (region d rdb cs pad) items))))
    (Z.of_nat i)
  = Ok (map (astype d) tokens ++ alignment_padding d cs pad tokens).
Proof.
  intros Hfits Hi.
  pose proof (data_length d rdb cs pad items Hfits) as Hdata.
  destruct Hfits as (Hcs & Hpad & Hlen & Htot).
  assert (Hlt : (i < length items)%nat)
    by (apply nth_error_Some; congruence).
  unfold Dataset.__getitem__, Index.__getitem__.
  cbn [Dataset._index Dataset._bin_buffer index_of Index._pointers
         Index._sizes Index._dtype].
  rewrite (getitem_nonneg _ (Z.of_nat i)
             (itemsize d
              * len (concat (firstn i (map (region d rdb cs pad) items)))))
    by (try lia; rewrite Nat2Z.id; now apply pointer_of_document).
  cbn [bind].
  rewrite (getitem_nonneg _ (Z.of_nat i) (padded_size cs tokens))
    by (try lia; rewrite Nat2Z.id, nth_error_map, Hi; reflexivity).
  cbn [bind].
  set (regs := map (region d rdb cs pad) items) in *.
  set (doc := map (astype d) tokens ++ alignment_padding d cs pad tokens).
  assert (Hsplit : concat regs
                   = concat (firstn i regs)
                       ++ region d rdb cs pad tokens
                       ++ concat (skipn (S i) regs)).
  { apply nth_error_split_concat. unfold regs.
    now rewrite nth_error_map, Hi. }
  assert (Hdoc : len doc = padded_size cs tokens)
    by (now apply alignment_padding_length).
  replace (padded_size cs tokens) with (Z.of_nat (length doc))
    by (rewrite <- Hdoc; reflexivity).
  unfold len at 1.
  rewrite frombuffer_elems.
  - rewrite Hsplit. rewrite skipn_app, Nat.sub_diag, skipn_O.
    rewrite skipn_all2 by lia. cbn [app].
    unfold region. fold doc. rewrite <- !app_assoc.
    rewrite firstn_app, Nat.sub_diag, firstn_O, app_nil_r.
    rewrite firstn_all2 by lia. f_equal. apply region_astype.
  - rewrite Hsplit. unfold region. fold doc.
    rewrite !length_app. lia.
  - exact Hdata.
Qed.

(** *** Ranges of documents *)

Lemma accumulate_from_small (w : dtype) (a : Z) (l : list Z) :
  w = np_int32 \/ w = np_int64 ->
  0 <= a -> Forall (fun x => 0 <= x) l -> a + total l < 2 ^ 31 ->
  accumulate_from w a l = running a l.
Proof.
  intros Hw Ha Hl. revert a Ha. induction Hl as [| x l Hx Hl IH];
    intros a Ha Ht; [reflexivity |].
  pose proof (total_nonneg l Hl) as H0.
  unfold total in *. cbn [accumulate_from running fold_right] in *.
  assert (Hid : astype w (a + x) = a + x).
  { apply astype_id. destruct Hw as [-> | ->]; unfold in_range; simpl; lia. }
  rewrite Hid. f_equal. apply IH; lia.
Qed.

Lemma accumulate_small (w : dtype) (l : list Z) :
  w = np_int32 \/ w = np_int64 ->
  Forall (fun x => 0 <= x) l -> total l < 2 ^ 31 ->
  accumulate w l = running 0 l.
Proof.
  intros Hw Hl Ht. destruct l as [| x l]; [reflexivity |].
  inversion Hl as [| ? ? Hx Hl']; subst.
  pose proof (total_nonneg l Hl') as H0.
  cbn [accumulate running]. rewrite accumulate_from_small; try assumption.
  reflexivity.
Qed.

Lemma py_sum_from (a : Z) (l : list Z) :
  0 <= a -> Forall (fun x => 0 <= x) l -> a + total l < 2 ^ 63 ->
  fold_left (fun acc x => astype np_int64 (acc + x)) l a = a + total l.
Proof.
  intros Ha Hl. revert a Ha. induction Hl as [| x l Hx Hl IH];
    intros a Ha Ht.
  - simpl. lia.
  - pose proof (total_nonneg l Hl) as H0.
    unfold total in *. cbn [fold_left fold_right] in *.
    rewrite (astype_id np_int64 (a + x)) by (apply in_range_int64; lia).
    rewrite IH by lia. lia.
Qed.

Lemma py_sum_small (l : list Z) :
  Forall (fun x => 0 <= x) l -> total l < 2 ^ 63 -> py_sum l = total l.
Proof.
  intros Hl Ht. unfold py_sum. rewrite py_sum_from; try assumption; lia.
Qed.

Lemma getslice_segment {A : Type} (pre seg post : list A) :
  getslice (pre ++ seg ++ post) (len pre) (len pre + len seg) = seg.
Proof.
  pose proof (len_nonneg pre). pose proof (len_nonneg seg).
  pose proof (len_nonneg post).
  rewrite getslice_inside by (rewrite ?len_app; lia).
  replace (len pre + len seg - len pre) with (len seg) by lia.
  unfold len. rewrite !Nat2Z.id.
  rewrite skipn_app, Nat.sub_diag, skipn_O, skipn_all2 by lia.
  cbn [app]. rewrite firstn_app, Nat.sub_diag, firstn_O, app_nil_r.
  apply firstn_all.
Qed.

(** Splitting a concatenation at the running sums of the lengths of its
    segments gives the segments. *)
Lemma split_at_segments {A : Type} (segs : list (list A)) :
  forall (pre post : list A),
    split_at (pre ++ concat segs ++ post) (len pre)
      (running (len pre) (map len segs))
    = segs.
Proof.
  induction segs as [| seg segs IH]; intros pre post; [reflexivity |].
  cbn [map running split_at concat]. rewrite <- (app_assoc seg).
  rewrite getslice_segment. f_equal.
  rewrite <- len_app.
  rewrite (app_assoc pre seg). apply IH.
Qed.

Lemma running_last (a : Z) (l : list Z) :
  l <> [] -> removelast (running a l) ++ [a + total l] = running a l.
Proof.
  revert a. induction l as [| x l IH]; intros a Hne; [congruence |].
  destruct l as [| y l].
  - simpl. f_equal. lia.
  - specialize (IH (a + x) ltac:(congruence)).
    change (running a (x :: y :: l))
      with ((a + x) :: running (a + x) (y :: l)).
    replace (a + total (x :: y :: l)) with (a + x + total (y :: l))
      by (unfold total; cbn [fold_right]; lia).
    remember (running (a + x) (y :: l)) as r eqn:Hr.
    destruct r as [| u r]; [discriminate |].
    cbn [removelast app]. f_equal. exact IH.
Qed.

Lemma total_map_len {A : Type} (segs : list (list A)) :
  total (map len segs) = len (concat segs).
Proof.
  induction segs as [| seg segs IH]; [reflexivity |].
  unfold total in *. cbn [map fold_right concat]. rewrite len_app.
  now rewrite IH.
Qed.

Lemma np_split_segments {A : Type} (segs : list (list A)) :
  segs <> [] ->
  np_split (concat segs) (removelast (running 0 (map len segs))) = segs.
Proof.
  intros Hne. unfold np_split.
  rewrite <- total_map_len.
  replace (total (map len segs)) with (0 + total (map len segs)) by lia.
  rewrite running_last by (destruct segs; [congruence | discriminate]).
  pose proof (split_at_segments segs [] []) as H.
  cbn [app] in H. rewrite app_nil_r in H. exact H.
Qed.

Lemma region_in_range (d : dtype) (rdb : bool) (cs pad : Z) (tokens : list Z) :
  Forall (in_range d) (region d rdb cs pad tokens).
Proof.
  unfold region, alignment_padding.
  apply Forall_app. split; [apply Forall_app; split |].
  - apply Forall_map, Forall_forall. intros x _. apply astype_in_range.
  - apply Forall_forall. intros x Hx. apply repeat_spec in Hx. subst x.
    apply astype_in_range.
  - apply Forall_forall. intros x Hx. apply repeat_spec in Hx. subst x.
    apply astype_in_range.
Qed.

Lemma concat_in_range (d : dtype) (segs : list (list Z)) :
  Forall (Forall (in_range d)) segs -> Forall (in_range d) (concat segs).
Proof.
  induction 1 as [| seg segs Hseg _ IH]; simpl; [constructor |].
  apply Forall_app. now split.
Qed.

(** Stripping the reserved block from a document's region. *)
Lemma strip_reserved (d : dtype) (cs pad : Z) (tokens : list Z) :
  0 < cs ->
  getslice (region d true cs pad tokens) 0 (- cs)
  = map (astype d) tokens ++ alignment_padding d cs pad tokens.
Proof.
  intros Hcs. unfold region.
  set (doc := map (astype d) tokens ++ alignment_padding d cs pad tokens).
  pose proof (len_nonneg doc) as Hdoc.
  unfold getslice. cbv zeta.
  rewrite len_app, len_repeat, Z2Nat.id by lia.
  destruct (Z.ltb_spec 0 0) as [H | _]; [lia |].
  destruct (Z.ltb_spec (- cs) 0) as [_ | H]; [| lia].
  rewrite Z.min_l by lia. rewrite Z.max_l by lia.
  replace (- cs + (len doc + cs) - 0) with (len doc) by lia.
  cbn [Z.to_nat skipn]. unfold len. rewrite Nat2Z.id.
  rewrite firstn_app, Nat.sub_diag, firstn_O, app_nil_r.
  apply firstn_all.
Qed.

Lemma region_no_reserved (d : dtype) (cs pad : Z) (tokens : list Z) :
  region d false cs pad tokens
  = map (astype d) tokens ++ alignment_padding d cs pad tokens.
Proof. unfold region. simpl. apply app_nil_r. Qed.

Lemma len_regions_le (d : dtype) (rdb : bool) (cs pad : Z)
    (items : list (list Z)) :
  0 < cs ->
  len (concat (map (region d rdb cs pad) items))
  <= len (concat items) + 2 * cs * len items.
Proof.
  intros Hcs. induction items as [| tokens items IH].
  - unfold len. cbn [map concat length Z.of_nat]. lia.
  - cbn [map]. rewrite !len_concat_cons, region_length by assumption.
    replace (len (tokens :: items)) with (1 + len items)
      by (unfold len; simpl length; lia).
    pose proof (padded_size_bounds cs tokens Hcs) as [Hp _].
    destruct rdb; lia.
Qed.

Lemma concat_firstn_skipn {A : Type} (l : list (list A)) (s m : nat) :
  concat l
  = concat (firstn s l) ++ concat (firstn m (skipn s l))
      ++ concat (skipn m (skipn s l)).
Proof.
  rewrite <- !concat_app, !firstn_skipn. reflexivity.
Qed.

(** What the item accessor returns for a range of documents of a built
    corpus, when the range holds fewer than 2^31 elements (the offsets it
    splits at are sums of 32-bit integers): the documents as stored, each
    followed by its alignment padding, the reserved blocks stripped. *)
Lemma read_range (d : dtype) (rdb : bool) (cs pad : Z)
    (items : list (list Z)) (start stop : nat) :
  corpus_fits cs pad items ->
  len (concat items) + 2 * cs * len items < 2 ^ 31 ->
  (start < stop <= length items)%nat ->
  Dataset.getitem_slice
    (Dataset.mk (index_of d rdb cs (map (padded_size cs) items))
       (tobytes d (concat (map (region d rdb cs pad) items))))
    (Slice (Some (Z.of_nat start)) (Some (Z.of_nat stop)) None)
  = Ok (map (fun tokens =>
               map (astype d) tokens ++ alignment_padding d cs pad tokens)
          (firstn (stop - start) (skipn start items))).
Proof.
  intros Hfits Hsmall Hrange.
  pose proof (data_length d rdb cs pad items Hfits) as Hdata.
  destruct Hfits as (Hcs & Hpad & Hlen & Htot).
  set (regs := map (region d rdb cs pad) items) in *.
  set (range := firstn (stop - start) (skipn start items)).
  set (range_regs := map (region d rdb cs pad) range).
  assert (Hrr : range_regs = firstn (stop - start) (skipn start regs))
    by (unfold range_regs, range, regs; now rewrite skipn_map, firstn_map).
  pose proof (len_regions_le d rdb cs pad items Hcs) as Hregs.
  fold regs in Hregs.
  pose proof (concat_firstn_skipn regs start (stop - start)) as Hsplit.
  rewrite <- Hrr in Hsplit.
  assert (Hrlen : len (concat range_regs) <= len (concat regs)).
  { rewrite Hsplit. rewrite !len_app.
    pose proof (len_nonneg (concat (firstn start regs))).
    pose proof (len_nonneg (concat (skipn (stop - start) (skipn start regs)))).
    lia. }
  assert (Hne : range_regs <> []).
  { unfold range_regs, range.
    destruct (nth_error items start) as [t |] eqn:Ht;
      [| apply nth_error_None in Ht; lia].
    rewrite (skipn_nth_cons items start t Ht).
    destruct (stop - start)%nat as [| m] eqn:Hm; [lia |]. discriminate. }
  unfold Dataset.getitem_slice, Dataset.__len__, Index.__len__.
  cbn [Dataset._index Dataset._bin_buffer index_of Index._len
         Index._pointers Index._sizes Index.retrieval_db Index.chunk_size
         Index._dtype].
  rewrite len_map.
  rewrite slice_indices_unit by (unfold len; lia). cbn [bind].
  change (negb (1 =? 1)) with false. cbv iota.
  rewrite (getitem_nonneg _ (Z.of_nat start)
             (itemsize d * len (concat (firstn start regs))))
    by (try lia; rewrite Nat2Z.id; apply pointer_of_document; lia).
  cbn [bind].
  rewrite array_slice_unit by (rewrite ?len_map; unfold len; lia).
  cbn [bind].
  replace (Z.to_nat (Z.of_nat stop - Z.of_nat start))
    with (stop - start)%nat by lia.
  rewrite Nat2Z.id, skipn_map, firstn_map. fold range.
  assert (Hcs32 : in_rangeb np_int32 cs = true).
  { apply in_rangeb_spec, in_range_int32.
    pose proof (len_nonneg (concat items)). pose proof (len_nonneg items).
    unfold len in Hrange.
    assert (1 <= len items) by (unfold len; lia). nia. }
  rewrite Hcs32. rewrite andb_false_r.
  assert (Hlong : fits_long cs = true).
  { unfold fits_long. apply andb_true_iff. rewrite Z.leb_le, Z.ltb_lt.
    apply in_rangeb_spec in Hcs32. unfold in_range in Hcs32.
    simpl in Hcs32. lia. }
  rewrite Hlong. rewrite andb_false_r. cbv iota.
  (* the sizes of the range are the lengths of its regions *)
  assert (Hsizes : (if rdb
                    then map (fun size => astype np_int32 (size + cs))
                           (map (padded_size cs) range)
                    else map (padded_size cs) range)
                   = map len range_regs).
  { unfold range_regs. rewrite !map_map.
    assert (Hin : forall t, In t range -> len t + 2 * cs < 2 ^ 31).
    { intros t Ht. unfold range in Ht.
      apply In_firstn_skipn in Ht. destruct Ht as (j & _ & Hj).
      rewrite Forall_forall in Hlen. apply Hlen.
      eapply nth_error_In, Hj. }
    destruct rdb.
    - apply map_ext_in. intros t Ht.
      rewrite region_length by assumption.
      pose proof (padded_size_bounds cs t Hcs) as [Hp _].
      pose proof (len_nonneg t). specialize (Hin t Ht).
      apply astype_id, in_range_int32. lia.
    - apply map_ext_in. intros t Ht.
      rewrite region_length by assumption. lia. }
  rewrite Hsizes.
  assert (Hpos : Forall (fun x => 0 <= x) (map len range_regs)).
  { apply Forall_map, Forall_forall. intros seg _. apply len_nonneg. }
  assert (Htotal : total (map len range_regs) = len (concat range_regs))
    by apply total_map_len.
  rewrite accumulate_small; [| now left | exact Hpos | lia].
  rewrite py_sum_small; [| exact Hpos | lia].
  rewrite Htotal.
  (* the elements read are the regions of the range *)
  assert (Hread : frombuffer (tobytes d (concat regs)) d
                    (len (concat range_regs))
                    (itemsize d * len (concat (firstn start regs)))
                  = Ok (concat range_regs)).
  { unfold len at 1 2. rewrite frombuffer_elems.
    - f_equal. rewrite Hsplit.
      rewrite skipn_app, Nat.sub_diag, skipn_O, skipn_all2 by lia.
      cbn [app].
      rewrite firstn_app, Nat.sub_diag, firstn_O, app_nil_r.
      rewrite firstn_all. apply map_astype_id, concat_in_range.
      unfold range_regs. apply Forall_map, Forall_forall.
      intros t _. apply region_in_range.
    - rewrite Hsplit. rewrite !length_app. lia.
    - exact Hdata. }
  rewrite Hread. cbn [bind].
  rewrite np_split_segments by exact Hne.
  unfold range_regs. destruct rdb.
  - f_equal. rewrite map_map. apply map_ext. intros t.
    now apply strip_reserved.
  - f_equal. apply map_ext. intros t. apply region_no_reserved.
Qed.

(** C2: round trip.  For documents that fit the format (at least one, with
    tokens of the element type) and a positive chunk size: building the
    corpus with [add_item] for each document and [finalize] succeeds, the
    dataset opens on it, and the item accessor returns, for each document,
    the original tokens followed by the chunk-alignment padding only, so
    the tokens are the prefix of the view of their length; the reserved
    block of retrieval-db mode is not part of the view.  For a contiguous
    range of documents (in a corpus of fewer than 2^31 elements) the item
    accessor returns these views in order, the reserved blocks stripped. *)
Theorem round_trip (d : dtype) (rdb : bool) (cs pad : Z)
    (items : list (list Z)) :
  corpus_fits cs pad items ->
  items <> [] ->
  Forall (Forall (in_range d)) items ->
  exists (b : Builder.t) (c : corpus) (ds : Dataset.t),
    Builder.add_items (Builder.__init__ cs pad rdb d) items = Ok b /\
    Builder.finalize b = (c, Ok tt) /\
    Dataset.__init__ c = Ok ds /\
    Dataset.__len__ ds = len items /\
    (forall (i : nat) (tokens : list Z),
        nth_error items i = Some tokens ->
        exists view,
          Dataset.__getitem__ ds (Z.of_nat i) = Ok view /\
          view = stored_document d cs pad tokens /\
          firstn (length tokens) view = tokens) /\
    (len (concat items) + 2 * cs * len items < 2 ^ 31 ->
     forall start stop : Z,
       0 <= start < stop ->
       stop <= len items ->
       Dataset.getitem_slice ds (Slice (Some start) (Some stop) None)
       = Ok (map (stored_document d cs pad)
               (firstn (Z.to_nat (stop - start))
                  (skipn (Z.to_nat start) items)))).
Proof.
  intros Hfits Hne Hrange.
  destruct (build_and_open d rdb cs pad items Hfits)
    as (b & c & Hb & Hc & _ & _ & Hopen).
  exists b, c. eexists. split; [exact Hb |]. split; [exact Hc |].
  split; [exact (Hopen Hne) |]. clear Hopen. split; [| split].
  - unfold Dataset.__len__, Index.__len__. simpl. apply len_map.
  - intros i tokens Hi.
    assert (Htok : map (astype d) tokens = tokens).
    { apply map_astype_id. rewrite Forall_forall in Hrange.
      apply Hrange. eapply nth_error_In, Hi. }
    exists (stored_document d cs pad tokens). unfold stored_document.
    split; [| split].
    + rewrite (read_document d rdb cs pad items i tokens Hfits Hi).
      now rewrite Htok.
    + reflexivity.
    + rewrite firstn_app, Nat.sub_diag, firstn_O, app_nil_r.
      now rewrite firstn_all.
  - intros Hsmall start stop Hstart Hstop.
    pose proof (read_range d rdb cs pad items (Z.to_nat start) (Z.to_nat stop)
                  Hfits Hsmall ltac:(unfold len in Hstop; lia)) as Hread.
    rewrite !Z2Nat.id in Hread by lia. rewrite Hread. f_equal.
    replace (Z.to_nat stop - Z.to_nat start)%nat
      with (Z.to_nat (stop - start)) by lia.
    apply map_ext_in. intros tokens Hin. unfold stored_document.
    f_equal. apply map_astype_id. rewrite Forall_forall in Hrange.
    apply Hrange. apply In_firstn_skipn in Hin.
    destruct Hin as (j & _ & Hj). eapply nth_error_In, Hj.
Qed.

Lemma round_trip_witness :
  exists (b : Builder.t) (c : corpus) (ds : Dataset.t),
    Builder.add_items (Builder.__init__ 4 0 true np_int16)
      [[1; 2; 3; 4; 5]; [-7; 9]; [6; 6; 6; 6]] = Ok b /\
    Builder.finalize b = (c, Ok tt) /\
    Dataset.__init__ c = Ok ds /\
    Dataset.__len__ ds = len [[1; 2; 3; 4; 5]; [-7; 9]; [6; 6; 6; 6]] /\
    (forall (i : nat) (tokens : list Z),
        nth_error [[1; 2; 3; 4; 5]; [-7; 9]; [6; 6; 6; 6]] i = Some tokens ->
        exists view,
          Dataset.__getitem__ ds (Z.of_nat i) = Ok view /\
          view = stored_document np_int16 4 0 tokens /\
          firstn (length tokens) view = tokens) /\
    (len (concat [[1; 2; 3; 4; 5]; [-7; 9]; [6; 6; 6; 6]])
     + 2 * 4 * len [[1; 2; 3; 4; 5]; [-7; 9]; [6; 6; 6; 6]] < 2 ^ 31 ->
     forall start stop : Z,
       0 <= start < stop ->
       stop <= len [[1; 2; 3; 4; 5]; [-7; 9]; [6; 6; 6; 6]] ->
       Dataset.getitem_slice ds (Slice (Some start) (Some stop) None)
       = Ok (map (stored_document np_int16 4 0)
               (firstn (Z.to_nat (stop - start))
                  (skipn (Z.to_nat start)
                     [[1; 2; 3; 4; 5]; [-7; 9]; [6; 6; 6; 6]])))).
Proof.
  apply (round_trip np_int16 true 4 0
           [[1; 2; 3; 4; 5]; [-7; 9]; [6; 6; 6; 6]]).
  - unfold corpus_fits. split; [lia |]. split; [reflexivity |]. split.
    + repeat constructor; vm_compute; reflexivity.
    + vm_compute. reflexivity.
  - discriminate.
  - repeat constructor; unfold in_range; simpl; lia.
Defined.

(** ** Merging a finalized corpus *)

Lemma dtype_eqb_refl (d : dtype) : dtype_eqb d d = true.
Proof. destruct d; reflexivity. Qed.

(** C9 as the code has it: when corpus B was built with the same element
    type, chunk size, pad value and retrieval-db mode as builder A, feeding
    A's items to builder A, merging B and finalizing gives the same data
    file and the same index file, byte for byte, as feeding A's items and
    then B's items to one builder and finalizing. *)
Theorem merge_equivalence (d : dtype) (rdb : bool) (cs pad : Z)
    (a_items b_items : list (list Z)) :
  corpus_fits cs pad (a_items ++ b_items) ->
  exists (bB : Builder.t) (cB : corpus) (bA bM b1 : Builder.t) (c : corpus),
    Builder.add_items (Builder.__init__ cs pad rdb d) b_items = Ok bB /\
    Builder.finalize bB = (cB, Ok tt) /\
    Builder.add_items (Builder.__init__ cs pad rdb d) a_items = Ok bA /\
    Builder.merge_file_ bA cB = Ok bM /\
    Builder.add_items (Builder.__init__ cs pad rdb d) (a_items ++ b_items)
    = Ok b1 /\
    Builder.finalize bM = (c, Ok tt) /\
    Builder.finalize b1 = (c, Ok tt).
Proof.
  intros Hfits.
  destruct (build_and_open d rdb cs pad b_items
              (corpus_fits_app_r cs pad a_items b_items Hfits))
    as (bB & cB & HbB & HcB & Hbin & Hidx & _).
  destruct (build_and_open d rdb cs pad (a_items ++ b_items) Hfits)
    as (b1 & c & Hb1 & Hc & _).
  destruct Hfits as (Hcs & Hpad & _).
  exists bB, cB.
  exists (Builder.mk
            (tobytes d (concat (map (region d rdb cs pad) a_items)))
            d cs (map (padded_size cs) a_items) rdb pad).
  exists b1, b1, c.
  split; [exact HbB |]. split; [exact HcB |].
  split; [unfold Builder.__init__; now rewrite add_items_spec |].
  split; [| split; [exact Hb1 | split; exact Hc]].
  unfold Builder.merge_file_. rewrite Hidx. cbn [bind].
  cbn [index_of Index._dtype Index._sizes Builder._dtype Builder._data_file
         Builder.chunk_size Builder._sizes Builder.retrieval_db
         Builder.pad_id].
  rewrite dtype_eqb_refl. cbn [assert bind]. rewrite Hbin.
  unfold Builder.__init__ in Hb1. rewrite add_items_spec in Hb1 by assumption.
  injection Hb1 as <-.
  rewrite !map_app, concat_app, tobytes_app. reflexivity.
Qed.

Lemma merge_equivalence_witness :
  exists (bB : Builder.t) (cB : corpus) (bA bM b1 : Builder.t) (c : corpus),
    Builder.add_items (Builder.__init__ 4 0 true np_int32) [[9; 9]; [3]] = Ok bB /\
    Builder.finalize bB = (cB, Ok tt) /\
    Builder.add_items (Builder.__init__ 4 0 true np_int32) [[1; 2; 3; 4; 5]]
    = Ok bA /\
    Builder.merge_file_ bA cB = Ok bM /\
    Builder.add_items (Builder.__init__ 4 0 true np_int32)
      ([[1; 2; 3; 4; 5]] ++ [[9; 9]; [3]])
    = Ok b1 /\
    Builder.finalize bM = (c, Ok tt) /\
    Builder.finalize b1 = (c, Ok tt).
Proof.
  apply (merge_equivalence np_int32 true 4 0 [[1; 2; 3; 4; 5]] [[9; 9]; [3]]).
  unfold corpus_fits. split; [lia |]. split; [reflexivity |]. split.
  - repeat constructor; vm_compute; reflexivity.
  - vm_compute. reflexivity.
Defined.

(** C9 as stated does not hold when only the element type and the chunk
    size match: a corpus B built in retrieval-db mode carries a reserved
    block after each document, which a builder A outside that mode copies
    into its data file; and a corpus B built with another pad value carries
    that value in its padding. *)
Lemma merge_equivalence_counterexample :
  (exists (bB : Builder.t) (cB : corpus) (bA bM b1 : Builder.t),
      Builder.add_items (Builder.__init__ 2 0 true np_int32) [[1]] = Ok bB /\
      Builder.finalize bB = (cB, Ok tt) /\
      Builder.add_items (Builder.__init__ 2 0 false np_int32) [[7]] = Ok bA /\
      Builder.merge_file_ bA cB = Ok bM /\
      Builder.add_items (Builder.__init__ 2 0 false np_int32) ([[7]] ++ [[1]])
      = Ok b1 /\
      bin_file (fst (Builder.finalize bM)) = tobytes np_int32 [7; 0; 1; 0; 0; 0] /\
      bin_file (fst (Builder.finalize b1)) = tobytes np_int32 [7; 0; 1; 0] /\
      Builder.finalize bM <> Builder.finalize b1) /\
  (exists (bB : Builder.t) (cB : corpus) (bA bM b1 : Builder.t),
      Builder.add_items (Builder.__init__ 2 9 false np_int32) [[1]] = Ok bB /\
      Builder.finalize bB = (cB, Ok tt) /\
      Builder.add_items (Builder.__init__ 2 0 false np_int32) [[7]] = Ok bA /\
      Builder.merge_file_ bA cB = Ok bM /\
      Builder.add_items (Builder.__init__ 2 0 false np_int32) ([[7]] ++ [[1]])
      = Ok b1 /\
      bin_file (fst (Builder.finalize bM)) = tobytes np_int32 [7; 0; 1; 9] /\
      bin_file (fst (Builder.finalize b1)) = tobytes np_int32 [7; 0; 1; 0] /\
      Builder.finalize bM <> Builder.finalize b1).
Proof.
  split.
  - do 5 eexists.
    split; [vm_compute; reflexivity |].
    split; [vm_compute; reflexivity |].
    split; [vm_compute; reflexivity |].
    split; [vm_compute; reflexivity |].
    split; [vm_compute; reflexivity |].
    split; [vm_compute; reflexivity |].
    split; [vm_compute; reflexivity |].
    vm_compute. discriminate.
  - do 5 eexists.
    split; [vm_compute; reflexivity |].
    split; [vm_compute; reflexivity |].
    split; [vm_compute; reflexivity |].
    split; [vm_compute; reflexivity |].
    split; [vm_compute; reflexivity |].
    split; [vm_compute; reflexivity |].
    split; [vm_compute; reflexivity |].
    vm_compute. discriminate.
Qed.

(** ** Chunk access *)

(** The comprehension of the chunk-range accessor, when every position
    lies inside the array read. *)
Lemma chunk_views_spec (np_array : list Z) (csz first : Z)
    (starting_pos : list Z) :
  0 <= csz < 2 ^ 62 ->
  Forall (fun p => 0 <= p - first < 2 ^ 62 /\ p - first + csz <= len np_array)
    starting_pos ->
  Dataset.chunk_views np_array csz first starting_pos
  = Ok (map (fun p => firstn (Z.to_nat csz)
                        (skipn (Z.to_nat (p - first)) np_array))
          starting_pos).
Proof.
  intros Hcsz H. induction H as [| p rest [Hp Hlen] _ IH]; [reflexivity |].
  cbn [Dataset.chunk_views map].
  rewrite (astype_id np_int64 (p - first)) by (apply in_range_int64; lia).
  rewrite np_int64_add_small by lia. cbn [bind]. rewrite IH. cbn [bind].
  rewrite getslice_inside by lia.
  do 3 f_equal. lia.
Qed.

Section ChunkAccess.

Variable d : dtype.
Variable rdb : bool.
Variable cs : Z.
Variable elems : list Z.
Variable addrs : list Z.
Variables (n : Z) (sizes pointers chunk_ids : list Z).

Let reserved : Z := if rdb then cs else 0.

Let ds : Dataset.t :=
  Dataset.mk
    (Index.mk d (itemsize d) n cs (len addrs) rdb
       sizes pointers chunk_ids addrs)
    (tobytes d elems).

(** The elements of the data file a view of [count] elements at byte
    address [a] shows. *)
Let view (count a : Z) : list Z :=
  map (astype d)
    (firstn (Z.to_nat count) (skipn (Z.to_nat (a / itemsize d)) elems)).

Hypothesis Hcs : 0 < cs.
Hypothesis Hsmall : itemsize d * len elems < 2 ^ 62.
Hypothesis Haddrs :
  Forall (fun a => 0 <= a /\ a mod itemsize d = 0 /\
                   a + (cs + reserved) * itemsize d
                   <= itemsize d * len elems) addrs.
Hypothesis Hsorted :
  forall (i j : nat) (x y : Z),
    (i <= j)%nat -> nth_error addrs i = Some x ->
    nth_error addrs j = Some y -> x <= y.

Lemma addr_facts (c : nat) (a : Z) :
  nth_error addrs c = Some a ->
  0 <= a /\ a = itemsize d * (a / itemsize d) /\ 0 <= a / itemsize d /\
  a / itemsize d + (cs + reserved) <= len elems.
Proof.
  intros Hc. apply nth_error_In in Hc.
  rewrite Forall_forall in Haddrs. destruct (Haddrs a Hc) as (H0 & Hm & Hle).
  pose proof (itemsize_pos d) as Hd.
  assert (Ha : a = itemsize d * (a / itemsize d))
    by (apply Z.div_exact; lia).
  assert (Hq : 0 <= a / itemsize d) by (apply Z.div_pos; lia).
  repeat split; try assumption. nia.
Qed.

Lemma view_read (count a : Z) (c : nat) :
  nth_error addrs c = Some a ->
  0 <= count <= cs + reserved ->
  frombuffer (tobytes d elems) d count a = Ok (view count a).
Proof.
  intros Hc Hcount. destruct (addr_facts c a Hc) as (H0 & Ha & Hq & Hle).
  unfold view.
  rewrite <- (Z2Nat.id count) at 1 by lia.
  rewrite Ha at 1. rewrite <- (Z2Nat.id (a / itemsize d)) at 1 by lia.
  apply frombuffer_elems.
  - unfold len in Hle. lia.
  - rewrite len_tobytes. lia.
Qed.

(** The scalar accessor. *)
Lemma get_chunk_scalar (c : nat) (a : Z) :
  nth_error addrs c = Some a ->
  Dataset.get_chunk ds (Z.of_nat c) = Ok (view (cs + reserved) a).
Proof.
  intros Hc. unfold Dataset.get_chunk, Index.get_chunk_address. simpl.
  rewrite (getitem_nonneg addrs (Z.of_nat c) a)
    by (try lia; now rewrite Nat2Z.id).
  cbn [bind].
  replace (if rdb then cs * 2 else cs) with (cs + reserved)
    by (unfold reserved; destruct rdb; lia).
  apply (view_read _ _ c Hc). unfold reserved. destruct rdb; lia.
Qed.

(** The range accessor. *)
Lemma get_chunk_range (start stop : nat) (force_no_padding : bool) :
  (start < stop <= length addrs)%nat ->
  let csz := if rdb && negb force_no_padding then cs * 2 else cs in
  Dataset.get_chunk_slice ds
    (Slice (Some (Z.of_nat start)) (Some (Z.of_nat stop)) None)
    force_no_padding
  = Ok (map (view csz) (firstn (stop - start) (skipn start addrs))).
Proof.
  intros Hrange csz.
  assert (Hcsz : 0 < csz <= cs + reserved).
  { unfold csz, reserved. destruct rdb, force_no_padding; simpl; lia. }
  pose proof (itemsize_pos d) as Hd.
  pose proof (len_nonneg elems) as He.
  destruct (nth_error addrs start) as [a0 |] eqn:H0;
    [| apply nth_error_None in H0; lia].
  destruct (nth_error addrs (stop - 1)) as [al |] eqn:Hl;
    [| apply nth_error_None in Hl; lia].
  destruct (addr_facts start a0 H0) as (H0a & H0b & H0c & H0d).
  destruct (addr_facts (stop - 1) al Hl) as (Hla & Hlb & Hlc & Hld).
  assert (Hle : a0 <= al)
    by (apply (Hsorted start (stop - 1)); [lia | assumption | assumption]).
  assert (Hqle : a0 / itemsize d <= al / itemsize d)
    by (apply Z.div_le_mono; lia).
  unfold Dataset.get_chunk_slice, Dataset.chunks, Index.get_chunk_address.
  cbn [Dataset._index Dataset._bin_buffer ds Index.num_chunks
         Index.retrieval_db Index.chunk_size Index._chunk_address
         Index._dtype_size Index._dtype].
  rewrite slice_indices_unit by (unfold len; lia). cbn [bind].
  change (negb (1 =? 1)) with false. cbv iota. fold csz.
  rewrite (getitem_nonneg addrs (Z.of_nat start) a0)
    by (try lia; now rewrite Nat2Z.id).
  cbn [bind].
  rewrite (getitem_nonneg addrs (Z.of_nat stop - 1) al)
    by (try lia; now replace (Z.to_nat (Z.of_nat stop - 1))
                       with (stop - 1)%nat by lia).
  cbn [bind].
  rewrite np_int64_add_small by nia. cbn [bind].
  rewrite array_slice_unit by (unfold len; lia). cbn [bind].
  replace (Z.to_nat (Z.of_nat stop - Z.of_nat start))
    with (stop - start)%nat by lia.
  rewrite Nat2Z.id.
  assert (Htotal : astype np_int64 (al + csz * itemsize d - a0) / itemsize d
                   = al / itemsize d - a0 / itemsize d + csz).
  { rewrite astype_id by (apply in_range_int64; nia).
    replace (al + csz * itemsize d - a0)
      with ((al / itemsize d - a0 / itemsize d + csz) * itemsize d) by nia.
    apply Z.div_mul. lia. }
  rewrite Htotal.
  set (total_size := al / itemsize d - a0 / itemsize d + csz).
  assert (Hread : frombuffer (tobytes d elems) d total_size a0
                  = Ok (view total_size a0)).
  { unfold view.
    rewrite <- (Z2Nat.id total_size) at 1 by (unfold total_size; lia).
    rewrite H0b at 1.
    rewrite <- (Z2Nat.id (a0 / itemsize d)) at 1 by lia.
    apply frombuffer_elems.
    - unfold len in Hld. unfold total_size. lia.
    - rewrite len_tobytes. lia. }
  rewrite Hread. cbn [bind].
  set (address := firstn (stop - start) (skipn start addrs)).
  assert (Hhead : getitem (map (fun a => a / itemsize d) address) 0
                  = Ok (a0 / itemsize d)).
  { apply getitem_nonneg; [lia |]. unfold address.
    rewrite (skipn_nth_cons addrs start a0 H0).
    destruct (stop - start)%nat as [| m] eqn:Hm; [lia |]. reflexivity. }
  rewrite Hhead. cbn [bind].
  assert (Hin : forall a, In a address ->
                0 <= a /\ a = itemsize d * (a / itemsize d) /\
                a0 / itemsize d <= a / itemsize d <= al / itemsize d).
  { intros a Ha. unfold address in Ha.
    apply In_firstn_skipn in Ha. destruct Ha as (j & Hj & Hnth).
    destruct (addr_facts (start + j) a Hnth) as (Ha0 & Hab & _).
    assert (a0 <= a)
      by (apply (Hsorted start (start + j)); [lia | assumption | assumption]).
    assert (a <= al)
      by (apply (Hsorted (start + j) (stop - 1));
          [lia | assumption | assumption]).
    repeat split; try assumption; apply Z.div_le_mono; lia. }
  assert (Hlenview : len (view total_size a0) = total_size).
  { unfold view. rewrite len_map. unfold len.
    rewrite length_firstn, length_skipn.
    unfold len in Hld. unfold total_size. lia. }
  rewrite chunk_views_spec.
  - f_equal. rewrite map_map. apply map_ext_in. intros a Ha.
    destruct (Hin a Ha) as (Ha0 & Hab & Hlo & Hhi).
    unfold view. rewrite skipn_map, firstn_map. f_equal.
    rewrite firstn_skipn_comm' by (unfold total_size; lia).
    rewrite skipn_skipn. do 2 f_equal. lia.
  - unfold len in *. nia.
  - apply Forall_map, Forall_forall. intros a Ha.
    destruct (Hin a Ha) as (Ha0 & Hab & Hlo & Hhi).
    rewrite Hlenview. unfold total_size. split; [nia | lia].
Qed.

End ChunkAccess.

(** *** The chunk addresses of a built corpus *)

Lemma nondecreasing_app (l1 l2 : list Z) :
  nondecreasing l1 -> nondecreasing l2 ->
  (forall x y, In x l1 -> In y l2 -> x <= y) ->
  nondecreasing (l1 ++ l2).
Proof.
  intros H1 H2 H12 i j x y Hij Hi Hj.
  destruct (Nat.lt_ge_cases j (length l1)) as [Hj1 | Hj2].
  - rewrite nth_error_app1 in Hi, Hj by lia. exact (H1 i j x y Hij Hi Hj).
  - rewrite nth_error_app2 in Hj by lia.
    destruct (Nat.lt_ge_cases i (length l1)) as [Hi1 | Hi2].
    + rewrite nth_error_app1 in Hi by lia.
      apply H12; eapply nth_error_In; eassumption.
    + rewrite nth_error_app2 in Hi by lia.
      apply (H2 (i - length l1)%nat (j - length l1)%nat); [lia | | ];
        assumption.
Qed.

Lemma chunk_run_nth (d : dtype) (cs a : Z) (n i : nat) (x : Z) :
  nth_error (chunk_run d cs a n) i = Some x ->
  (i < n)%nat /\ x = a + Z.of_nat i * (cs * itemsize d).
Proof.
  intros H.
  assert (Hi : (i < n)%nat).
  { assert (Hlt : (i < length (chunk_run d cs a n))%nat)
      by (apply nth_error_Some; congruence).
    now rewrite chunk_run_length in Hlt. }
  split; [exact Hi |]. unfold chunk_run in H.
  rewrite nth_error_map, nth_error_seq in H.
  destruct (Nat.ltb_spec i n) as [_ | Hge]; [| lia].
  simpl in H. now injection H as <-.
Qed.

Lemma chunk_run_nondecreasing (d : dtype) (cs a : Z) (n : nat) :
  0 < cs -> nondecreasing (chunk_run d cs a n).
Proof.
  intros Hcs i j x y Hij Hi Hj.
  apply chunk_run_nth in Hi, Hj. destruct Hi as [_ ->], Hj as [_ ->].
  pose proof (itemsize_pos d).
  assert (H0 : 0 <= cs * itemsize d) by nia.
  apply Z.add_le_mono_l, Z.mul_le_mono_nonneg_r; lia.
Qed.

Lemma chunk_addresses_nondecreasing (d : dtype) (rdb : bool) (cs a : Z)
    (sizes : list Z) :
  0 < cs ->
  Forall (fun size => 0 <= size < 2 ^ 31 /\ size mod cs = 0) sizes ->
  nondecreasing (chunk_addresses d rdb cs a sizes).
Proof.
  intros Hcs H. revert a.
  induction H as [| size sizes [Hs Hm] Hall IH]; intros a.
  - intros i j x y _ Hi. destruct i; discriminate.
  - cbn [chunk_addresses]. apply nondecreasing_app.
    + now apply chunk_run_nondecreasing.
    + apply IH.
    + intros x y Hx Hy.
      apply In_nth_error in Hx. destruct Hx as (k & Hk).
      apply chunk_run_nth in Hk. destruct Hk as [Hk ->].
      pose proof (chunk_addresses_bounds d rdb cs
                    (a + doc_span d rdb cs size) sizes Hcs Hall) as Hb.
      rewrite Forall_forall in Hb. destruct (Hb y Hy) as [Hy1 _].
      pose proof (itemsize_pos d) as Hd.
      assert (Hq : 0 <= size / cs) by (apply Z.div_pos; lia).
      assert (Hsz : size = cs * (size / cs)) by (apply Z.div_exact; lia).
      assert (Hk' : Z.of_nat k + 1 <= size / cs) by lia.
      unfold doc_span in Hy1. destruct rdb; nia.
Qed.

Lemma chunk_addresses_aligned (d : dtype) (rdb : bool) (cs a : Z)
    (sizes : list Z) :
  a mod itemsize d = 0 ->
  Forall (fun x => x mod itemsize d = 0) (chunk_addresses d rdb cs a sizes).
Proof.
  pose proof (itemsize_pos d) as Hd.
  revert a. induction sizes as [| size sizes IH]; intros a Ha; simpl.
  - constructor.
  - apply Forall_app. split.
    + unfold chunk_run. apply Forall_map, Forall_forall. intros k _.
      replace (a + Z.of_nat k * (cs * itemsize d))
        with (a + (Z.of_nat k * cs) * itemsize d) by ring.
      now rewrite Z.mod_add by lia.
    + apply IH. unfold doc_span.
      replace (a + (size * itemsize d + (if rdb then cs * itemsize d else 0)))
        with (a + (size + (if rdb then cs else 0)) * itemsize d)
        by (destruct rdb; ring).
      now rewrite Z.mod_add by lia.
Qed.

(** C6: in a corpus built from documents that fit (at least one, so that
    the data file can be mapped), the range accessor
    over the chunk ids [start, stop), [0 <= start < stop <= num_chunks],
    returns [stop - start] views, the [j]-th being what the scalar accessor
    returns for chunk [start + j] ([chunk_size] elements, [2 * chunk_size]
    in retrieval-db mode); with [force_no_padding] in retrieval-db mode it
    is the first [chunk_size] elements of that.  [start] may be positive. *)
Theorem chunk_range_equals_scalar (d : dtype) (rdb : bool) (cs pad : Z)
    (items : list (list Z)) :
  corpus_fits cs pad items ->
  items <> [] ->
  exists (b : Builder.t) (c : corpus) (ds : Dataset.t),
    Builder.add_items (Builder.__init__ cs pad rdb d) items = Ok b /\
    Builder.finalize b = (c, Ok tt) /\
    Dataset.__init__ c = Ok ds /\
    forall (start stop : Z) (force_no_padding : bool),
      0 <= start < stop ->
      stop <= Dataset.chunks ds ->
      exists sents,
        Dataset.get_chunk_slice ds (Slice (Some start) (Some stop) None)
          force_no_padding
        = Ok sents /\
        len sents = stop - start /\
        forall j : Z,
          0 <= j < stop - start ->
          exists chunk,
            Dataset.get_chunk ds (start + j) = Ok chunk /\
            len chunk = (if rdb then 2 * cs else cs) /\
            nth_error sents (Z.to_nat j)
            = Some (if rdb && force_no_padding
                    then firstn (Z.to_nat cs) chunk
                    else chunk).
Proof.
  intros Hfits Hne.
  destruct (build_and_open d rdb cs pad items Hfits)
    as (b & c & Hb & Hc & _ & _ & Hopen).
  exists b, c. eexists. split; [exact Hb |]. split; [exact Hc |].
  split; [exact (Hopen Hne) |]. clear Hopen.
  pose proof (corpus_fits_index d rdb cs pad items Hfits) as (_ & Hall & _).
  pose proof (data_length d rdb cs pad items Hfits) as Hdata.
  destruct Hfits as (Hcs & Hpad & Hlen & Htot).
  set (sizes := map (padded_size cs) items) in *.
  set (elems := concat (map (region d rdb cs pad) items)) in *.
  set (addrs := chunk_addresses d rdb cs 0 sizes).
  pose proof (itemsize_pos d) as Hd.
  assert (Hbytes : itemsize d * len elems
                   = total (map (doc_span d rdb cs) sizes))
    by (apply len_concat_regions; assumption).
  assert (Hsmall : itemsize d * len elems < 2 ^ 62).
  { rewrite Hbytes. unfold sizes.
    pose proof (total_spans_le d rdb cs items Hcs). lia. }
  assert (Haddrs : Forall (fun a => 0 <= a /\ a mod itemsize d = 0 /\
                                    a + (cs + (if rdb then cs else 0))
                                        * itemsize d
                                    <= itemsize d * len elems) addrs).
  { pose proof (chunk_addresses_bounds d rdb cs 0 sizes Hcs Hall) as Hb1.
    pose proof (chunk_addresses_aligned d rdb cs 0 sizes eq_refl) as Hb2.
    rewrite Forall_forall in *. intros a Ha.
    destruct (Hb1 a Ha) as [Ha1 Ha2]. specialize (Hb2 a Ha).
    rewrite Hbytes. repeat split; try assumption.
    destruct rdb; lia. }
  pose proof (chunk_addresses_nondecreasing d rdb cs 0 sizes Hcs Hall)
    as Hsorted.
  fold addrs in Hsorted.
  intros start stop fnp Hstart Hstop.
  unfold Dataset.chunks in Hstop. cbn [Dataset._index index_of
                                         Index.num_chunks] in Hstop.
  fold sizes addrs in Hstop. unfold len in Hstop.
  pose proof (get_chunk_range d rdb cs elems addrs (len sizes) sizes
                (starts 0 (map (doc_span d rdb cs) sizes))
                (starts 0 (map (fun size => size / cs) sizes))
                Hcs Hsmall Haddrs Hsorted
                (Z.to_nat start) (Z.to_nat stop) fnp ltac:(lia)) as Hrange.
  cbv zeta in Hrange. rewrite !Z2Nat.id in Hrange by lia.
  eexists. split; [exact Hrange |]. split.
  - rewrite len_map. unfold len. rewrite length_firstn, length_skipn. lia.
  - intros j Hj.
    destruct (nth_error addrs (Z.to_nat (start + j))) as [a |] eqn:Ha;
      [| apply nth_error_None in Ha; lia].
    pose proof (get_chunk_scalar d rdb cs elems addrs (len sizes) sizes
                  (starts 0 (map (doc_span d rdb cs) sizes))
                  (starts 0 (map (fun size => size / cs) sizes))
                  Hcs Hsmall Haddrs (Z.to_nat (start + j)) a Ha) as Hscalar.
    rewrite Z2Nat.id in Hscalar by lia.
    eexists. split; [exact Hscalar |].
    destruct (addr_facts d rdb cs elems addrs Hcs Haddrs
                (Z.to_nat (start + j)) a Ha)
      as (Ha0 & Hab & Hq & Hle).
    split.
    + rewrite len_map. unfold len. rewrite length_firstn, length_skipn.
      unfold len in Hle. destruct rdb; lia.
    + rewrite nth_error_map, nth_error_firstn.
      destruct (Nat.ltb_spec (Z.to_nat j) (Z.to_nat stop - Z.to_nat start))
        as [_ | Hge]; [| lia].
      rewrite nth_error_skipn.
      replace (Z.to_nat start + Z.to_nat j)%nat with (Z.to_nat (start + j))
        by lia.
      rewrite Ha. cbn [option_map]. f_equal.
      destruct rdb, fnp; cbn [andb negb].
      * rewrite firstn_map, firstn_firstn. do 2 f_equal. lia.
      * do 2 f_equal. lia.
      * do 2 f_equal. lia.
      * do 2 f_equal. lia.
Qed.

Lemma chunk_range_equals_scalar_witness :
  exists (b : Builder.t) (c : corpus) (ds : Dataset.t),
    Builder.add_items (Builder.__init__ 4 0 true np_int32)
      [[1; 2; 3; 4; 5]; [9; 9]] = Ok b /\
    Builder.finalize b = (c, Ok tt) /\
    Dataset.__init__ c = Ok ds /\
    forall (start stop : Z) (force_no_padding : bool),
      0 <= start < stop ->
      stop <= Dataset.chunks ds ->
      exists sents,
        Dataset.get_chunk_slice ds (Slice (Some start) (Some stop) None)
          force_no_padding
        = Ok sents /\
        len sents = stop - start /\
        forall j : Z,
          0 <= j < stop - start ->
          exists chunk,
            Dataset.get_chunk ds (start + j) = Ok chunk /\
            len chunk = (if true then 2 * 4 else 4) /\
            nth_error sents (Z.to_nat j)
            = Some (if true && force_no_padding
                    then firstn (Z.to_nat 4) chunk
                    else chunk).
Proof.
  apply (chunk_range_equals_scalar np_int32 true 4 0 [[1; 2; 3; 4; 5]; [9; 9]]).
  - unfold corpus_fits. split; [lia |]. split; [reflexivity |]. split.
    + repeat constructor; vm_compute; reflexivity.
    + vm_compute. reflexivity.
  - discriminate.
Defined.

(** * Further properties of the module *)

(** ** Opening an index file *)

Lemma bytes_eqb_eq (a b : bytes) : Index.bytes_eqb a b = true -> a = b.
Proof.
  unfold Index.bytes_eqb. revert b.
  induction a as [| x a IH]; intros [| y b] H; simpl in H;
    try reflexivity; try discriminate.
  apply andb_true_iff in H. destruct H as [Hlen H].
  apply andb_true_iff in H. destruct H as [Hxy H].
  apply Z.eqb_eq in Hxy. subst y. f_equal. apply IH.
  apply andb_true_iff. split; assumption.
Qed.

(** X2: what [Index.__init__] rejects.  A file that does not start with
    the nine magic bytes fails the format assertion; so does a file with
    the magic and a version other than 1; a file that ends inside the
    version field raises [struct.error]; a dtype code outside the table
    (0, or above 8) is a [KeyError]; and dtype code 6, whose type is
    Python's [float], is an [AttributeError], [float] having no
    [itemsize]. *)
Theorem index_header_validation :
  (forall file : bytes,
      firstn 9 file <> _HDR_MAGIC ->
      Index.__init__ file = Raise AssertionError) /\
  (forall (version : Z) (rest : bytes),
      0 <= version < 2 ^ 64 -> version <> 1 ->
      Index.__init__ (_HDR_MAGIC ++ le_bytes 8 version ++ rest)
      = Raise AssertionError) /\
  (forall rest : bytes,
      (length rest < 8)%nat ->
      Index.__init__ (_HDR_MAGIC ++ rest) = Raise StructError) /\
  (forall (k : Z) (rest : bytes),
      k = 0 \/ 8 < k < 256 ->
      Index.__init__ (_HDR_MAGIC ++ le_bytes 8 1 ++ le_bytes 1 k ++ rest)
      = Raise KeyError) /\
  (forall rest : bytes,
      Index.__init__ (_HDR_MAGIC ++ le_bytes 8 1 ++ le_bytes 1 6 ++ rest)
      = Raise AttributeError).
Proof.
  split; [| split; [| split; [| split]]].
  - intros file Hmagic. unfold Index.__init__, Index.stream_read.
    cbn [skipn]. cbv beta iota zeta.
    destruct (Index.bytes_eqb _HDR_MAGIC (firstn 9 file)) eqn:E.
    + apply bytes_eqb_eq in E. congruence.
    + reflexivity.
  - intros version rest Hv Hne. unfold Index.__init__.
    change (Index.stream_read (_HDR_MAGIC ++ le_bytes 8 version ++ rest) 0 9)
      with (_HDR_MAGIC, 9%nat).
    cbv beta iota.
    change (Index.bytes_eqb _HDR_MAGIC _HDR_MAGIC) with true.
    cbn [assert bind].
    change (Index.stream_read (_HDR_MAGIC ++ le_bytes 8 version ++ rest) 9 8)
      with (le_bytes 8 version, 17%nat).
    cbv beta iota. rewrite unpack_Q_le_bytes by exact Hv. cbn [bind].
    destruct (Z.eqb_spec 1 version) as [H1 | _]; [congruence |].
    reflexivity.
  - intros rest Hlen. unfold Index.__init__.
    change (Index.stream_read (_HDR_MAGIC ++ rest) 0 9)
      with (_HDR_MAGIC, 9%nat).
    cbv beta iota.
    change (Index.bytes_eqb _HDR_MAGIC _HDR_MAGIC) with true.
    cbn [assert bind].
    change (Index.stream_read (_HDR_MAGIC ++ rest) 9 8)
      with (firstn 8 rest, (9 + length (firstn 8 rest))%nat).
    cbv beta iota. unfold unpack_Q.
    rewrite firstn_all2 by lia.
    destruct (Nat.eqb_spec (length rest) 8) as [H8 | _]; [lia |].
    reflexivity.
  - intros k rest Hk. unfold Index.__init__.
    set (file := _HDR_MAGIC ++ le_bytes 8 1 ++ le_bytes 1 k ++ rest).
    change (Index.stream_read file 0 9) with (_HDR_MAGIC, 9%nat).
    cbv beta iota.
    change (Index.bytes_eqb _HDR_MAGIC _HDR_MAGIC) with true.
    cbn [assert bind].
    change (Index.stream_read file 9 8) with (le_bytes 8 1, 17%nat).
    cbv beta iota. rewrite (unpack_Q_le_bytes 1) by lia. cbn [bind].
    change (1 =? 1) with true. cbn [assert bind].
    change (Index.stream_read file 17 1) with (le_bytes 1 k, 18%nat).
    cbv beta iota. rewrite unpack_B_le_bytes by lia. cbn [bind].
    assert (Hd : dtypes k = Raise KeyError).
    { destruct Hk as [-> | Hk]; [reflexivity |].
      unfold dtypes.
      repeat match goal with
             | |- context [match ?x with _ => _ end] =>
                 destruct x; try reflexivity; try lia
             end. }
    rewrite Hd. reflexivity.
  - intros rest. reflexivity.
Qed.

Lemma index_header_validation_witness :
  Index.__init__ [1; 2; 3] = Raise AssertionError /\
  Index.__init__ (_HDR_MAGIC ++ le_bytes 8 2 ++ [4]) = Raise AssertionError /\
  Index.__init__ (_HDR_MAGIC ++ [1; 0; 0]) = Raise StructError /\
  Index.__init__ (_HDR_MAGIC ++ le_bytes 8 1 ++ le_bytes 1 9 ++ [])
  = Raise KeyError /\
  Index.__init__ (_HDR_MAGIC ++ le_bytes 8 1 ++ le_bytes 1 6 ++ [0; 0])
  = Raise AttributeError.
Proof.
  destruct index_header_validation as (H1 & H2 & H3 & H4 & H5).
  split; [apply H1; discriminate |].
  split; [apply H2; lia |].
  split; [apply H3; simpl; lia |].
  split; [apply H4; right; lia |].
  apply H5.
Defined.

(** ** Slices with a step *)

(** X6: the range accessors take contiguous ranges only: a slice with a
    step other than 1 makes both the item accessor and the chunk accessor
    raise [ValueError], on every dataset. *)
Theorem strided_slices_rejected (ds : Dataset.t) (start stop : option Z)
    (step : Z) (force_no_padding : bool) :
  step <> 1 ->
  Dataset.getitem_slice ds (Slice start stop (Some step)) = Raise ValueError /\
  Dataset.get_chunk_slice ds (Slice start stop (Some step)) force_no_padding
  = Raise ValueError.
Proof.
  intros Hstep.
  unfold Dataset.getitem_slice, Dataset.get_chunk_slice, slice_indices.
  cbn [slice_step slice_start slice_stop].
  destruct (Z.eqb_spec step 0) as [H0 | H0]; [split; reflexivity |].
  cbn [bind]. destruct (Z.eqb_spec step 1) as [H1 | _]; [contradiction |].
  split; reflexivity.
Qed.

Lemma strided_slices_rejected_witness :
  Dataset.getitem_slice (Dataset.mk scenario_index scenario_data_file)
    (Slice (Some 0) (Some 2) (Some 2)) = Raise ValueError /\
  Dataset.get_chunk_slice (Dataset.mk scenario_index scenario_data_file)
    (Slice (Some 0) (Some 2) (Some 2)) false = Raise ValueError.
Proof.
  apply (strided_slices_rejected
           (Dataset.mk scenario_index scenario_data_file)
           (Some 0) (Some 2) 2 false).
  lia.
Defined.

(** ** The builder's error cases *)

(** X12: [add_item] needs a positive chunk size: with chunk size 0 it
    raises [ZeroDivisionError], and with a negative chunk size the pad
    width is negative and [np.pad] raises [ValueError], for every
    document. *)
Theorem add_item_bad_chunk_size (self : Builder.t) (tensor : list Z) :
  Builder.chunk_size self <= 0 ->
  Builder.add_item self tensor
  = Raise (if Builder.chunk_size self =? 0
           then ZeroDivisionError else ValueError).
Proof.
  intros Hcs. unfold Builder.add_item.
  destruct (Z.eqb_spec (Builder.chunk_size self) 0) as [H0 | H0];
    [reflexivity |].
  set (cs := Builder.chunk_size self) in *.
  set (n := len (map (astype (Builder._dtype self)) tensor)).
  assert (Hm : cs < n mod cs <= 0) by (apply Z.mod_neg_bound; lia).
  unfold Builder.np_pad.
  destruct (Builder.retrieval_db self).
  - destruct (Z.ltb_spec (cs - n mod cs + cs) 0) as [_ | H]; [reflexivity | lia].
  - destruct (Z.ltb_spec (cs - n mod cs) 0) as [_ | H]; [reflexivity | lia].
Qed.

Lemma add_item_bad_chunk_size_witness :
  Builder.add_item (Builder.__init__ (-4) 0 true np_int32) [1; 2; 3]
  = Raise ValueError.
Proof.
  apply (add_item_bad_chunk_size (Builder.__init__ (-4) 0 true np_int32)
           [1; 2; 3]).
  simpl. lia.
Defined.




(** ** The index file: writer and reader *)

(** X1: the index round trip.  For sizes the format can hold, the writer
    succeeds and the reader, opening the file it wrote, holds what the
    writer was given and computed: element type, number of documents,
    chunk size, mode flag, the sizes, the pointers of [_get_pointers], the
    chunk ids and chunk addresses of [_get_chunk_id_and_address], and as
    number of chunks the sum of [size / chunk_size] over the documents.
    The file is 43 header bytes, 20 bytes per document and 8 per chunk. *)
Theorem index_round_trip (d : dtype) (rdb : bool) (cs : Z) (sizes : list Z) :
  index_fits d rdb cs sizes ->
  exists (file : bytes) (index : Index.t) (chunk_ids chunk_address : list Z),
    (_ <~ Writer.__enter__ d ;; Writer.write d rdb sizes cs) []
    = (file, Ok tt) /\
    Index.__init__ file = Ok index /\
    Writer._get_chunk_id_and_address d rdb sizes cs
    = Ok (chunk_ids, chunk_address) /\
    index = Index.mk d (itemsize d) (len sizes) cs (len chunk_address) rdb
              sizes (Writer._get_pointers d rdb sizes cs)
              chunk_ids chunk_address /\
    Index.num_chunks index = total (map (fun size => size / cs) sizes) /\
    len file = 43 + 20 * len sizes + 8 * Index.num_chunks index.
Proof.
  intros Hfits.
  destruct Hfits as (Hcs & Hall & Hb).
  pose proof (len_nonneg sizes) as Hn.
  pose proof (total_nonneg _ (spans_nonneg d rdb cs sizes Hcs Hall)) as Ht.
  pose proof (total_quotients_le d rdb cs sizes Hcs Hall) as Hq.
  pose proof (total_nonneg _ (quotients_nonneg cs sizes Hcs Hall)) as Hq0.
  pose proof (chunk_addresses_length d rdb cs 0 sizes Hcs Hall) as Hlen.
  assert (Hc : Writer._get_chunk_id_and_address d rdb sizes cs
               = Ok (starts 0 (map (fun size => size / cs) sizes),
                     chunk_addresses d rdb cs 0 sizes)).
  { unfold Writer._get_chunk_id_and_address.
    rewrite (chunk_id_loop_aligned d rdb cs sizes Hcs); [reflexivity |].
    eapply Forall_impl; [| exact Hall]. cbv beta. intros s Hs. lia. }
  destruct (index_written d rdb cs sizes (conj Hcs (conj Hall Hb)))
    as (file & Hw & Hinit).
  exists file, (index_of d rdb cs sizes),
    (starts 0 (map (fun size => size / cs) sizes)),
    (chunk_addresses d rdb cs 0 sizes).
  split; [exact Hw |]. split; [exact Hinit |]. split; [exact Hc |].
  split; [unfold index_of; now rewrite get_pointers_spec |].
  split; [exact Hlen |].
  (* the length of the file *)
  assert (Himg : file
                 = index_image d cs rdb sizes (Writer._get_pointers d rdb sizes cs)
                     (starts 0 (map (fun size => size / cs) sizes))
                     (chunk_addresses d rdb cs 0 sizes)).
  { assert (Hw' : (_ <~ Writer.__enter__ d ;; Writer.write d rdb sizes cs) []
                  = (index_image d cs rdb sizes
                       (Writer._get_pointers d rdb sizes cs)
                       (starts 0 (map (fun size => size / cs) sizes))
                       (chunk_addresses d rdb cs 0 sizes), Ok tt)).
    { apply write_image with (1 := Hc); try lia.
      - eapply Forall_impl; [| exact Hall]. cbv beta. intros s Hs.
        apply in_range_int32. lia.
      - rewrite get_pointers_spec.
        eapply Forall_impl;
          [| apply starts_bounds, (spans_nonneg d rdb cs sizes Hcs Hall)].
        cbv beta. intros p Hp. apply in_range_int64. lia.
      - eapply Forall_impl;
          [| apply starts_bounds, (quotients_nonneg cs sizes Hcs Hall)].
        cbv beta. intros p Hp. apply in_range_int64. lia.
      - eapply Forall_impl;
          [| apply (chunk_addresses_bounds d rdb cs 0 sizes Hcs Hall)].
        cbv beta. intros x [Hx1 Hx2]. apply in_range_int64.
        pose proof (itemsize_pos d). destruct rdb; nia. }
    rewrite Hw in Hw'. now injection Hw'. }
  rewrite Himg. unfold index_image. rewrite !len_app, !len_tobytes.
  change (len (index_header d (len sizes) cs
                 (len (chunk_addresses d rdb cs 0 sizes)) rdb)) with 43.
  rewrite get_pointers_spec. unfold len at 2 3.
  rewrite !starts_length, !length_map. fold (len sizes).
  cbn [index_of Index.num_chunks].
  change (itemsize np_int32) with 4. change (itemsize np_int64) with 8. lia.
Qed.

Lemma index_round_trip_witness :
  exists (file : bytes) (index : Index.t) (chunk_ids chunk_address : list Z),
    (_ <~ Writer.__enter__ np_int16 ;; Writer.write np_int16 true [8; 4; 0] 4) []
    = (file, Ok tt) /\
    Index.__init__ file = Ok index /\
    Writer._get_chunk_id_and_address np_int16 true [8; 4; 0] 4
    = Ok (chunk_ids, chunk_address) /\
    index = Index.mk np_int16 (itemsize np_int16) (len [8; 4; 0]) 4
              (len chunk_address) true
              [8; 4; 0] (Writer._get_pointers np_int16 true [8; 4; 0] 4)
              chunk_ids chunk_address /\
    Index.num_chunks index = total (map (fun size => size / 4) [8; 4; 0]) /\
    len file = 43 + 20 * len [8; 4; 0] + 8 * Index.num_chunks index.
Proof.
  apply (index_round_trip np_int16 true 4 [8; 4; 0]).
  unfold index_fits. split; [lia |]. split.
  - repeat constructor; try lia; reflexivity.
  - vm_compute. reflexivity.
Defined.

(** ** [get] and the item accessor *)

Lemma decode_elems_in_range (d : dtype) (n : nat) (buf : bytes) :
  Forall (in_range d) (decode_elems d n buf).
Proof.
  revert buf. induction n as [| n IH]; intros buf; simpl; constructor.
  - apply astype_in_range.
  - apply IH.
Qed.

Lemma frombuffer_in_range (buf : bytes) (d : dtype) (count offset : Z)
    (l : list Z) :
  frombuffer buf d count offset = Ok l -> Forall (in_range d) l.
Proof.
  unfold frombuffer. intros H.
  destruct (negb _); [discriminate |].
  destruct (_ || _); [discriminate |].
  destruct (count <? 0).
  - destruct (negb _); [discriminate |]. injection H as <-.
    apply decode_elems_in_range.
  - destruct (_ <? _); [discriminate |]. injection H as <-.
    apply decode_elems_in_range.
Qed.

Lemma getitem_In {A : Type} (l : list A) (i : Z) (x : A) :
  getitem l i = Ok x -> In x l.
Proof.
  unfold getitem. cbv zeta. intros H.
  destruct (_ <? 0); [discriminate |].
  destruct (nth_error l _) as [y |] eqn:E; [| discriminate].
  injection H as <-. eapply nth_error_In, E.
Qed.

(** The pointers of an opened index are 64-bit integers. *)
Lemma init_pointers_in_range (file : bytes) (index : Index.t) :
  Index.__init__ file = Ok index ->
  Forall (in_range np_int64) (Index._pointers index).
Proof.
  intros H. unfold Index.__init__ in H.
  destruct (Index.stream_read file 0 9) as [magic p1].
  apply bind_Ok in H. destruct H as (_ & _ & H).
  destruct (Index.stream_read file p1 8) as [b2 p2].
  apply bind_Ok in H. destruct H as (version & _ & H).
  apply bind_Ok in H. destruct H as (_ & _ & H).
  destruct (Index.stream_read file p2 1) as [b3 p3].
  apply bind_Ok in H. destruct H as (dtype_code & _ & H).
  apply bind_Ok in H. destruct H as (_dtype & _ & H).
  apply bind_Ok in H. destruct H as (d & _ & H).
  destruct (Index.stream_read file p3 8) as [b4 p4].
  apply bind_Ok in H. destruct H as (n & _ & H).
  destruct (Index.stream_read file p4 8) as [b5 p5].
  apply bind_Ok in H. destruct H as (cs & _ & H).
  destruct (Index.stream_read file p5 8) as [b6 p6].
  apply bind_Ok in H. destruct H as (nc & _ & H).
  destruct (Index.stream_read file p6 1) as [b7 p7].
  apply bind_Ok in H. destruct H as (rdb & _ & H).
  apply bind_Ok in H. destruct H as (buf & _ & H).
  apply bind_Ok in H. destruct H as (sizes & _ & H).
  apply bind_Ok in H. destruct H as (pointers & Hp & H).
  apply bind_Ok in H. destruct H as (ids & _ & H).
  apply bind_Ok in H. destruct H as (addrs & _ & H).
  injection H as <-. simpl. eapply frombuffer_in_range, Hp.
Qed.

(** X4: on every dataset that opens, and for a Python [int] [idx], the
    item accessor at [idx] is [get(idx)] with the default offset and
    length, as the docstring of [get] says: the same array, or the same
    exception when the lookup raises.  For a numpy integer [idx] it is
    not: the item accessor returns [None] without a lookup. *)
Theorem get_is_item_accessor (c : corpus) (ds : Dataset.t) (idx : Z) :
  Dataset.__init__ c = Ok ds ->
  Dataset.getitem_any ds (PyInt idx)
  = (a <- Dataset.get ds idx 0 None ;; Ok (Array a)) /\
  forall d : dtype, Dataset.getitem_any ds (NumpyInt d idx) = Ok PyNone.
Proof.
  intros Hopen. split; [| reflexivity].
  unfold Dataset.__init__ in Hopen.
  apply bind_Ok in Hopen. destruct Hopen as (index & Hidx & Hopen).
  apply bind_Ok in Hopen. destruct Hopen as (buf & _ & Hopen).
  injection Hopen as <-.
  pose proof (init_pointers_in_range _ _ Hidx) as Hptr.
  unfold Dataset.getitem_any. f_equal.
  unfold Dataset.get, Dataset.__getitem__, Index.__getitem__.
  cbn [Dataset._index Dataset._bin_buffer].
  destruct (getitem (Index._pointers index) idx) as [p | e] eqn:Hp;
    [| reflexivity].
  cbn [bind].
  destruct (getitem (Index._sizes index) idx) as [s | e] eqn:Hs;
    [| reflexivity].
  cbn [bind].
  rewrite Forall_forall in Hptr. specialize (Hptr p (getitem_In _ _ _ Hp)).
  unfold np_int64_add. rewrite Z.mul_0_l.
  change (fits_long 0) with true. cbv iota.
  rewrite Z.add_0_r, (astype_id np_int64 p Hptr). cbn [bind].
  now rewrite Z.sub_0_r.
Qed.

Lemma get_is_item_accessor_witness :
  Dataset.getitem_any (Dataset.mk scenario_index scenario_data_file)
    (PyInt (-1))
  = (a <- Dataset.get (Dataset.mk scenario_index scenario_data_file)
            (-1) 0 None ;;
     Ok (Array a)) /\
  forall d : dtype,
    Dataset.getitem_any (Dataset.mk scenario_index scenario_data_file)
      (NumpyInt d (-1)) = Ok PyNone.
Proof.
  apply (get_is_item_accessor (Corpus scenario_index_file scenario_data_file)).
  vm_compute. reflexivity.
Defined.

(** ** What the builder keeps *)

(** X7: the builder's invariant.  With a positive chunk size, [add_item]
    succeeds on every document, whatever its length, and after any number
    of calls: there is one size per document; every size is a positive
    multiple of the chunk size, above the document's length by at most one
    chunk; the data file is exactly as long as the spans of these sizes
    (with the reserved chunk in retrieval-db mode), so that it ends where
    the next pointer would be; and the alignment check of the index writer
    passes. *)
Theorem builder_invariant (d : dtype) (rdb : bool) (cs pad : Z)
    (items : list (list Z)) :
  0 < cs ->
  fits_long pad = true ->
  exists b : Builder.t,
    Builder.add_items (Builder.__init__ cs pad rdb d) items = Ok b /\
    length (Builder._sizes b) = length items /\
    Forall (fun size => 0 < size /\ size mod cs = 0) (Builder._sizes b) /\
    (forall (i : nat) (tokens : list Z) (size : Z),
        nth_error items i = Some tokens ->
        nth_error (Builder._sizes b) i = Some size ->
        len tokens < size <= len tokens + cs) /\
    len (Builder._data_file b)
    = total (map (fun size => size * itemsize d
                              + (if rdb then cs * itemsize d else 0))
               (Builder._sizes b)) /\
    exists chunk_ids chunk_address,
      Writer._get_chunk_id_and_address d rdb (Builder._sizes b) cs
      = Ok (chunk_ids, chunk_address).
Proof.
  intros Hcs Hpad. unfold Builder.__init__.
  rewrite add_items_spec by assumption. eexists. split; [reflexivity |].
  cbn [Builder._sizes Builder._data_file app].
  assert (Hall : Forall (fun size => 0 < size /\ size mod cs = 0)
                   (map (padded_size cs) items)).
  { apply Forall_map, Forall_forall. intros tokens _.
    pose proof (padded_size_bounds cs tokens Hcs) as [Hp Hm].
    pose proof (len_nonneg tokens). split; [lia | exact Hm]. }
  split; [apply length_map |]. split; [exact Hall |]. split; [| split].
  - intros i tokens size Hi Hs. rewrite nth_error_map, Hi in Hs.
    injection Hs as <-. apply padded_size_bounds, Hcs.
  - rewrite len_tobytes, (len_concat_regions d rdb cs pad) by assumption.
    reflexivity.
  - unfold Writer._get_chunk_id_and_address.
    destruct (chunk_id_loop_succeeds rdb (itemsize d) cs
                (map (padded_size cs) items) ltac:(lia)
                ltac:(eapply Forall_impl; [| exact Hall];
                      cbv beta; intros s Hs; tauto)
                [] 0 0 []) as (ids & addrs & Heq & _).
    now exists ids, addrs.
Qed.

Lemma builder_invariant_witness :
  exists b : Builder.t,
    Builder.add_items (Builder.__init__ 4 0 true np_int16)
      [[1; 2; 3; 4; 5]; []; [6; 6; 6; 6]] = Ok b /\
    length (Builder._sizes b) = length [[1; 2; 3; 4; 5]; []; [6; 6; 6; 6]] /\
    Forall (fun size => 0 < size /\ size mod 4 = 0) (Builder._sizes b) /\
    (forall (i : nat) (tokens : list Z) (size : Z),
        nth_error [[1; 2; 3; 4; 5]; []; [6; 6; 6; 6]] i = Some tokens ->
        nth_error (Builder._sizes b) i = Some size ->
        len tokens < size <= len tokens + 4) /\
    len (Builder._data_file b)
    = total (map (fun size => size * itemsize np_int16
                              + (if true then 4 * itemsize np_int16 else 0))
               (Builder._sizes b)) /\
    exists chunk_ids chunk_address,
      Writer._get_chunk_id_and_address np_int16 true (Builder._sizes b) 4
      = Ok (chunk_ids, chunk_address).
Proof.
  apply (builder_invariant np_int16 true 4 0
           [[1; 2; 3; 4; 5]; []; [6; 6; 6; 6]]);
    [lia | reflexivity].
Defined.

(** X14: a corpus without documents.  Finalizing a builder that was given
    nothing succeeds: the data file is empty and the index file is the 43
    header bytes, which open as an index of 0 documents and 0 chunks.  The
    dataset does not open on it: an empty data file cannot be memory-mapped,
    and [np.memmap] raises [ValueError]. *)
Theorem empty_corpus (d : dtype) (rdb : bool) (cs pad : Z) :
  0 < cs < 2 ^ 58 ->
  exists (c : corpus) (index : Index.t),
    Builder.finalize (Builder.__init__ cs pad rdb d) = (c, Ok tt) /\
    bin_file c = [] /\
    len (idx_file c) = 43 /\
    Index.__init__ (idx_file c) = Ok index /\
    Index.__len__ index = 0 /\
    Index.num_chunks index = 0 /\
    Index.chunk_size index = cs /\
    Dataset.__init__ c = Raise ValueError.
Proof.
  intros Hcs.
  assert (Hfits : index_fits d rdb cs []).
  { unfold index_fits. split; [lia |]. split; [constructor |].
    unfold len. cbn [length map total fold_right Z.of_nat]. lia. }
  destruct (index_written d rdb cs [] Hfits) as (file & Hw & Hinit).
  assert (Himg : file = index_image d cs rdb [] [] [] []).
  { assert (Hw' : (_ <~ Writer.__enter__ d ;; Writer.write d rdb [] cs) []
                  = (index_image d cs rdb [] (Writer._get_pointers d rdb [] cs)
                       [] [], Ok tt)).
    { apply write_image; try reflexivity; try constructor; lia. }
    rewrite Hw in Hw'. now injection Hw'. }
  exists (Corpus file []), (index_of d rdb cs []).
  split.
  { unfold Builder.finalize, Builder.__init__.
    cbn [Builder._data_file Builder._dtype Builder.chunk_size
           Builder._sizes Builder.retrieval_db Builder.pad_id].
    now rewrite Hw. }
  split; [reflexivity |]. split; [rewrite Himg; reflexivity |].
  split; [exact Hinit |]. split; [reflexivity |]. split; [reflexivity |].
  split; [reflexivity |].
  unfold Dataset.__init__. cbn [idx_file bin_file]. rewrite Hinit.
  reflexivity.
Qed.

Lemma empty_corpus_witness :
  exists (c : corpus) (index : Index.t),
    Builder.finalize (Builder.__init__ 64 0 true np_int64) = (c, Ok tt) /\
    bin_file c = [] /\
    len (idx_file c) = 43 /\
    Index.__init__ (idx_file c) = Ok index /\
    Index.__len__ index = 0 /\
    Index.num_chunks index = 0 /\
    Index.chunk_size index = 64 /\
    Dataset.__init__ c = Raise ValueError.
Proof.
  apply (empty_corpus np_int64 true 64 0). lia.
Defined.

(** ** Windows of a document *)

Lemma window_prefix (doc rest : list Z) (offset count : Z) :
  0 <= offset -> 0 <= count -> offset + count <= len doc ->
  window (doc ++ rest) offset count = window doc offset count.
Proof.
  intros Ho Hc Hle. unfold window, len in *.
  rewrite skipn_app, firstn_app, length_skipn.
  replace (Z.to_nat count - (length doc - Z.to_nat offset))%nat with 0%nat
    by lia.
  now rewrite firstn_O, app_nil_r.
Qed.

(** Reading [count] elements at [offset] elements into the region of
    document [i] of a built corpus. *)
Lemma read_window (d : dtype) (rdb : bool) (cs pad : Z)
    (items : list (list Z)) (i : nat) (tokens : list Z) (offset count : Z) :
  corpus_fits cs pad items ->
  nth_error items i = Some tokens ->
  0 <= offset -> 0 <= count ->
  offset + count <= len (region d rdb cs pad tokens) ->
  Dataset.get
    (Dataset.mk (index_of d rdb cs (map (padded_size cs) items))
       (tobytes d (concat (map (region d rdb cs pad) items))))
    (Z.of_nat i) offset (Some count)
  = Ok (window (region d rdb cs pad tokens) offset count).
Proof.
  intros Hfits Hi Ho Hc Hle.
  pose proof (data_length d rdb cs pad items Hfits) as Hdata.
  pose proof Hfits as (Hcs & Hpad & Hlen & Htot).
  assert (Hlt : (i < length items)%nat)
    by (apply nth_error_Some; congruence).
  set (regs := map (region d rdb cs pad) items) in *.
  set (reg := region d rdb cs pad tokens) in *.
  assert (Hsplit : concat regs
                   = concat (firstn i regs) ++ reg ++ concat (skipn (S i) regs)).
  { apply nth_error_split_concat. unfold regs.
    now rewrite nth_error_map, Hi. }
  set (k := length (concat (firstn i regs))).
  pose proof (itemsize_pos d) as Hd. pose proof (itemsize_le_8 d) as Hd8.
  assert (Hall : len (concat regs) = Z.of_nat k + len reg
                                     + len (concat (skipn (S i) regs))).
  { rewrite Hsplit at 1. rewrite !len_app. unfold k, len. lia. }
  pose proof (len_nonneg (concat (skipn (S i) regs))) as Hpost.
  rewrite len_tobytes in Hdata.
  pose proof (len_regions_le d rdb cs pad items Hcs) as Hregs.
  fold regs in Hregs.
  unfold Dataset.get, Index.__getitem__.
  cbn [Dataset._index Dataset._bin_buffer index_of Index._pointers
         Index._sizes Index._dtype].
  rewrite (getitem_nonneg _ (Z.of_nat i) (itemsize d * Z.of_nat k))
    by (try lia; rewrite Nat2Z.id;
        apply (pointer_of_document d rdb cs pad items i Hcs Hlt)).
  cbn [bind].
  rewrite (getitem_nonneg _ (Z.of_nat i) (padded_size cs tokens))
    by (try lia; rewrite Nat2Z.id, nth_error_map, Hi; reflexivity).
  cbn [bind].
  rewrite np_int64_add_small by nia. cbn [bind].
  replace (itemsize d * Z.of_nat k + offset * itemsize d)
    with (itemsize d * Z.of_nat (k + Z.to_nat offset)) by lia.
  rewrite <- (Z2Nat.id count) at 1 by lia.
  rewrite frombuffer_elems.
  - f_equal. rewrite Hsplit, (Nat.add_comm k), <- skipn_skipn.
    rewrite (skipn_app k), Nat.sub_diag, skipn_O.
    rewrite (skipn_all2 (concat (firstn i regs))) by (unfold k; lia).
    cbn [app].
    fold (window (reg ++ concat (skipn (S i) regs)) offset count).
    rewrite window_prefix by lia.
    apply map_astype_id. unfold window.
    apply Forall_firstn, Forall_skipn, region_in_range.
  - unfold len in *. lia.
  - rewrite len_tobytes. lia.
Qed.

Lemma window_all (l : list Z) (offset : Z) :
  0 <= offset <= len l ->
  window l offset (len l - offset) = skipn (Z.to_nat offset) l.
Proof.
  intros Ho. unfold window. apply firstn_all2.
  rewrite length_skipn. unfold len in *. lia.
Qed.

(** X5: [get(idx, offset, length)] on a built corpus.  For document [idx]
    as stored (the tokens converted to the element type, followed by the
    alignment padding), an offset inside it and a length that stays inside
    it, [get] returns the elements from [offset] to [offset + length]; with
    the default length it returns the rest of the stored document. *)
Theorem get_returns_window (d : dtype) (rdb : bool) (cs pad : Z)
    (items : list (list Z)) :
  corpus_fits cs pad items ->
  items <> [] ->
  exists (b : Builder.t) (c : corpus) (ds : Dataset.t),
    Builder.add_items (Builder.__init__ cs pad rdb d) items = Ok b /\
    Builder.finalize b = (c, Ok tt) /\
    Dataset.__init__ c = Ok ds /\
    forall (i : nat) (tokens : list Z) (offset : Z),
      nth_error items i = Some tokens ->
      0 <= offset <= padded_size cs tokens ->
      Dataset.get ds (Z.of_nat i) offset None
      = Ok (skipn (Z.to_nat offset)
              (map (astype d) tokens ++ alignment_padding d cs pad tokens)) /\
      forall length : Z,
        0 <= length ->
        offset + length <= padded_size cs tokens ->
        Dataset.get ds (Z.of_nat i) offset (Some length)
        = Ok (window
                (map (astype d) tokens ++ alignment_padding d cs pad tokens)
                offset length).
Proof.
  intros Hfits Hne.
  destruct (build_and_open d rdb cs pad items Hfits)
    as (b & c & Hb & Hc & _ & _ & Hopen).
  exists b, c. eexists. split; [exact Hb |]. split; [exact Hc |].
  split; [exact (Hopen Hne) |]. clear Hopen.
  pose proof Hfits as (Hcs & _).
  intros i tokens offset Hi Ho.
  set (doc := map (astype d) tokens ++ alignment_padding d cs pad tokens).
  assert (Hdoc : len doc = padded_size cs tokens)
    by (apply alignment_padding_length; assumption).
  assert (Hwin : forall length : Z,
             0 <= length -> offset + length <= padded_size cs tokens ->
             Dataset.get
               (Dataset.mk (index_of d rdb cs (map (padded_size cs) items))
                  (tobytes d (concat (map (region d rdb cs pad) items))))
               (Z.of_nat i) offset (Some length)
             = Ok (window doc offset length)).
  { intros length Hl Hle.
    rewrite (read_window d rdb cs pad items i tokens offset length Hfits Hi)
      by (try lia; rewrite region_length by assumption; destruct rdb; lia).
    f_equal. unfold region. fold doc. apply window_prefix; lia. }
  split; [| exact Hwin].
  rewrite <- (window_all doc offset) by lia. rewrite Hdoc.
  rewrite <- (Hwin (padded_size cs tokens - offset)) by lia.
  unfold Dataset.get, Index.__getitem__.
  cbn [Dataset._index Dataset._bin_buffer index_of Index._pointers
         Index._sizes Index._dtype].
  destruct (getitem _ (Z.of_nat i)) as [p | e]; [| reflexivity]. cbn [bind].
  assert (Hsize : getitem (map (padded_size cs) items) (Z.of_nat i)
                  = Ok (padded_size cs tokens)).
  { apply getitem_nonneg; [lia |].
    now rewrite Nat2Z.id, nth_error_map, Hi. }
  rewrite Hsize. reflexivity.
Qed.

Lemma get_returns_window_witness :
  exists (b : Builder.t) (c : corpus) (ds : Dataset.t),
    Builder.add_items (Builder.__init__ 4 0 true np_int32)
      [[1; 2; 3; 4; 5]; [9; 9]] = Ok b /\
    Builder.finalize b = (c, Ok tt) /\
    Dataset.__init__ c = Ok ds /\
    forall (i : nat) (tokens : list Z) (offset : Z),
      nth_error [[1; 2; 3; 4; 5]; [9; 9]] i = Some tokens ->
      0 <= offset <= padded_size 4 tokens ->
      Dataset.get ds (Z.of_nat i) offset None
      = Ok (skipn (Z.to_nat offset)
              (map (astype np_int32) tokens
                 ++ alignment_padding np_int32 4 0 tokens)) /\
      forall length : Z,
        0 <= length ->
        offset + length <= padded_size 4 tokens ->
        Dataset.get ds (Z.of_nat i) offset (Some length)
        = Ok (window
                (map (astype np_int32) tokens
                   ++ alignment_padding np_int32 4 0 tokens)
                offset length).
Proof.
  apply (get_returns_window np_int32 true 4 0 [[1; 2; 3; 4; 5]; [9; 9]]).
  - unfold corpus_fits. split; [lia |]. split; [reflexivity |]. split.
    + repeat constructor; vm_compute; reflexivity.
    + vm_compute. reflexivity.
  - discriminate.
Defined.

(** ** Chunks of a document *)

Lemma chunk_run_at (d : dtype) (cs a : Z) (n k : nat) :
  (k < n)%nat ->
  nth_error (chunk_run d cs a n) k = Some (a + Z.of_nat k * (cs * itemsize d)).
Proof.
  intros Hk. unfold chunk_run. rewrite nth_error_map, nth_error_seq.
  destruct (Nat.ltb_spec k n) as [_ | Hge]; [reflexivity | lia].
Qed.

(** The address of chunk [k] of document [i]: [k] chunks after the start
    of the document's region. *)
Lemma chunk_addresses_nth (d : dtype) (rdb : bool) (cs a : Z)
    (sizes : list Z) (i : nat) (size : Z) (k : nat) :
  0 < cs ->
  Forall (fun s => 0 <= s) sizes ->
  nth_error sizes i = Some size ->
  (k < Z.to_nat (size / cs))%nat ->
  nth_error (chunk_addresses d rdb cs a sizes)
    (Z.to_nat (total (map (fun s => s / cs) (firstn i sizes))) + k)
  = Some (a + total (map (doc_span d rdb cs) (firstn i sizes))
          + Z.of_nat k * (cs * itemsize d)).
Proof.
  intros Hcs Hall. revert a i.
  induction Hall as [| s sizes Hs Hall IH]; intros a i Hi Hk.
  - destruct i; discriminate.
  - destruct i as [| i].
    + injection Hi as <-. unfold total.
      cbn [firstn map fold_right chunk_addresses Z.to_nat Nat.add].
      rewrite nth_error_app1 by (now rewrite chunk_run_length).
      rewrite chunk_run_at by assumption. f_equal. lia.
    + cbn [nth_error] in Hi. unfold total in *.
      cbn [firstn map fold_right chunk_addresses].
      assert (Hq : 0 <= s / cs) by (apply Z.div_pos; lia).
      assert (Hrest : 0 <= fold_right Z.add 0
                             (map (fun s => s / cs) (firstn i sizes))).
      { apply total_nonneg, Forall_map, Forall_firstn.
        eapply Forall_impl; [| exact Hall]. cbv beta.
        intros x Hx. apply Z.div_pos; lia. }
      rewrite Z2Nat.inj_add by assumption.
      specialize (IH (a + doc_span d rdb cs s) i Hi Hk).
      set (before := Z.to_nat (fold_right Z.add 0
                                 (map (fun s => s / cs) (firstn i sizes))))
        in *.
      rewrite nth_error_app2 by (rewrite chunk_run_length; lia).
      rewrite chunk_run_length.
      replace (Z.to_nat (s / cs) + before + k - Z.to_nat (s / cs))%nat
        with (before + k)%nat by lia.
      rewrite IH. f_equal. lia.
Qed.

Lemma window_split (l : list Z) (offset c1 c2 : Z) :
  0 <= offset -> 0 <= c1 -> 0 <= c2 ->
  window l offset (c1 + c2)
  = window l offset c1 ++ window l (offset + c1) c2.
Proof.
  intros Ho H1 H2. unfold window.
  rewrite !Z2Nat.inj_add by assumption.
  rewrite (Nat.add_comm (Z.to_nat offset)), <- skipn_skipn.
  generalize (skipn (Z.to_nat offset) l) as m.
  generalize (Z.to_nat c1) as n. induction n as [| n IH]; intros m.
  - reflexivity.
  - destruct m as [| x m]; cbn [Nat.add firstn skipn app].
    + now rewrite firstn_nil.
    + now rewrite IH.
Qed.

(** X8: chunks and documents.  In a built corpus, chunk [k] of document
    [i] (at offset [k * chunk_size], [k] below the document's number of
    chunks) has the id [get_chunk_id] returns, the number of chunks of the
    documents before plus [k]; [get_chunk] of that id returns what [get]
    returns for the document at that offset, which is the [chunk_size]
    stored elements of the document from the offset on and, in
    retrieval-db mode, the [chunk_size] elements that follow them: the next
    chunk of the document, or, after its last chunk, the reserved block of
    pad values. *)
Theorem chunk_is_document_window (d : dtype) (rdb : bool) (cs pad : Z)
    (items : list (list Z)) :
  corpus_fits cs pad items ->
  items <> [] ->
  exists (b : Builder.t) (c : corpus) (ds : Dataset.t),
    Builder.add_items (Builder.__init__ cs pad rdb d) items = Ok b /\
    Builder.finalize b = (c, Ok tt) /\
    Dataset.__init__ c = Ok ds /\
    forall (i : nat) (tokens : list Z) (k : Z),
      nth_error items i = Some tokens ->
      0 <= k < padded_size cs tokens / cs ->
      let doc := map (astype d) tokens ++ alignment_padding d cs pad tokens in
      let chunk_id :=
        total (map (fun t => padded_size cs t / cs) (firstn i items)) + k in
      let size := if rdb then cs * 2 else cs in
      Dataset.get_chunk_id ds (Z.of_nat i) (k * cs) = Ok chunk_id /\
      Dataset.get_chunk ds chunk_id
      = Dataset.get ds (Z.of_nat i) (k * cs) (Some size) /\
      Dataset.get_chunk ds chunk_id
      = Ok (window doc (k * cs) cs
              ++ (if rdb
                  then window (doc ++ repeat (astype d pad) (Z.to_nat cs))
                         ((k + 1) * cs) cs
                  else [])).
Proof.
  intros Hfits Hne.
  destruct (build_and_open d rdb cs pad items Hfits)
    as (b & c & Hb & Hc & _ & _ & Hopen).
  exists b, c. eexists. split; [exact Hb |]. split; [exact Hc |].
  split; [exact (Hopen Hne) |]. clear Hopen.
  pose proof (corpus_fits_index d rdb cs pad items Hfits)
    as (_ & Hsizes & Hbound).
  pose proof Hfits as (Hcs & _).
  intros i tokens k Hi Hk doc chunk_id size.
  set (sizes := map (padded_size cs) items) in *.
  assert (Hlt : (i < length items)%nat)
    by (apply nth_error_Some; congruence).
  assert (Hsize : nth_error sizes i = Some (padded_size cs tokens))
    by (unfold sizes; now rewrite nth_error_map, Hi).
  pose proof (padded_size_bounds cs tokens Hcs) as [Hp Hm].
  pose proof (len_nonneg tokens) as Htok.
  assert (Hexact : padded_size cs tokens = cs * (padded_size cs tokens / cs))
    by (apply Z.div_exact; lia).
  assert (Hdoc : len doc = padded_size cs tokens)
    by (apply alignment_padding_length; assumption).
  (* the chunks before document i *)
  assert (Hbefore : chunk_id
                    = total (map (fun s => s / cs) (firstn i sizes)) + k).
  { unfold chunk_id, sizes. now rewrite firstn_map, map_map. }
  pose proof (total_firstn_le (map (fun s => s / cs) sizes) i
                (quotients_nonneg cs sizes Hcs Hsizes)) as Hle.
  rewrite firstn_map in Hle.
  pose proof (total_quotients_le d rdb cs sizes Hcs Hsizes) as Hq.
  pose proof (len_nonneg sizes) as Hn.
  assert (Hsmall : 0 <= padded_size cs tokens < 2 ^ 31).
  { rewrite Forall_forall in Hsizes.
    apply (Hsizes _ (nth_error_In _ _ Hsize)). }
  assert (Hk' : (k + 1) * cs <= padded_size cs tokens) by nia.
  assert (Hk2 : k < 2 ^ 31) by nia.
  assert (Hsame : Dataset.get_chunk
                    (Dataset.mk (index_of d rdb cs sizes)
                       (tobytes d (concat (map (region d rdb cs pad) items))))
                    chunk_id
                  = Dataset.get
                      (Dataset.mk (index_of d rdb cs sizes)
                         (tobytes d (concat (map (region d rdb cs pad) items))))
                      (Z.of_nat i) (k * cs) (Some size)).
  { pose proof (total_firstn_le (map (doc_span d rdb cs) sizes) i
                  (spans_nonneg d rdb cs sizes Hcs Hsizes)) as Hspan.
    rewrite firstn_map in Hspan.
    pose proof (itemsize_pos d) as Hd. pose proof (itemsize_le_8 d) as Hd8.
    unfold Dataset.get_chunk, Index.get_chunk_address, Dataset.get,
      Index.__getitem__.
    cbn [Dataset._index Dataset._bin_buffer index_of Index._pointers
           Index._sizes Index._dtype Index._chunk_address Index.chunk_size
           Index.retrieval_db].
    rewrite (getitem_nonneg _ chunk_id
               (0 + total (map (doc_span d rdb cs) (firstn i sizes))
                + Z.of_nat (Z.to_nat k) * (cs * itemsize d))).
    2: lia.
    2: { rewrite Hbefore, Z2Nat.inj_add by lia.
         apply chunk_addresses_nth with (size := padded_size cs tokens);
           try assumption.
         - eapply Forall_impl; [| exact Hsizes]. cbv beta. intros x Hx. lia.
         - lia. }
    cbn [bind].
    rewrite (getitem_nonneg _ (Z.of_nat i)
               (0 + total (firstn i (map (doc_span d rdb cs) sizes))))
      by (try lia; rewrite Nat2Z.id; apply starts_nth;
          unfold sizes; now rewrite !length_map).
    cbn [bind].
    rewrite (getitem_nonneg _ (Z.of_nat i) (padded_size cs tokens))
      by (try lia; now rewrite Nat2Z.id).
    cbn [bind]. rewrite firstn_map.
    rewrite np_int64_add_small by nia. cbn [bind].
    fold size. f_equal. rewrite Z2Nat.id by lia. ring. }
  split; [| split].
  - unfold Dataset.get_chunk_id, Index.get_chunk_id.
    cbn [Dataset._index index_of Index.chunk_size Index._chunk_id_start].
    destruct (Z.eqb_spec cs 0) as [-> | _]; [lia |].
    rewrite Z.mod_mul by lia. cbn [assert Z.eqb bind].
    rewrite (getitem_nonneg _ (Z.of_nat i)
               (total (map (fun s => s / cs) (firstn i sizes))))
      by (try lia; rewrite Nat2Z.id, starts_nth
            by (unfold sizes; now rewrite !length_map);
          now rewrite firstn_map).
    cbn [bind]. rewrite Z.div_mul by lia.
    rewrite np_int64_add_small by lia. now rewrite Hbefore.
  - exact Hsame.
  - rewrite Hsame. unfold sizes.
    rewrite (read_window d rdb cs pad items i tokens (k * cs) size Hfits Hi)
      by (try (unfold size; destruct rdb; lia);
          rewrite region_length by assumption;
          unfold size; destruct rdb; lia).
    f_equal. unfold region. fold doc. unfold size. destruct rdb.
    + replace (cs * 2) with (cs + cs) by lia.
      rewrite window_split by lia.
      rewrite window_prefix by lia.
      now replace (k * cs + cs) with ((k + 1) * cs) by ring.
    + cbn [Z.to_nat repeat]. now rewrite !app_nil_r.
Qed.

Lemma chunk_is_document_window_witness :
  exists (b : Builder.t) (c : corpus) (ds : Dataset.t),
    Builder.add_items (Builder.__init__ 4 0 true np_int32)
      [[1; 2; 3; 4; 5]; [9; 9]] = Ok b /\
    Builder.finalize b = (c, Ok tt) /\
    Dataset.__init__ c = Ok ds /\
    forall (i : nat) (tokens : list Z) (k : Z),
      nth_error [[1; 2; 3; 4; 5]; [9; 9]] i = Some tokens ->
      0 <= k < padded_size 4 tokens / 4 ->
      let doc := map (astype np_int32) tokens
                   ++ alignment_padding np_int32 4 0 tokens in
      let chunk_id :=
        total (map (fun t => padded_size 4 t / 4)
                 (firstn i [[1; 2; 3; 4; 5]; [9; 9]])) + k in
      let size := if true then 4 * 2 else 4 in
      Dataset.get_chunk_id ds (Z.of_nat i) (k * 4) = Ok chunk_id /\
      Dataset.get_chunk ds chunk_id
      = Dataset.get ds (Z.of_nat i) (k * 4) (Some size) /\
      Dataset.get_chunk ds chunk_id
      = Ok (window doc (k * 4) 4
              ++ (if true
                  then window (doc ++ repeat (astype np_int32 0) (Z.to_nat 4))
                         ((k + 1) * 4) 4
                  else [])).
Proof.
  apply (chunk_is_document_window np_int32 true 4 0
           [[1; 2; 3; 4; 5]; [9; 9]]).
  - unfold corpus_fits. split; [lia |]. split; [reflexivity |]. split.
    + repeat constructor; vm_compute; reflexivity.
    + vm_compute. reflexivity.
  - discriminate.
Defined.

(** ** Reads that leave the document *)

Lemma frombuffer_rest (buf : bytes) (d : dtype) (count offset : Z) :
  - 2 ^ 63 <= count < 0 ->
  0 <= offset <= len buf ->
  len buf < 2 ^ 63 ->
  (len buf - offset) mod itemsize d = 0 ->
  frombuffer buf d count offset
  = frombuffer buf d ((len buf - offset) / itemsize d) offset.
Proof.
  intros Hc Ho Hbuf Hm. pose proof (itemsize_pos d) as Hd.
  assert (Hs : len buf - offset
               = itemsize d * ((len buf - offset) / itemsize d))
    by (apply Z.div_exact; lia).
  assert (Hq : 0 <= (len buf - offset) / itemsize d)
    by (apply Z.div_pos; lia).
  assert (Hq' : (len buf - offset) / itemsize d <= len buf) by nia.
  unfold frombuffer, fits_long.
  replace (- 2 ^ 63 <=? count) with true by (symmetry; apply Z.leb_le; lia).
  replace (count <? 2 ^ 63) with true by (symmetry; apply Z.ltb_lt; lia).
  replace (- 2 ^ 63 <=? offset) with true by (symmetry; apply Z.leb_le; lia).
  replace (offset <? 2 ^ 63) with true by (symmetry; apply Z.ltb_lt; lia).
  replace (- 2 ^ 63 <=? (len buf - offset) / itemsize d) with true
    by (symmetry; apply Z.leb_le; lia).
  replace ((len buf - offset) / itemsize d <? 2 ^ 63) with true
    by (symmetry; apply Z.ltb_lt; lia).
  cbn [andb negb].
  replace (offset <? 0) with false by (symmetry; apply Z.ltb_ge; lia).
  replace (len buf <? offset) with false by (symmetry; apply Z.ltb_ge; lia).
  cbn [orb]. cbv zeta.
  replace (count <? 0) with true by (symmetry; apply Z.ltb_lt; lia).
  rewrite Hm. cbn [Z.eqb negb].
  replace ((len buf - offset) / itemsize d <? 0) with false
    by (symmetry; apply Z.ltb_ge; lia).
  replace (len buf - offset <? (len buf - offset) / itemsize d * itemsize d)
    with false by (symmetry; apply Z.ltb_ge; lia).
  reflexivity.
Qed.

Lemma frombuffer_too_small (buf : bytes) (d : dtype) (count offset : Z) :
  0 <= count < 2 ^ 63 ->
  0 <= offset < 2 ^ 63 ->
  len buf < offset + count * itemsize d ->
  frombuffer buf d count offset = Raise ValueError.
Proof.
  intros Hc Ho Hlt. unfold frombuffer, fits_long.
  replace (- 2 ^ 63 <=? count) with true by (symmetry; apply Z.leb_le; lia).
  replace (count <? 2 ^ 63) with true by (symmetry; apply Z.ltb_lt; lia).
  replace (- 2 ^ 63 <=? offset) with true by (symmetry; apply Z.leb_le; lia).
  replace (offset <? 2 ^ 63) with true by (symmetry; apply Z.ltb_lt; lia).
  cbn [andb negb].
  replace (offset <? 0) with false by (symmetry; apply Z.ltb_ge; lia).
  cbn [orb]. cbv zeta.
  destruct (Z.ltb_spec (len buf) offset) as [_ | Hle]; [reflexivity |].
  replace (count <? 0) with false by (symmetry; apply Z.ltb_ge; lia).
  replace (len buf - offset <? count * itemsize d) with true
    by (symmetry; apply Z.ltb_lt; lia).
  reflexivity.
Qed.

(** Where [get] reads: [offset] elements after the start of the
    document's region, whatever the size of the document. *)
Lemma get_address (d : dtype) (rdb : bool) (cs pad : Z)
    (items : list (list Z)) (i : nat) (tokens : list Z) (offset : Z)
    (length : option Z) :
  corpus_fits cs pad items ->
  nth_error items i = Some tokens ->
  0 <= offset < 2 ^ 58 ->
  Dataset.get
    (Dataset.mk (index_of d rdb cs (map (padded_size cs) items))
       (tobytes d (concat (map (region d rdb cs pad) items))))
    (Z.of_nat i) offset length
  = frombuffer (tobytes d (concat (map (region d rdb cs pad) items))) d
      match length with
      | None => padded_size cs tokens - offset
      | Some n => n
      end
      (itemsize d
       * (len (concat (firstn i (map (region d rdb cs pad) items)))
          + offset)).
Proof.
  intros Hfits Hi Ho.
  pose proof Hfits as (Hcs & Hpad & Hlen & Htot).
  assert (Hlt : (i < List.length items)%nat)
    by (apply nth_error_Some; congruence).
  set (regs := map (region d rdb cs pad) items) in *.
  pose proof (itemsize_pos d) as Hd. pose proof (itemsize_le_8 d) as Hd8.
  pose proof (len_regions_le d rdb cs pad items Hcs) as Hregs.
  fold regs in Hregs.
  assert (Hpre : 0 <= len (concat (firstn i regs)) <= len (concat regs)).
  { split; [apply len_nonneg |].
    rewrite <- (firstn_skipn i regs) at 2.
    rewrite concat_app, len_app.
    pose proof (len_nonneg (concat (skipn i regs))). lia. }
  unfold Dataset.get, Index.__getitem__.
  cbn [Dataset._index Dataset._bin_buffer index_of Index._pointers
         Index._sizes Index._dtype].
  rewrite (getitem_nonneg _ (Z.of_nat i)
             (itemsize d * len (concat (firstn i regs))))
    by (try lia; rewrite Nat2Z.id;
        apply (pointer_of_document d rdb cs pad items i Hcs Hlt)).
  cbn [bind].
  rewrite (getitem_nonneg _ (Z.of_nat i) (padded_size cs tokens))
    by (try lia; rewrite Nat2Z.id, nth_error_map, Hi; reflexivity).
  cbn [bind].
  rewrite np_int64_add_small by nia. cbn [bind].
  f_equal. ring.
Qed.

(** X9: [get] has no bound at the document.  In a built corpus,
    [get(i, offset, length)] reads [length] elements of the data file from
    [offset] elements after the start of document [i], also when that runs
    past the document into its reserved block and the documents after it;
    only a read past the end of the data file raises [ValueError].  With
    the default length and an offset beyond the document's size (where the
    length computed is negative) it returns everything from there to the
    end of the data file. *)
Theorem get_reads_past_document (d : dtype) (rdb : bool) (cs pad : Z)
    (items : list (list Z)) :
  corpus_fits cs pad items ->
  items <> [] ->
  exists (b : Builder.t) (c : corpus) (ds : Dataset.t),
    Builder.add_items (Builder.__init__ cs pad rdb d) items = Ok b /\
    Builder.finalize b = (c, Ok tt) /\
    Dataset.__init__ c = Ok ds /\
    forall (i : nat) (tokens : list Z) (offset : Z),
      nth_error items i = Some tokens ->
      0 <= offset < 2 ^ 58 ->
      let tail := concat (map (region d rdb cs pad) (skipn i items)) in
      (forall length : Z,
          0 <= length -> offset + length <= len tail ->
          Dataset.get ds (Z.of_nat i) offset (Some length)
          = Ok (window tail offset length)) /\
      (forall length : Z,
          0 <= length < 2 ^ 58 -> len tail < offset + length ->
          Dataset.get ds (Z.of_nat i) offset (Some length)
          = Raise ValueError) /\
      (padded_size cs tokens < offset <= len tail ->
       Dataset.get ds (Z.of_nat i) offset None
       = Ok (skipn (Z.to_nat offset) tail)).
Proof.
  intros Hfits Hne.
  destruct (build_and_open d rdb cs pad items Hfits)
    as (b & c & Hb & Hc & _ & _ & Hopen).
  exists b, c. eexists. split; [exact Hb |]. split; [exact Hc |].
  split; [exact (Hopen Hne) |]. clear Hopen.
  pose proof (data_length d rdb cs pad items Hfits) as Hdata.
  pose proof Hfits as (Hcs & Hpad & Hlen & Htot).
  intros i tokens offset Hi Ho tail.
  set (regs := map (region d rdb cs pad) items) in *.
  set (pre := concat (firstn i regs)).
  assert (Htail : tail = concat (skipn i regs))
    by (unfold tail, regs; now rewrite skipn_map).
  assert (Hsplit : concat regs = pre ++ tail).
  { rewrite Htail. unfold pre.
    now rewrite <- concat_app, firstn_skipn. }
  pose proof (itemsize_pos d) as Hd. pose proof (itemsize_le_8 d) as Hd8.
  pose proof (len_nonneg pre) as Hpre. pose proof (len_nonneg tail) as Htl.
  pose proof (len_regions_le d rdb cs pad items Hcs) as Hregs.
  fold regs in Hregs.
  assert (Hall : len (concat regs) = len pre + len tail)
    by (now rewrite Hsplit, len_app).
  rewrite len_tobytes in Hdata.
  assert (Hrange : Forall (in_range d) tail).
  { unfold tail. apply concat_in_range, Forall_map, Forall_forall.
    intros x _. apply region_in_range. }
  assert (Hread : forall length : Z,
             0 <= length -> offset + length <= len tail ->
             frombuffer (tobytes d (concat regs)) d length
               (itemsize d * (len pre + offset))
             = Ok (window tail offset length)).
  { intros length Hl Hle.
    replace (len pre + offset)
      with (Z.of_nat (List.length pre + Z.to_nat offset))
      by (unfold len; lia).
    rewrite <- (Z2Nat.id length) at 1 by lia.
    rewrite frombuffer_elems.
    - f_equal. rewrite Hsplit, (Nat.add_comm (List.length pre)).
      rewrite <- skipn_skipn.
      rewrite (skipn_app (List.length pre)), Nat.sub_diag, skipn_O.
      rewrite (skipn_all2 pre) by lia. cbn [app].
      apply map_astype_id. now apply Forall_firstn, Forall_skipn.
    - unfold len in *. lia.
    - rewrite len_tobytes. lia. }
  split; [| split].
  - intros length Hl Hle.
    pose proof (get_address d rdb cs pad items i tokens offset (Some length)
                  Hfits Hi Ho) as Hget.
    fold regs in Hget. fold pre in Hget. rewrite Hget. now apply Hread.
  - intros length Hl Hgt.
    pose proof (get_address d rdb cs pad items i tokens offset (Some length)
                  Hfits Hi Ho) as Hget.
    fold regs in Hget. fold pre in Hget. rewrite Hget. apply frombuffer_too_small; try nia.
    rewrite len_tobytes. nia.
  - intros Hoff.
    pose proof (get_address d rdb cs pad items i tokens offset None
                  Hfits Hi Ho) as Hget.
    fold regs in Hget. fold pre in Hget. rewrite Hget.
    pose proof (padded_size_bounds cs tokens Hcs) as [Hp _].
    pose proof (len_nonneg tokens) as Htok.
    assert (Hrest : len (tobytes d (concat regs))
                    - itemsize d * (len pre + offset)
                    = itemsize d * (len tail - offset))
      by (rewrite len_tobytes; nia).
    rewrite frombuffer_rest.
    + rewrite Hrest, Z.mul_comm, Z.div_mul by lia.
      rewrite Hread by lia. f_equal. apply window_all. lia.
    + assert (Hsz : In tokens items) by (eapply nth_error_In; eassumption).
      rewrite Forall_forall in Hlen. specialize (Hlen tokens Hsz).
      cbv beta in Hlen. lia.
    + rewrite len_tobytes. nia.
    + rewrite len_tobytes. lia.
    + rewrite Hrest, Z.mul_comm. apply Z.mod_mul. lia.
Qed.

Lemma get_reads_past_document_witness :
  exists (b : Builder.t) (c : corpus) (ds : Dataset.t),
    Builder.add_items (Builder.__init__ 4 0 true np_int32)
      [[1; 2; 3; 4; 5]; [9; 9]] = Ok b /\
    Builder.finalize b = (c, Ok tt) /\
    Dataset.__init__ c = Ok ds /\
    forall (i : nat) (tokens : list Z) (offset : Z),
      nth_error [[1; 2; 3; 4; 5]; [9; 9]] i = Some tokens ->
      0 <= offset < 2 ^ 58 ->
      let tail :=
        concat (map (region np_int32 true 4 0)
                  (skipn i [[1; 2; 3; 4; 5]; [9; 9]])) in
      (forall length : Z,
          0 <= length -> offset + length <= len tail ->
          Dataset.get ds (Z.of_nat i) offset (Some length)
          = Ok (window tail offset length)) /\
      (forall length : Z,
          0 <= length < 2 ^ 58 -> len tail < offset + length ->
          Dataset.get ds (Z.of_nat i) offset (Some length)
          = Raise ValueError) /\
      (padded_size 4 tokens < offset <= len tail ->
       Dataset.get ds (Z.of_nat i) offset None
       = Ok (skipn (Z.to_nat offset) tail)).
Proof.
  apply (get_reads_past_document np_int32 true 4 0
           [[1; 2; 3; 4; 5]; [9; 9]]).
  - unfold corpus_fits. split; [lia |]. split; [reflexivity |]. split.
    + repeat constructor; vm_compute; reflexivity.
    + vm_compute. reflexivity.
  - discriminate.
Defined.

(** ** Empty ranges of documents *)

Lemma getslice_nil {A : Type} (lo hi : Z) : getslice (@nil A) lo hi = [].
Proof. unfold getslice. cbv zeta. now rewrite skipn_nil, firstn_nil. Qed.

(** X10: ranges of documents that select nothing.  In a built corpus, for
    [0 <= stop <= start], the item accessor on the slice [start:stop]
    returns a list that holds one empty array (not an empty list) when
    [start] is a document id, and raises [IndexError] when [start] is the
    number of documents or more. *)
Theorem empty_range_of_documents (d : dtype) (rdb : bool) (cs pad : Z)
    (items : list (list Z)) :
  corpus_fits cs pad items ->
  items <> [] ->
  exists (b : Builder.t) (c : corpus) (ds : Dataset.t),
    Builder.add_items (Builder.__init__ cs pad rdb d) items = Ok b /\
    Builder.finalize b = (c, Ok tt) /\
    Dataset.__init__ c = Ok ds /\
    forall start stop : Z,
      0 <= stop <= start ->
      Dataset.getitem_slice ds (Slice (Some start) (Some stop) None)
      = if start <? len items then Ok [[]] else Raise IndexError.
Proof.
  intros Hfits Hne.
  destruct (build_and_open d rdb cs pad items Hfits)
    as (b & c & Hb & Hc & _ & _ & Hopen).
  exists b, c. eexists. split; [exact Hb |]. split; [exact Hc |].
  split; [exact (Hopen Hne) |]. clear Hopen.
  pose proof (data_length d rdb cs pad items Hfits) as Hdata.
  pose proof Hfits as (Hcs & Hpad & Hlen & Htot).
  intros start stop Hss.
  set (n := len items).
  pose proof (len_nonneg items) as Hn. fold n in Hn.
  assert (Hidx : forall length : Z,
             length = n ->
             slice_indices (Slice (Some start) (Some stop) None) length
             = Ok (Z.min start n, Z.min stop n, 1)).
  { intros length ->. unfold slice_indices.
    cbn [slice_start slice_stop slice_step Z.eqb Z.ltb Z.compare].
    cbv zeta.
    replace (start <? 0) with false by (symmetry; apply Z.ltb_ge; lia).
    replace (stop <? 0) with false by (symmetry; apply Z.ltb_ge; lia).
    reflexivity. }
  unfold Dataset.getitem_slice. cbv zeta.
  rewrite Hidx
    by (unfold Dataset.__len__, Index.__len__; cbn; now rewrite len_map).
  cbn [bind Z.eqb Pos.eqb negb].
  cbn [Dataset._index Dataset._bin_buffer index_of Index._pointers
         Index._sizes Index._dtype Index.retrieval_db Index.chunk_size].
  destruct (Z.ltb_spec start n) as [Hlt | Hge].
  - set (regs := map (region d rdb cs pad) items) in *.
    assert (Hi : (Z.to_nat start < length items)%nat)
      by (unfold n, len in Hlt; lia).
    rewrite Z.min_l by lia.
    rewrite (getitem_nonneg _ start
               (itemsize d * len (concat (firstn (Z.to_nat start) regs))))
      by (try lia;
          apply (pointer_of_document d rdb cs pad items _ Hcs Hi)).
    cbn [bind]. unfold array_slice.
    rewrite Hidx by (now rewrite len_map). cbn [bind].
    rewrite Z.min_l by lia.
    replace (slice_count start (Z.min stop n) 1) with 0%nat.
    2: { unfold slice_count. cbn [Z.ltb Z.compare].
         rewrite Z.div_1_r. lia. }
    cbn [seq flat_map].
    match goal with
    | |- context [if rdb then map ?f [] else []] =>
        replace (if rdb then map f [] else []) with (@nil Z)
          by (now destruct rdb)
    end.
    cbn [accumulate py_sum fold_left removelast].
    assert (Hfl : fits_long cs = true).
    { pose proof (len_nonneg (concat items)).
      assert (0 <= 2 * cs * n) by nia. fold n in Htot.
      unfold fits_long. apply andb_true_intro. split;
        [apply Z.leb_le | apply Z.ltb_lt]; lia. }
    rewrite Hfl. cbn [negb]. rewrite andb_false_r.
    rewrite (frombuffer_at _
               (tobytes d (concat (firstn (Z.to_nat start) regs))) 
               (tobytes d (concat (skipn (Z.to_nat start) regs))) d []).
    + cbn [bind map]. unfold np_split. cbn [app split_at].
      destruct rdb; cbn [map]; now rewrite ?getslice_nil.
    + cbn [tobytes flat_map app]. rewrite <- tobytes_app, <- concat_app.
      now rewrite firstn_skipn.
    + now rewrite len_tobytes.
    + reflexivity.
    + exact Hdata.
  - rewrite Z.min_r by lia.
    rewrite getitem_out_of_range; [reflexivity |]. right.
    unfold len. rewrite starts_length, !length_map. subst n.
    unfold len in *. lia.
Qed.

Lemma empty_range_of_documents_witness :
  exists (b : Builder.t) (c : corpus) (ds : Dataset.t),
    Builder.add_items (Builder.__init__ 4 0 true np_int32)
      [[1; 2; 3; 4; 5]; [9; 9]] = Ok b /\
    Builder.finalize b = (c, Ok tt) /\
    Dataset.__init__ c = Ok ds /\
    forall start stop : Z,
      0 <= stop <= start ->
      Dataset.getitem_slice ds (Slice (Some start) (Some stop) None)
      = if start <? len [[1; 2; 3; 4; 5]; [9; 9]]
        then Ok [[]] else Raise IndexError.
Proof.
  apply (empty_range_of_documents np_int32 true 4 0
           [[1; 2; 3; 4; 5]; [9; 9]]).
  - unfold corpus_fits. split; [lia |]. split; [reflexivity |]. split.
    + repeat constructor; vm_compute; reflexivity.
    + vm_compute. reflexivity.
  - discriminate.
Defined.

(** ** Merging corpora of different chunk sizes *)

Lemma enter_header (d : dtype) :
  Writer.__enter__ d [] = (_HDR_MAGIC ++ le_bytes 8 1 ++ [code d], Ok tt).
Proof. destruct d; reflexivity. Qed.

(** X11: [merge_file_] does not compare chunk sizes; the mismatch shows at
    [finalize].  When a corpus B holds a document whose recorded size is no
    multiple of the chunk size of builder A, merging B into A succeeds, and
    the [finalize] that follows raises [ValueError]; the index file it
    leaves holds the magic string, the version and the dtype code only, and
    opening it fails. *)
Theorem merge_chunk_size_mismatch (d : dtype) (rdb rdb' : bool)
    (cs pad cs' pad' : Z) (items items' : list (list Z)) :
  corpus_fits cs pad items ->
  corpus_fits cs' pad' items' ->
  Exists (fun tokens => padded_size cs' tokens mod cs <> 0) items' ->
  exists (a b merged : Builder.t) (other c : corpus),
    Builder.add_items (Builder.__init__ cs pad rdb d) items = Ok a /\
    Builder.add_items (Builder.__init__ cs' pad' rdb' d) items' = Ok b /\
    Builder.finalize b = (other, Ok tt) /\
    Builder.merge_file_ a other = Ok merged /\
    Builder.finalize merged = (c, Raise ValueError) /\
    idx_file c = _HDR_MAGIC ++ le_bytes 8 1 ++ [code d] /\
    Index.__init__ (idx_file c) = Raise StructError.
Proof.
  intros Hfits Hfits' Hex.
  destruct (build_and_open d rdb' cs' pad' items' Hfits')
    as (b & other & Hb & Hother & _ & Hindex & _).
  destruct Hfits as (Hcs & Hpad & _).
  exists (Builder.mk
            ([] ++ tobytes d (concat (map (region d rdb cs pad) items)))
            d cs ([] ++ map (padded_size cs) items) rdb pad),
    b.
  eexists. exists other. eexists.
  split; [now apply add_items_spec |].
  split; [exact Hb |]. split; [exact Hother |].
  split.
  { unfold Builder.merge_file_. rewrite Hindex.
    cbn [bind index_of Index._dtype Index._sizes Builder._dtype
           Builder._data_file Builder._sizes Builder.chunk_size
           Builder.retrieval_db Builder.pad_id].
    rewrite dtype_eqb_refl. cbn [assert bind]. reflexivity. }
  assert (Hheader : Index.__init__ (_HDR_MAGIC ++ le_bytes 8 1 ++ [code d])
                    = Raise StructError)
    by (destruct d; reflexivity).
  unfold Builder.finalize.
  cbn [Builder._dtype Builder._sizes Builder.chunk_size
         Builder.retrieval_db Builder._data_file].
  unfold io_bind at 1. rewrite enter_header.
  unfold Writer.write, io_bind, io_lift.
  unfold Writer._get_chunk_id_and_address.
  rewrite chunk_id_loop_misaligned.
  - cbn [idx_file]. repeat split. exact Hheader.
  - lia.
  - apply Exists_app. right.
    apply Exists_exists. apply Exists_exists in Hex.
    destruct Hex as (tokens & Hin & Hmod).
    exists (padded_size cs' tokens). split; [| exact Hmod].
    apply in_map_iff. now exists tokens.
Qed.

Lemma merge_chunk_size_mismatch_witness :
  exists (a b merged : Builder.t) (other c : corpus),
    Builder.add_items (Builder.__init__ 4 0 false np_int32) [[1; 2; 3]]
    = Ok a /\
    Builder.add_items (Builder.__init__ 3 0 false np_int32) [[7; 7]]
    = Ok b /\
    Builder.finalize b = (other, Ok tt) /\
    Builder.merge_file_ a other = Ok merged /\
    Builder.finalize merged = (c, Raise ValueError) /\
    idx_file c = _HDR_MAGIC ++ le_bytes 8 1 ++ [code np_int32] /\
    Index.__init__ (idx_file c) = Raise StructError.
Proof.
  apply (merge_chunk_size_mismatch np_int32 false false 4 0 3 0
           [[1; 2; 3]] [[7; 7]]).
  - unfold corpus_fits. split; [lia |]. split; [reflexivity |]. split.
    + repeat constructor; vm_compute; reflexivity.
    + vm_compute. reflexivity.
  - unfold corpus_fits. split; [lia |]. split; [reflexivity |]. split.
    + repeat constructor; vm_compute; reflexivity.
    + vm_compute. reflexivity.
  - apply Exists_cons_hd. vm_compute. discriminate.
Defined.

(** ** Empty ranges of chunks *)

Lemma array_slice_empty {A : Type} (l : list A) (start stop : Z) :
  0 <= stop <= start ->
  array_slice l (Slice (Some start) (Some stop) None) = Ok [].
Proof.
  intros Hss. unfold array_slice, slice_indices.
  cbn [slice_start slice_stop slice_step Z.eqb Z.ltb Z.compare].
  cbv zeta.
  replace (start <? 0) with false by (symmetry; apply Z.ltb_ge; lia).
  replace (stop <? 0) with false by (symmetry; apply Z.ltb_ge; lia).
  cbn [bind].
  replace (slice_count (Z.min start (len l)) (Z.min stop (len l)) 1)
    with 0%nat; [reflexivity |].
  unfold slice_count. cbn [Z.ltb Z.compare]. rewrite Z.div_1_r. lia.
Qed.

(** X15: a range of chunks that selects nothing.  On every dataset,
    [get_chunk] on a slice [start:stop] with [0 <= stop <= start] raises an
    exception: it never returns an empty list (the first position of the
    empty selection is looked up after the read). *)
Theorem empty_chunk_range_raises (ds : Dataset.t) (start stop : Z)
    (force_no_padding : bool) :
  0 <= stop <= start ->
  exists e : exn,
    Dataset.get_chunk_slice ds (Slice (Some start) (Some stop) None)
      force_no_padding
    = Raise e.
Proof.
  intros Hss. unfold Dataset.get_chunk_slice. cbv zeta.
  destruct (slice_indices _ _) as [[[start' stop'] step] | e];
    [| now exists e].
  cbn [bind]. destruct (negb (step =? 1)); [now exists ValueError |].
  destruct (Index.get_chunk_address _ start') as [ptr | e];
    [| now exists e].
  cbn [bind].
  destruct (Index.get_chunk_address _ (stop' - 1)) as [last | e];
    [| now exists e].
  cbn [bind]. destruct (np_int64_add last _) as [end_address | e];
    [| now exists e].
  cbn [bind]. rewrite array_slice_empty by assumption. cbn [bind map].
  destruct (frombuffer _ _ _ ptr) as [np_array | e]; [| now exists e].
  cbn [bind]. now exists IndexError.
Qed.

Lemma empty_chunk_range_raises_witness :
  exists e : exn,
    Dataset.get_chunk_slice (Dataset.mk scenario_index scenario_data_file)
      (Slice (Some 1) (Some 1) None) false
    = Raise e.
Proof.
  apply (empty_chunk_range_raises
           (Dataset.mk scenario_index scenario_data_file) 1 1 false).
  lia.
Defined.
